(** * ioBroker.acme: Netcup DNS-01 challenge handler and renewal decision

    A shallow embedding of
    - the Netcup DNS-01 challenge handler ([apiCall], [login], [logout],
      [findZone], [create] and the handler operations [set], [get],
      [remove]) of [lib/acme-dns-01-netcup.ts],
    - the polling loop of [set] in the compiled handler
      [build/lib/acme-dns-01-netcup.js], and
    - the renewal decision of [generateCollection], [_arraysMatch] and the
      masking of configuration objects before they are logged, of [main.ts],
    - the first version of the handler ([src/lib/acme-dns-01-netcup.ts]),
    - the DNS-01 pre-flight [pollDns01Challenge], the list of domains of a
      collection, and [stopAdaptersOnSamePort] and
      [restoreAdaptersOnSamePort], of [main.ts],
    followed by the properties established about them.

    JavaScript values are modelled by the inductive type [Json.value], the
    remote API and the DNS resolver by scripts of answers ([Env]), and the
    effects of the code (HTTP requests, DNS queries, timers, log lines) by a
    state-and-exception monad [M] over a [World] that records them. *)

From Stdlib Require Import ZArith String Ascii DecimalString.
From stdpp Require Import base tactics option list sorting strings gmap.

Local Set Warnings "-register-all,-clear-no-such-hyp".
Local Open Scope string_scope.
Local Open Scope list_scope.

(** ** JavaScript primitives used by the sources *)

Module Js.

(** The double-quote character, as it occurs inside template literals. *)
Definition dq : string := String "034"%char EmptyString.

(** [s.split(sep)] for a one-character separator: never the empty array. *)
Fixpoint split (sep : ascii) (s : string) : list string :=
  match s with
  | EmptyString => [EmptyString]
  | String c rest =>
      if Ascii.eqb c sep then EmptyString :: split sep rest
      else match split sep rest with
           | [] => [String c EmptyString]
           | label :: labels => String c label :: labels
           end
  end.

(** [parts.join(sep)]. *)
Definition join (sep : string) (parts : list string) : string :=
  String.concat sep parts.

(** Relative index of [Array.prototype.slice]: a negative index counts
    from the end, and the result is clamped to [0 .. len]. *)
Definition rel_index (len : nat) (k : Z) : nat :=
  if (k <? 0)%Z then Z.to_nat (Z.max (Z.of_nat len + k) 0)
  else Nat.min (Z.to_nat k) len.

(** [xs.slice(start, end)]; [xs.slice(start)] is [slice start None xs]. *)
Definition slice {A} (start : Z) (end_ : option Z) (xs : list A) : list A :=
  let len := length xs in
  let k := rel_index len start in
  let final := match end_ with
               | None => len
               | Some e => rel_index len e
               end in
  take (final - k) (drop k xs).

(** [s || d] on strings: the empty string is the only falsy string. *)
Definition or_else (s d : string) : string :=
  if String.eqb s EmptyString then d else s.

(** [xss.flat()] on an array of arrays. *)
Definition flat {A} (xss : list (list A)) : list A := concat xss.

(** [xs.includes(x)] on strings. *)
Definition includes (xs : list string) (x : string) : bool :=
  existsb (String.eqb x) xs.

(** [s.startsWith(p)]. *)
Definition startsWith (s p : string) : bool := String.prefix p s.

(** [s.slice(n)] on a string, for [0 <= n]. *)
Fixpoint str_drop (n : nat) (s : string) : string :=
  match n, s with
  | O, _ => s
  | S n', String _ rest => str_drop n' rest
  | S _, EmptyString => EmptyString
  end.

(** [s.slice(0, n)] on a string of ASCII characters, for [0 <= n]. *)
Definition str_take (n : nat) (s : string) : string := String.substring 0 n s.

(** Lower-casing of the letters A-Z; every other character is kept.
    This is the case folding a regular expression with the [i] flag (and
    without the [u] flag) applies when it is matched against ASCII
    letters. *)
Definition lower_ascii (c : ascii) : ascii :=
  let n := nat_of_ascii c in
  if ((65 <=? n) && (n <=? 90))%nat then ascii_of_nat (n + 32) else c.

Fixpoint toLower (s : string) : string :=
  match s with
  | EmptyString => EmptyString
  | String c rest => String (lower_ascii c) (toLower rest)
  end.

(** [hay] contains [needle] as a substring. *)
Fixpoint contains (needle hay : string) : bool :=
  String.prefix needle hay ||
  match hay with
  | EmptyString => false
  | String _ rest => contains needle rest
  end.

(** [xs.every((val, idx) => p val idx)]. *)
Fixpoint every_from {A} (p : A -> nat -> bool) (idx : nat) (xs : list A) : bool :=
  match xs with
  | [] => true
  | x :: rest => p x idx && every_from p (S idx) rest
  end.

Definition every {A} (p : A -> nat -> bool) (xs : list A) : bool :=
  every_from p 0 xs.

(** [[...xs].sort()] on strings: the sorted copy, in the order of the
    code units.  The order is total and antisymmetric, so the sorted copy
    does not depend on the sorting algorithm. *)
Definition sort (xs : list string) : list string := merge_sort String.le xs.

End Js.

(** ** JavaScript values, as produced by [JSON.parse] or written as literals *)

Module Json.

Inductive value : Type :=
| Undefined
| Null
| Bool (b : bool)
| Num (n : Z)
| Str (s : string)
| Arr (items : list value)
| Obj (fields : list (string * value)).

(** The own property [key] of an object given by its fields. *)
Fixpoint lookup (key : string) (fields : list (string * value)) : option value :=
  match fields with
  | [] => None
  | (k, v) :: rest => if String.eqb k key then Some v else lookup key rest
  end.

(** [{ ...fields, key: v }]: an existing property keeps its place. *)
Fixpoint assign (key : string) (v : value) (fields : list (string * value))
  : list (string * value) :=
  match fields with
  | [] => [(key, v)]
  | (k, old) :: rest =>
      if String.eqb k key then (k, v) :: rest else (k, old) :: assign key v rest
  end.

(** Truthiness ([if (v)], [v && ...]). *)
Definition truthy (v : value) : bool :=
  match v with
  | Undefined | Null => false
  | Bool b => b
  | Num n => negb (n =? 0)%Z
  | Str s => negb (String.eqb s EmptyString)
  | Arr _ | Obj _ => true
  end.

(** [typeof v === 'object']; this holds of [null] too. *)
Definition typeof_object (v : value) : bool :=
  match v with
  | Null | Arr _ | Obj _ => true
  | _ => false
  end.

(** [v !== null]. *)
Definition not_null (v : value) : bool :=
  match v with
  | Null => false
  | _ => true
  end.

(** [v == null], the test behind [?.] and [??]. *)
Definition nullish (v : value) : bool :=
  match v with
  | Undefined | Null => true
  | _ => false
  end.

(** [v.key] for one of the property names the sources read ([name],
    [apisessionid], [dnsrecords], [type], [hostname], [destination]):
    [None] stands for the TypeError raised on [null] and [undefined];
    primitives and arrays have no such property. *)
Definition prop (v : value) (key : string) : option value :=
  match v with
  | Undefined | Null => None
  | Obj fields => Some (default Undefined (lookup key fields))
  | _ => Some Undefined
  end.

(** [v === s] for a string [s]. *)
Definition eq_str (v : value) (s : string) : bool :=
  match v with
  | Str s' => String.eqb s' s
  | _ => false
  end.

(** [String(v)], which is also what a template literal makes of [v].  A
    number is an integer in this model and is printed in decimal, as
    JavaScript prints the integers below [10^21]. *)
Fixpoint to_string (v : value) : string :=
  match v with
  | Undefined => "undefined"
  | Null => "null"
  | Bool true => "true"
  | Bool false => "false"
  | Num n => NilZero.string_of_int (Z.to_int n)
  | Str s => s
  | Arr items =>
      String.concat ","
        (map (fun item => match item with
                          | Undefined | Null => EmptyString
                          | _ => to_string item
                          end) items)
  | Obj _ => "[object Object]"
  end.

End Json.

(** ** Log lines and errors *)

(** A template literal is kept as the sequence of its fragments: literal
    text and interpolated values.  The message is the concatenation of the
    fragments after [String(...)] or [JSON.stringify(...)]. *)
Inductive Frag : Type :=
| Lit (s : string)
| Interp (s : string)
| InterpNum (n : Z)
| InterpJson (v : Json.value).

Definition Template : Type := list Frag.

Inductive ErrorKind : Type := Error | TypeError | SystemError.

(** A thrown exception: its class, its [message], and its [code] (set on
    errors of the DNS resolver and of the network layer). *)
Record JsError : Type := mkError {
  err_kind : ErrorKind;
  err_message : Template;
  err_code : option string
}.

Definition new_Error (message : Template) : JsError :=
  mkError Error message None.

Definition new_TypeError (message : Template) : JsError :=
  mkError TypeError message None.

(** [`${err}`]: the name of the class, a colon, the message. *)
Definition err_toString (e : JsError) : Template :=
  Lit (match err_kind e with
       | Error | SystemError => "Error: "
       | TypeError => "TypeError: "
       end) :: err_message e.

(** [err.code ?? err.message]. *)
Definition err_code_or_message (e : JsError) : Template :=
  match err_code e with
  | Some c => [Interp c]
  | None => err_message e
  end.

Inductive LogLevel : Type := Debug | Info | Warn | Err.

Record LogEntry : Type := mkLog { log_level : LogLevel; log_message : Template }.

(** ** The world outside the program *)

(** The body [{action, param}] posted to the single API endpoint. *)
Record Request : Type := mkRequest { action : string; param : Json.value }.

(** The response envelope, typed as the source declares it:
    [{ statuscode: number; longmessage?: string; shortmessage?: string;
       responsedata: any }]. *)
Record Envelope : Type := mkEnvelope {
  statuscode : Z;
  longmessage : option string;
  shortmessage : option string;
  responsedata : Json.value
}.

(** What one [fetch] of the endpoint comes to. *)
Inductive HttpResponse : Type :=
| NetworkError (e : JsError)
| HttpError (status : Z) (statusText : string)
| NonJsonBody (rawText : string)
| JsonBody (json : Envelope).

(** What one [resolveTxt] comes to. *)
Inductive DnsAnswer : Type :=
| DnsError (e : JsError)
| DnsRecords (results : list (list string)).

(** The behaviour of the remote API and of the DNS resolver during one run:
    the answer to the n-th request, counted from 0. *)
Record Env : Type := mkEnv {
  api_script : nat -> HttpResponse;
  dns_script : nat -> DnsAnswer
}.

(** The actions of the program that are visible outside, in order. *)
Inductive Event : Type :=
| EFetch (r : Request)
| EResolveTxt (host : string)
| ESleep (ms : Z).

Record World : Type := mkWorld {
  api_calls : nat;
  dns_calls : nat;
  events : list Event;
  logs : list LogEntry
}.

Definition world0 : World := mkWorld 0 0 [] [].

(** ** The monad of effects *)

Inductive Outcome (A : Type) : Type :=
| Return (a : A)
| Throw (e : JsError).
Arguments Return {A} a.
Arguments Throw {A} e.

Definition M (A : Type) : Type := Env -> World -> Outcome A * World.

Definition ret {A} (a : A) : M A := fun _ w => (Return a, w).

Definition throw {A} (e : JsError) : M A := fun _ w => (Throw e, w).

(** A computation without effects that returns or throws. *)
Definition of_outcome {A} (o : Outcome A) : M A := fun _ w => (o, w).

Definition bind {A B} (m : M A) (k : A -> M B) : M B :=
  fun env w =>
    match m env w with
    | (Return a, w') => k a env w'
    | (Throw e, w') => (Throw e, w')
    end.

Notation "'let*' x ':=' m 'in' k" := (bind m (fun x => k))
  (at level 10, x name, m at level 100, k at level 200).

(** [try { body } catch (err) { handler }]. *)
Definition try_catch {A} (body : M A) (handler : JsError -> M A) : M A :=
  fun env w =>
    match body env w with
    | (Return a, w') => (Return a, w')
    | (Throw e, w') => handler e env w'
    end.

(** [try { body } finally { cleanup }]: the cleanup runs however the body
    ends; an exception of the cleanup replaces the outcome of the body. *)
Definition try_finally {A} (body : M A) (cleanup : M unit) : M A :=
  fun env w =>
    let '(r, w') := body env w in
    match cleanup env w' with
    | (Return _, w'') => (r, w'')
    | (Throw e, w'') => (Throw e, w'')
    end.

(** [log.warn(...)], [log.error(...)], [log.debug(...)]. *)
Definition log (level : LogLevel) (message : Template) : M unit :=
  fun _ w =>
    (Return tt,
     mkWorld (api_calls w) (dns_calls w) (events w) (logs w ++ [mkLog level message])).

(** [fetch(API_ENDPOINT, { method: 'POST', ..., body })]. *)
Definition fetch (r : Request) : M HttpResponse :=
  fun env w =>
    (Return (api_script env (api_calls w)),
     mkWorld (S (api_calls w)) (dns_calls w) (events w ++ [EFetch r]) (logs w)).

(** [publicResolver.resolveTxt(host)]. *)
Definition resolveTxt (host : string) : M (list (list string)) :=
  fun env w =>
    let w' := mkWorld (api_calls w) (S (dns_calls w))
                      (events w ++ [EResolveTxt host]) (logs w) in
    match dns_script env (dns_calls w) with
    | DnsRecords results => (Return results, w')
    | DnsError e => (Throw e, w')
    end.

(** [await new Promise(resolve => setTimeout(resolve, ms))]. *)
Definition sleep (ms : Z) : M unit :=
  fun _ w =>
    (Return tt,
     mkWorld (api_calls w) (dns_calls w) (events w ++ [ESleep ms]) (logs w)).

(** A counted loop [for (let i = ...; ...; i++) { body }] over the values
    [indices] of its index.  The body answers [Some r] when it leaves the
    enclosing function with [return r], and [None] when it runs to its end. *)
Fixpoint for_each {A} (indices : list nat) (body : nat -> M (option A))
  : M (option A) :=
  match indices with
  | [] => ret None
  | i :: rest =>
      let* r := body i in
      match r with
      | Some a => ret (Some a)
      | None => for_each rest body
      end
  end.

(** The index values of [for (let i = lo; i < hi; i++)]. *)
Definition range (lo hi : nat) : list nat := seq lo (hi - lo).

(** The index values of [for (let i = lo; i <= hi; i++)]. *)
Definition range_incl (lo hi : nat) : list nat := seq lo (S hi - lo).

(** ** The Netcup challenge handler ([lib/acme-dns-01-netcup.ts]) *)

Module Netcup.

(** The options of [create], as the values the caller passes: the
    customer number is typed [string | number], and nothing checks the
    declared types of the three fields at run time ([undefined] stands for
    a field that is absent). *)
Record NetcupOptions : Type := mkOptions {
  customerNumber : Json.value;
  apiKey : Json.value;
  apiPassword : Json.value
}.

(** [data.challenge]. *)
Record ChallengeData : Type := mkChallenge {
  dnsHost : string;
  dnsAuthorization : string
}.

(** The result of [findZone]. *)
Record Zone : Type := mkZone { rootDomain : string; hostname : string }.

Definition tag : string := "[acme-dns-01-netcup] ".

(** [json.statuscode >= 2000 && json.statuscode < 3000]. *)
Definition isSuccess (json : Envelope) : bool :=
  (2000 <=? statuscode json)%Z && (statuscode json <? 3000)%Z.

(** [json.longmessage ?? json.shortmessage ?? 'unknown error']. *)
Definition error_text (json : Envelope) : string :=
  match longmessage json with
  | Some m => m
  | None => default "unknown error" (shortmessage json)
  end.

(** What [apiCall] makes of the response of [fetch]: the lines after the
    [await fetch(...)]. *)
Definition apiResult (response : HttpResponse) (throwOnError : bool)
  : Outcome Json.value :=
  match response with
  | NetworkError e => Throw e
  | HttpError status statusText =>
      Throw (new_Error [Lit "Netcup HTTP error: "; InterpNum status; Lit " ";
                        Interp statusText])
  | NonJsonBody rawText =>
      Throw (new_Error [Lit "Netcup API returned non-JSON response: ";
                        Interp (Js.str_take 200 rawText)])
  | JsonBody json =>
      if negb (isSuccess json) && throwOnError then
        Throw (new_Error [Lit "Netcup API error ["; InterpNum (statuscode json);
                          Lit "]: "; Interp (error_text json)])
      else Return (if isSuccess json then responsedata json else Json.Null)
  end.

(** Send a JSON request to the Netcup CCP API. *)
Definition apiCall (action : string) (param : Json.value) (throwOnError : bool)
  : M Json.value :=
  let* response := fetch (mkRequest action param) in
  of_outcome (apiResult response throwOnError).

(** The TypeError of a property read on [null] or [undefined]. *)
Definition cannot_read (v : Json.value) (key : string) : JsError :=
  new_TypeError [Lit "Cannot read properties of "; InterpJson v;
                 Lit " (reading '"; Lit key; Lit "')"].

(** Login and return the apisessionid. *)
Definition login (customerNumber apiKey apiPassword : Json.value) : M Json.value :=
  let* data := apiCall "login"
                 (Json.Obj [("customernumber", Json.Str (Json.to_string customerNumber));
                            ("apikey", apiKey);
                            ("apipassword", apiPassword)]) true in
  match Json.prop data "apisessionid" with
  | Some sid => ret sid
  | None => throw (cannot_read data "apisessionid")
  end.

(** Logout.  Errors are swallowed intentionally. *)
Definition logout (customerNumber apiKey apisessionid : Json.value) : M unit :=
  try_catch
    (let* _ := apiCall "logout"
                 (Json.Obj [("customernumber", Json.Str (Json.to_string customerNumber));
                            ("apikey", apiKey);
                            ("apisessionid", apisessionid)]) true in
     ret tt)
    (fun _ => ret tt).

(** The parameters of a request made inside a session on a zone. *)
Definition zone_param (customerNumber apiKey apisessionid : Json.value)
    (domainname : string) (more : list (string * Json.value)) : Json.value :=
  Json.Obj ([("customernumber", Json.Str (Json.to_string customerNumber));
             ("apikey", apiKey);
             ("apisessionid", apisessionid);
             ("domainname", Json.Str domainname)] ++ more).

(** [result !== null && typeof result === 'object' && result.name]. *)
Definition zone_accepted (result : Json.value) : bool :=
  Json.not_null result && Json.typeof_object result &&
  match Json.prop result "name" with
  | Some name => Json.truthy name
  | None => false
  end.

(** [parts.slice(i).join('.')]. *)
Definition candidate_at (parts : list string) (i : nat) : string :=
  Js.join "." (Js.slice (Z.of_nat i) None parts).

(** [parts.slice(0, i).join('.') || '@']. *)
Definition hostname_at (parts : list string) (i : nat) : string :=
  Js.or_else (Js.join "." (Js.slice 0 (Some (Z.of_nat i)) parts)) "@".

(** The body of the loop of [findZone] for one value of [i]. *)
Definition probe (fullDomain : string) (customerNumber apiKey apisessionid : Json.value)
    (parts : list string) (i : nat) : M (option Zone) :=
  let candidate := candidate_at parts i in
  let* result := apiCall "infoDnsZone"
                   (zone_param customerNumber apiKey apisessionid candidate [])
                   false in
  if zone_accepted result then
    let hostname := hostname_at parts i in
    let* _ := log Warn [Lit tag; Lit "findZone: "; Lit Js.dq; Interp fullDomain;
                        Lit Js.dq; Lit " → zone="; Lit Js.dq; Interp candidate;
                        Lit Js.dq; Lit ", hostname="; Lit Js.dq; Interp hostname;
                        Lit Js.dq] in
    ret (Some (mkZone candidate hostname))
  else ret None.

(** The last-two-labels heuristic: [parts.slice(-2).join('.')] and
    [parts.slice(0, -2).join('.') || '@']. *)
Definition fallback (parts : list string) : Zone :=
  mkZone (Js.join "." (Js.slice (-2) None parts))
         (Js.or_else (Js.join "." (Js.slice 0 (Some (-2)%Z) parts)) "@").

(** Find the DNS zone and the relative hostname of a full DNS name, probing
    with infoDnsZone from the most specific suffix to the least specific. *)
Definition findZone (fullDomain : string)
    (customerNumber apiKey apisessionid : Json.value) : M Zone :=
  let parts := Js.split "." fullDomain in
  let* found := for_each (range 1 (length parts - 1))
                  (probe fullDomain customerNumber apiKey apisessionid parts) in
  match found with
  | Some zone => ret zone
  | None =>
      let zone := fallback parts in
      let* _ := log Warn [Lit tag; Lit "findZone: no zone found via API for ";
                          Lit Js.dq; Interp fullDomain; Lit Js.dq;
                          Lit ", using fallback zone="; Lit Js.dq;
                          Interp (rootDomain zone); Lit Js.dq; Lit ", hostname=";
                          Lit Js.dq; Interp (hostname zone); Lit Js.dq] in
      ret zone
  end.

(** The handler returned by [create]: a closure over the credentials. *)
Record Handler : Type := mkHandler { captured : NetcupOptions }.

(** [!v]. *)
Definition missing (v : Json.value) : bool := negb (Json.truthy v).

(** Create an acme-dns-01-netcup challenge handler. *)
Definition create (options : NetcupOptions) : M Handler :=
  if missing (customerNumber options) || missing (apiKey options)
     || missing (apiPassword options) then
    throw (new_Error
      [Lit "acme-dns-01-netcup: customerNumber, apiKey and apiPassword are all required"])
  else
    let* _ := log Warn [Lit tag; Lit "create() called, customerNumber="; Lit Js.dq;
                        Interp (Json.to_string (customerNumber options)); Lit Js.dq] in
    ret (mkHandler options).

Definition init : M unit := ret tt.

Definition maxAttempts : nat := 30.
Definition retryDelayMs : Z := 30000.

(** [attempt N/maxAttempts] in the log lines of the polling loop. *)
Definition attempt_of (attempt : nat) : Template :=
  [Lit "attempt "; InterpNum (Z.of_nat attempt); Lit "/";
   InterpNum (Z.of_nat maxAttempts)].

(** One turn of the polling loop of [set].  In the source the statement
    after the lookup is a bare block, [{ log.warn(...); return null; }], so
    it runs whenever the lookup does not throw; the [log.warn] of "TXT not
    yet visible" that follows the block cannot be reached. *)
Definition poll_attempt (dnsHost dnsAuthorization : string) (attempt : nat)
  : M (option unit) :=
  let* confirmed :=
    try_catch
      (let* results := resolveTxt dnsHost in
       let* _ := log Warn ([Lit tag; Lit "set: DNS record confirmed after "]
                           ++ attempt_of attempt) in
       ret (Some tt))
      (fun err =>
         let* _ := log Warn ([Lit tag; Lit "set: DNS lookup failed ("]
                             ++ attempt_of attempt ++ [Lit "): "]
                             ++ err_code_or_message err ++ [Lit ", waiting..."]) in
         ret None) in
  match confirmed with
  | Some r => ret (Some r)
  | None => let* _ := sleep retryDelayMs in ret None
  end.

(** Poll public DNS until the TXT record is resolvable. *)
Definition await_propagation (dnsHost dnsAuthorization : string) : M unit :=
  let* _ := log Warn [Lit tag; Lit "set: waiting for DNS propagation (polling every ";
                      InterpNum (retryDelayMs / 1000); Lit "s, max ";
                      InterpNum (Z.of_nat maxAttempts); Lit " attempts)..."] in
  let* done := for_each (range_incl 1 maxAttempts)
                 (poll_attempt dnsHost dnsAuthorization) in
  match done with
  | Some _ => ret tt
  | None =>
      throw (new_Error [Lit tag; Lit "DNS record "; Lit Js.dq; Interp dnsHost;
                        Lit Js.dq; Lit " not visible after ";
                        InterpNum (Z.of_nat maxAttempts); Lit " attempts"])
  end.

(** The record written by [set]. *)
Definition txt_record (hostname dnsAuthorization : string) : Json.value :=
  Json.Obj [("hostname", Json.Str hostname); ("type", Json.Str "TXT");
            ("destination", Json.Str dnsAuthorization);
            ("deleterecord", Json.Bool false)].

(** [dnsrecordset: { dnsrecords }]. *)
Definition recordset (records : list Json.value) : list (string * Json.value) :=
  [("dnsrecordset", Json.Obj [("dnsrecords", Json.Arr records)])].

(** The part of [set] between login and logout. *)
Definition write_record (h : Handler) (data : ChallengeData)
    (apisessionid : Json.value) : M unit :=
  let o := captured h in
  let* zone := findZone (dnsHost data) (customerNumber o) (apiKey o) apisessionid in
  let* _ := log Warn [Lit tag; Lit "set: creating TXT hostname="; Lit Js.dq;
                      Interp (hostname zone); Lit Js.dq; Lit " in zone="; Lit Js.dq;
                      Interp (rootDomain zone); Lit Js.dq] in
  let* setResult :=
    apiCall "updateDnsRecords"
      (zone_param (customerNumber o) (apiKey o) apisessionid (rootDomain zone)
         (recordset [txt_record (hostname zone) (dnsAuthorization data)]))
      true in
  log Warn [Lit tag; Lit "set: updateDnsRecords response="; InterpJson setResult].

Definition set (h : Handler) (data : ChallengeData) : M unit :=
  let o := captured h in
  let* _ := log Warn [Lit tag; Lit "set called, dnsHost="; Lit Js.dq;
                      Interp (dnsHost data); Lit Js.dq; Lit " value="; Lit Js.dq;
                      Interp (dnsAuthorization data); Lit Js.dq] in
  let* apisessionid :=
    try_catch (login (customerNumber o) (apiKey o) (apiPassword o))
      (fun err =>
         let* _ := log Err ([Lit tag; Lit "set: login failed: "]
                            ++ err_toString err) in
         throw err) in
  let* _ := try_finally (write_record h data apisessionid)
              (logout (customerNumber o) (apiKey o) apisessionid) in
  await_propagation (dnsHost data) (dnsAuthorization data).

(** The answer of [get]: [{ dnsAuthorization }] or [null]. *)
Definition get (h : Handler) (data : ChallengeData) : M (option string) :=
  let* _ := log Warn [Lit tag; Lit "get: checking dnsHost="; Lit Js.dq;
                      Interp (dnsHost data); Lit Js.dq] in
  try_catch
    (let* results := resolveTxt (dnsHost data) in
     let found := Js.includes (Js.flat results) (dnsAuthorization data) in
     let* _ := log Warn [Lit tag; Lit "get: found=";
                         InterpJson (Json.Bool found)] in
     ret (if found then Some (dnsAuthorization data) else None))
    (fun err =>
       let* _ := log Warn ([Lit tag; Lit "get: DNS lookup failed: "]
                           ++ err_code_or_message err) in
       ret None).

(** [recordsData?.dnsrecords ?? []], as the array [filter] is called on:
    a value that is not an array has no [filter] method. *)
Definition records_of (recordsData : Json.value) : M (list Json.value) :=
  let dnsrecords :=
    if Json.nullish recordsData then Json.Undefined
    else default Json.Undefined (Json.prop recordsData "dnsrecords") in
  if Json.nullish dnsrecords then ret []
  else match dnsrecords with
       | Json.Arr items => ret items
       | _ => throw (new_TypeError [Lit "records.filter is not a function"])
       end.

(** [r.type === 'TXT' && r.hostname === hostname &&
     r.destination === dnsAuthorization]. *)
Definition is_challenge_record (hostname dnsAuthorization : string)
    (r : Json.value) : M bool :=
  match Json.prop r "type" with
  | None => throw (cannot_read r "type")
  | Some type =>
      ret (Json.eq_str type "TXT" &&
           Json.eq_str (default Json.Undefined (Json.prop r "hostname")) hostname &&
           Json.eq_str (default Json.Undefined (Json.prop r "destination"))
                       dnsAuthorization)
  end.

(** [records.filter(p)] for a predicate that can throw. *)
Fixpoint filter_records (p : Json.value -> M bool) (records : list Json.value)
  : M (list Json.value) :=
  match records with
  | [] => ret []
  | r :: rest =>
      let* keep := p r in
      let* kept := filter_records p rest in
      ret (if keep then r :: kept else kept)
  end.

(** [{ ...r, deleterecord: true }]; only objects pass the filter. *)
Definition mark_deleted (r : Json.value) : Json.value :=
  match r with
  | Json.Obj fields => Json.Obj (Json.assign "deleterecord" (Json.Bool true) fields)
  | _ => Json.Obj [("deleterecord", Json.Bool true)]
  end.

(** The part of [remove] between login and logout. *)
Definition delete_records (h : Handler) (data : ChallengeData)
    (apisessionid : Json.value) : M unit :=
  let o := captured h in
  let* zone := findZone (dnsHost data) (customerNumber o) (apiKey o) apisessionid in
  let* recordsData :=
    apiCall "infoDnsRecords"
      (zone_param (customerNumber o) (apiKey o) apisessionid (rootDomain zone) [])
      false in
  let* records := records_of recordsData in
  let* matching := filter_records
                     (is_challenge_record (hostname zone) (dnsAuthorization data))
                     records in
  let toDelete := map mark_deleted matching in
  if (length toDelete =? 0)%nat then ret tt
  else
    let* _ := apiCall "updateDnsRecords"
                (zone_param (customerNumber o) (apiKey o) apisessionid
                   (rootDomain zone) (recordset toDelete))
                true in
    ret tt.

Definition remove (h : Handler) (data : ChallengeData) : M unit :=
  let o := captured h in
  let* _ := log Warn [Lit tag; Lit "remove: dnsHost="; Lit Js.dq;
                      Interp (dnsHost data); Lit Js.dq] in
  let* apisessionid := login (customerNumber o) (apiKey o) (apiPassword o) in
  try_finally (delete_records h data apisessionid)
    (logout (customerNumber o) (apiKey o) apisessionid).

End Netcup.

(** ** The polling loop of the compiled handler ([build/lib/acme-dns-01-netcup.js]) *)

(** The loop queries [authResolver], a resolver for the authoritative name
    servers of the zone or, when they are not found, the public resolver;
    its answers are those of the script of the environment. *)
Module NetcupBuild.

Definition maxAttempts : nat := 120.
Definition retryDelayMs : Z := 10000.

Definition attempt_of (attempt : nat) : Template :=
  [Lit "TXT lookup attempt "; InterpNum (Z.of_nat attempt); Lit "/";
   InterpNum (Z.of_nat maxAttempts)].

(** One turn of the loop that polls the authoritative name servers. *)
Definition poll_attempt (dnsHost dnsAuthorization : string) (attempt : nat)
  : M (option unit) :=
  let* _ := sleep retryDelayMs in
  try_catch
    (let* results := resolveTxt dnsHost in
     let found := Js.includes (Js.flat results) dnsAuthorization in
     let* _ := log Debug ([Lit Netcup.tag; Lit "set: "] ++ attempt_of attempt
                          ++ [Lit ": found="; InterpJson (Json.Bool found)]) in
     if found then
       let* _ := log Warn [Lit Netcup.tag;
                           Lit "set: TXT record confirmed on authoritative NS after attempt ";
                           InterpNum (Z.of_nat attempt); Lit "/";
                           InterpNum (Z.of_nat maxAttempts)] in
       ret (Some tt)
     else ret None)
    (fun err =>
       let* _ := log Debug ([Lit Netcup.tag; Lit "set: "] ++ attempt_of attempt
                            ++ [Lit ": "] ++ err_code_or_message err) in
       ret None).

Definition await_propagation (dnsHost dnsAuthorization : string) : M unit :=
  let* done := for_each (range_incl 1 maxAttempts)
                 (poll_attempt dnsHost dnsAuthorization) in
  match done with
  | Some _ => ret tt
  | None =>
      throw (new_Error [Lit Netcup.tag; Lit "TXT record "; Lit Js.dq; Interp dnsHost;
                        Lit Js.dq; Lit " not visible on authoritative NS after ";
                        InterpNum (Z.of_nat maxAttempts); Lit " attempts (";
                        InterpNum (Z.of_nat maxAttempts * retryDelayMs / 60000);
                        Lit " min)"])
  end.

End NetcupBuild.

(** ** The adapter ([main.ts]) *)

Module Main.

(** Renew 7 days before expiry. *)
Definition renewWindow : Z := 60 * 60 * 24 * 7 * 1000.

(** Checks whether two string arrays contain the same elements
    (order-independent).  The arguments are typed [unknown]: [None] stands
    for a value that is not an array.  The shortcut [arr1 === arr2] of the
    source compares references; an array compared with itself gives [true]
    on the remaining path as well. *)
Definition _arraysMatch (arr1 arr2 : option (list string)) : bool :=
  match arr1, arr2 with
  | Some arr1, Some arr2 =>
      if negb (length arr1 =? length arr2)%nat then false
      else
        let sorted1 := Js.sort arr1 in
        let sorted2 := Js.sort arr2 in
        Js.every (fun val idx => match sorted2 !! idx with
                                 | Some other => String.eqb val other
                                 | None => false
                                 end) sorted1
  | _, _ => false
  end.

(** The fields of a certificate decoded by [x509.parseCert] that
    [generateCollection] reads. *)
Record Certificate : Type := mkCertificate {
  notAfter : string;
  subject_commonName : string;
  altNames : list string
}.

(** The fields of a stored collection that [generateCollection] reads. *)
Record CertificateCollection : Type := mkCollection {
  cert : string;
  staging : bool
}.

Section Renewal.

(** [x509.parseCert], which throws on a certificate it cannot decode. *)
Variable parseCert : string -> Outcome Certificate.

(** [Date.parse]; [None] stands for [NaN]. *)
Variable Date_parse : string -> option Z.

(** [Date.now() > Date.parse(crt.notAfter) - renewWindow]; a comparison
    with [NaN] is false. *)
Definition expiring (now : Z) (crt : Certificate) : bool :=
  match Date_parse (notAfter crt) with
  | Some expiry => (expiry - renewWindow <? now)%Z
  | None => false
  end.

(** The [try] block of [generateCollection]: the value [create] is left
    with, or the exception of [x509.parseCert]. *)
Definition check_existing (useStaging : bool) (commonName : string)
    (domains : list string) (existingCollection : CertificateCollection)
    (now : Z) : Outcome bool :=
  match parseCert (cert existingCollection) with
  | Throw err => Throw err
  | Return crt =>
      Return
        (if expiring now crt then true
         else if negb (String.eqb commonName (subject_commonName crt)) then true
         else if negb (_arraysMatch (Some domains) (Some (altNames crt))) then true
         else if negb (Bool.eqb useStaging (staging existingCollection)) then true
         else false)
  end.

(** The value of [create] when [generateCollection] reaches
    [if (create)]: [useStaging] is [this.config.useStaging], [commonName]
    is [collection.commonName], [domains] is the list built from the
    common name and the alternative names of the configuration, and
    [existingCollection] is what [certManager.getCollection] answered
    ([None] for [null] or [undefined]). *)
Definition generateCollection_create (useStaging : bool) (commonName : string)
    (domains : list string) (existingCollection : option CertificateCollection)
    (now : Z) : bool :=
  match existingCollection with
  | None => true
  | Some existing =>
      match check_existing useStaging commonName domains existing now with
      | Return create => create
      | Throw _ => true
      end
  end.

End Renewal.

(** [/api|key|secret|password|token/i.test(key)]. *)
Definition sensitive_key (key : string) : bool :=
  let k := Js.toLower key in
  Js.contains "api" k || Js.contains "key" k || Js.contains "secret" k
  || Js.contains "password" k || Js.contains "token" k.

(** [typeof v === 'string' && v.length > 0]. *)
Definition nonempty_string (v : Json.value) : bool :=
  match v with
  | Json.Str s => negb (String.eqb s EmptyString)
  | _ => false
  end.

(** One turn of the masking loop, for the key [key] of the object [safe]. *)
Definition mask_key (safe : list (string * Json.value)) (key : string)
  : list (string * Json.value) :=
  if sensitive_key key
     && nonempty_string (default Json.Undefined (Json.lookup key safe)) then
    Json.assign key (Json.Str "***") safe
  else safe.

(** [const safe = { ...obj }; for (const key of Object.keys(safe)) ...]. *)
Definition mask (obj : list (string * Json.value)) : list (string * Json.value) :=
  fold_left mask_key (map fst obj) obj.

(** The first lines of [onReady]: log config without sensitive fields. *)
Definition onReady_log_config (config : list (string * Json.value)) : M unit :=
  log Debug [Lit "config: "; InterpJson (Json.Obj (mask config))].

(** One turn of the loop of [initChallenges] that collects the options of
    the DNS-01 module: the keys that start with [dns01O]. *)
Definition collect_option (dns01Options : list (string * Json.value))
    (entry : string * Json.value) : list (string * Json.value) :=
  let '(key, value) := entry in
  if Js.startsWith key "dns01O" then Json.assign (Js.str_drop 6 key) value dns01Options
  else dns01Options.

(** [dns01Options] of [initChallenges] for the Netcup module (the [switch]
    on the module adds nothing for it). *)
Definition dns01Options (config : list (string * Json.value))
  : list (string * Json.value) :=
  fold_left collect_option config [].

(** A field of the options as [create] destructures it,
    [const { customerNumber, apiKey, apiPassword } = options]: the value as
    it is, [undefined] when the options have no such field. *)
Definition field (key : string) (obj : list (string * Json.value)) : Json.value :=
  default Json.Undefined (Json.lookup key obj).

(** The DNS-01 part of [initChallenges] for [dns01Module] =
    ['acme-dns-01-netcup']: the options are logged without credentials,
    then the bundled module creates the handler from
    [{ ...dns01Options, log: this.log }], of which [create] reads the three
    fields below and the logger; a failure of [create] is logged and leaves
    no handler. *)
Definition initChallenges_netcup (config : list (string * Json.value))
  : M (option Netcup.Handler) :=
  let* _ := log Debug [Lit "Init dns-01 challenge"] in
  let options := dns01Options config in
  let* _ := log Debug [Lit "dns-01 options: "; InterpJson (Json.Obj (mask options))] in
  let* thisChallenge :=
    try_catch
      (let* h := Netcup.create
                   (Netcup.mkOptions (field "customerNumber" options)
                                     (field "apiKey" options)
                                     (field "apiPassword" options)) in
       ret (Some h))
      (fun err =>
         let* _ := log Err (Lit "Failed to load dns-01 challenge module: "
                            :: err_toString err) in
         ret None) in
  match thisChallenge with
  | Some h =>
      let* _ := log Debug
        [Lit "dns-01: propagationDelay set to 0 for Netcup (set() handles propagation internally)"] in
      ret (Some h)
  | None => ret None
  end.

End Main.

(** ** The first version of the handler ([src/lib/acme-dns-01-netcup.ts]) *)

Module NetcupLegacy.

(** The lines of this [apiCall] after the [await fetch(...)]: the success
    test is [json.statuscode !== 2000] and there is no [throwOnError]. *)
Definition apiResult (response : HttpResponse) : Outcome Json.value :=
  match response with
  | NetworkError e => Throw e
  | HttpError status statusText =>
      Throw (new_Error [Lit "Netcup HTTP error: "; InterpNum status; Lit " ";
                        Interp statusText])
  | NonJsonBody rawText =>
      Throw (new_Error [Lit "Netcup API returned non-JSON response: ";
                        Interp (Js.str_take 200 rawText)])
  | JsonBody json =>
      if negb (statuscode json =? 2000)%Z then
        Throw (new_Error [Lit "Netcup API error ["; InterpNum (statuscode json);
                          Lit "]: "; Interp (Netcup.error_text json)])
      else Return (responsedata json)
  end.

Definition apiCall (action : string) (param : Json.value) : M Json.value :=
  let* response := fetch (mkRequest action param) in
  of_outcome (apiResult response).

Definition login (customerNumber apiKey apiPassword : Json.value) : M Json.value :=
  let* data := apiCall "login"
                 (Json.Obj [("customernumber", Json.Str (Json.to_string customerNumber));
                            ("apikey", apiKey);
                            ("apipassword", apiPassword)]) in
  match Json.prop data "apisessionid" with
  | Some sid => ret sid
  | None => throw (Netcup.cannot_read data "apisessionid")
  end.

Definition logout (customerNumber apiKey apisessionid : Json.value) : M unit :=
  try_catch
    (let* _ := apiCall "logout"
                 (Json.Obj [("customernumber", Json.Str (Json.to_string customerNumber));
                            ("apikey", apiKey);
                            ("apisessionid", apisessionid)]) in
     ret tt)
    (fun _ => ret tt).

(** Split a full DNS name like ["_acme-challenge.sub.example.com"] into the
    root domain ["example.com"] and the hostname ["_acme-challenge.sub"]. *)
Definition splitDomain (fullDomain : string) : Outcome Netcup.Zone :=
  let parts := Js.split "." fullDomain in
  if (length parts <? 2)%nat then
    Throw (new_Error [Lit "Cannot split domain: "; Interp fullDomain])
  else
    Return (Netcup.mkZone (Js.join "." (Js.slice (-2) None parts))
              (Js.or_else (Js.join "." (Js.slice 0 (Some (-2)%Z) parts)) "@")).

Definition set (h : Netcup.Handler) (data : Netcup.ChallengeData) : M unit :=
  let o := Netcup.captured h in
  let* zone := of_outcome (splitDomain (Netcup.dnsHost data)) in
  let* apisessionid :=
    login (Netcup.customerNumber o) (Netcup.apiKey o) (Netcup.apiPassword o) in
  let* _ :=
    try_finally
      (apiCall "updateDnsRecords"
         (Netcup.zone_param (Netcup.customerNumber o) (Netcup.apiKey o) apisessionid
            (Netcup.rootDomain zone)
            (Netcup.recordset
               [Netcup.txt_record (Netcup.hostname zone) (Netcup.dnsAuthorization data)])))
      (logout (Netcup.customerNumber o) (Netcup.apiKey o) apisessionid) in
  ret tt.

End NetcupLegacy.

(** ** The DNS-01 pre-flight of the adapter ([pollDns01Challenge] of [main.ts]) *)

(** The function first builds [resolver], a resolver for the authoritative
    name servers of the zone or, when they are not found, the public
    resolver; this part (NS and address lookups, one debug line) is not in
    the model, which starts at the polling.  The TXT lookups of both
    resolvers are answered by the script of the environment, in order. *)
Module Dns01.

Definition maxAttempts : nat := 120.
Definition retryDelayMs : Z := 10000.
Definition maxPublicAttempts : nat := 60.

(** [attempt N/maxAttempts]. *)
Definition attempt_of (attempt limit : nat) : Template :=
  [InterpNum (Z.of_nat attempt); Lit "/"; InterpNum (Z.of_nat limit)].

(** [retrying in ${retryDelayMs / 1000}s...]. *)
Definition retrying : Template :=
  [Lit ", retrying in "; InterpNum (retryDelayMs / 1000); Lit "s..."].

(** One turn of the first loop.  The loop is left by [break] with
    [foundRecords = records]: the turn answers [Some records]. *)
Definition attempt_authoritative (dnsHost expectedValue : string) (attempt : nat)
  : M (option (list (list string))) :=
  let* found :=
    try_catch
      (let* records := resolveTxt dnsHost in
       if Js.includes (Js.flat records) expectedValue then
         let* _ := log Debug
                     ([Lit "acme.dns01: correct TXT value found on authoritative NS after attempt "]
                      ++ attempt_of attempt maxAttempts) in
         ret (Some records)
       else
         let* _ := log Debug
                     ([Lit "acme.dns01: attempt "] ++ attempt_of attempt maxAttempts
                      ++ [Lit ": "]
                      ++ (if (0 <? length records)%nat
                          then [Lit "found "; InterpNum (Z.of_nat (length records));
                                Lit " stale TXT record(s) but not the expected value"]
                          else [Lit "no TXT records yet"])
                      ++ retrying) in
         ret None)
      (fun _ =>
         let* _ := log Debug
                     ([Lit "acme.dns01: attempt "] ++ attempt_of attempt maxAttempts
                      ++ [Lit ": NXDOMAIN — not yet visible"] ++ retrying) in
         ret None) in
  match found with
  | Some records => ret (Some records)
  | None => let* _ := sleep retryDelayMs in ret None
  end.

(** One turn of the second loop, which is left by [return]. *)
Definition attempt_public (dnsHost expectedValue : string) (attempt : nat)
  : M (option (list (list string))) :=
  let* found :=
    try_catch
      (let* records := resolveTxt dnsHost in
       if Js.includes (Js.flat records) expectedValue then
         let* _ := log Info
                     ([Lit "acme.dns01: correct TXT value confirmed on public resolver after "]
                      ++ attempt_of attempt maxPublicAttempts
                      ++ [Lit " — submitting challenge to LE"]) in
         ret (Some records)
       else
         let* _ := log Debug
                     ([Lit "acme.dns01: public resolver attempt "]
                      ++ attempt_of attempt maxPublicAttempts ++ [Lit ": "]
                      ++ [Lit (if (0 <? length records)%nat
                               then "found stale records but not the expected value"
                               else "no records yet")]
                      ++ retrying) in
         ret None)
      (fun _ =>
         let* _ := log Debug
                     ([Lit "acme.dns01: public resolver attempt "]
                      ++ attempt_of attempt maxPublicAttempts ++ [Lit ": NXDOMAIN"]
                      ++ retrying) in
         ret None) in
  match found with
  | Some records => ret (Some records)
  | None => let* _ := sleep retryDelayMs in ret None
  end.

(** Polls the authoritative name servers and then the public resolvers
    until the expected TXT record is visible.  The result
    [{ answer: records.map(rr => ({ data: rr })) }] is kept as [records]. *)
Definition pollDns01Challenge (dnsHost dnsAuthorization : string)
  : M (list (list string)) :=
  let* _ := log Info [Lit "acme.dns01: polling authoritative NS for "; Interp dnsHost;
                      Lit " (every "; InterpNum (retryDelayMs / 1000); Lit "s, max ";
                      InterpNum (Z.of_nat maxAttempts); Lit " attempts = ";
                      InterpNum (Z.of_nat maxAttempts * retryDelayMs / 60000);
                      Lit " min)..."] in
  let expectedValue := dnsAuthorization in
  let* _ := log Debug [Lit "acme.dns01: waiting for TXT value: "; Interp expectedValue] in
  let* broke := for_each (range_incl 1 maxAttempts)
                  (attempt_authoritative dnsHost expectedValue) in
  let foundRecords := default [] broke in
  if (length foundRecords =? 0)%nat then
    throw (new_Error [Lit "acme.dns01: TXT record not visible on authoritative NS after ";
                      InterpNum (Z.of_nat maxAttempts); Lit " attempts"])
  else
    let* _ := log Info [Lit "acme.dns01: "; Interp dnsHost;
                        Lit " visible on authoritative NS — waiting for public resolvers..."] in
    let* returned := for_each (range_incl 1 maxPublicAttempts)
                       (attempt_public dnsHost expectedValue) in
    match returned with
    | Some records => ret records
    | None =>
        let* _ := log Warn
          [Lit "acme.dns01: public resolver timeout — submitting with authoritative NS result (may still succeed)"] in
        ret foundRecords
    end.

End Dns01.

(** ** Adapters on the port of the challenge server ([main.ts]) *)

(** [stopAdaptersOnSamePort] and [restoreAdaptersOnSamePort] read and
    write the instance objects of the object store.  The store is a finite
    map from object ids to the objects; it answers every call.  The view
    [system/instance] returns the instance objects, here in the order of
    the enumeration of the map. *)
Module Ports.

(** The fields of [instance.native] that the port check reads. *)
Record Native : Type := mkNative {
  native_bind : Json.value;
  native_port : Json.value;
  native_secure : Json.value;
  native_leEnabled : Json.value;
  native_leUpdate : Json.value;
  native_leCheckPort : Json.value
}.

(** An instance object: [_id], [common.enabled], [common.host] and
    [native] ([None] when the object has none). *)
Record Instance : Type := mkInstance {
  _id : string;
  common_enabled : bool;
  common_host : string;
  native : option Native
}.

(** The adapter: the object store, [this.stoppedAdapters] ([None] for
    [null] or [undefined]), [this.donePortCheck] and the log. *)
Record Adapter : Type := mkAdapter {
  objects : gmap string Instance;
  stoppedAdapters : option (list string);
  donePortCheck : bool;
  log_lines : list LogEntry
}.

(** [this.log.info(...)] and [this.log.debug(...)]. *)
Definition log (level : LogLevel) (message : Template) (a : Adapter) : Adapter :=
  mkAdapter (objects a) (stoppedAdapters a) (donePortCheck a)
    (log_lines a ++ [mkLog level message]).

(** The test on the two bind addresses in the filter of
    [stopAdaptersOnSamePort]; [other] is [instance.native.bind]. *)
Definition binds_overlap (bind other : string) : bool :=
  String.eqb other bind
  || (Js.contains "." bind && String.eqb other "0.0.0.0")
  || (Js.contains "." other && String.eqb bind "0.0.0.0")
  || (Js.contains ":" bind && String.eqb other "::")
  || (Js.contains ":" other && String.eqb bind "::")
  || (String.eqb other "::" && String.eqb bind "0.0.0.0")
  || (String.eqb other "0.0.0.0" && String.eqb bind "::").

(** [config.common.enabled = flag]. *)
Definition set_enabled (flag : bool) (config : Instance) : Instance :=
  mkInstance (_id config) flag (common_host config) (native config).

Section SamePort.

(** [value == port], the loose comparison of a stored value with the
    port number of the configuration. *)
Variable loose_eq : Json.value -> Z -> bool.

(** [this.namespace], [this.host], and [http01Active], [bind] and [port]
    of [this.config]. *)
Variables (namespace host : string) (http01Active : bool) (bind : string) (port : Z).

(** [`system.adapter.${this.namespace}`]. *)
Definition us : string := "system.adapter." +:+ namespace.

(** The predicate of [instances.filter(...)]. *)
Definition on_same_port (instance : Instance) : bool :=
  negb (String.eqb (_id instance) us)
  && common_enabled instance
  && String.eqb (common_host instance) host
  && match native instance with
     | None => false
     | Some n =>
         match native_bind n with
         | Json.Str other =>
             binds_overlap bind other
             && (loose_eq (native_port n) port
                 || (Json.truthy (native_secure n)
                     && Json.truthy (native_leEnabled n)
                     && Json.truthy (native_leUpdate n)
                     && loose_eq (native_leCheckPort n) port))
         | _ => false
         end
     end.

(** [${host}/${bind}/${port}]. *)
Definition host_bind_port : Template :=
  [Interp host; Lit "/"; Interp bind; Lit "/"; InterpNum port].

(** One turn of the loop of [stopAdaptersOnSamePort]. *)
Definition stop_one (a : Adapter) (id : string) : Adapter :=
  match objects a !! id with
  | Some config =>
      let a := log Info [Lit "Stopping "; Interp (_id config)] a in
      mkAdapter (<[_id config := set_enabled false config]> (objects a))
        (stoppedAdapters a) (donePortCheck a) (log_lines a)
  | None => a
  end.

(** Stop conflicting adapters using our challenge server port only if we
    are going to need it and haven't already checked. *)
Definition stopAdaptersOnSamePort (a : Adapter) : Adapter :=
  if http01Active && negb (donePortCheck a) then
    let a := log Debug ([Lit "Checking for adapter other than us ("; Interp us;
                         Lit ") on our host/bind/port "] ++ host_bind_port
                        ++ [Lit "..."]) a in
    let instances := (map_to_list (objects a)).*2 in
    let adapters := List.filter on_same_port instances in
    let a :=
      if (length adapters =? 0)%nat then
        log Debug [Lit "No adapters found on same port, nothing to stop"] a
      else
        let a := log Info ([Lit "Stopping adapter(s) on our host/bind/port "]
                           ++ host_bind_port ++ [Lit "..."]) a in
        let a := mkAdapter (objects a) (Some (map _id adapters)) (donePortCheck a)
                   (log_lines a) in
        foldl stop_one a (default [] (stoppedAdapters a)) in
    mkAdapter (objects a) (stoppedAdapters a) true (log_lines a)
  else a.

(** One turn of the loop of [restoreAdaptersOnSamePort]. *)
Definition start_one (a : Adapter) (id : string) : Adapter :=
  match objects a !! id with
  | Some config =>
      let a := log Info [Lit "Starting "; Interp (_id config)] a in
      mkAdapter (<[_id config := set_enabled true config]> (objects a))
        (stoppedAdapters a) (donePortCheck a) (log_lines a)
  | None => a
  end.

Definition restoreAdaptersOnSamePort (a : Adapter) : Adapter :=
  match stoppedAdapters a with
  | None => log Debug [Lit "No previously shutdown adapters to restart"] a
  | Some stopped =>
      let a := log Info [Lit "Starting adapter(s) previously shutdown..."] a in
      let a := foldl start_one a stopped in
      mkAdapter (objects a) None false (log_lines a)
  end.

End SamePort.

End Ports.

(** ** The list of domains of a collection ([generateCollection] of [main.ts]) *)

(** Strings are sequences of ASCII characters; among them the white space
    of [trim] and of the class [\s] is the tab, the line feed, the
    vertical tab, the form feed, the carriage return and the space. *)
Module Domains.

Definition is_space (c : ascii) : bool :=
  let n := nat_of_ascii c in
  ((9 <=? n) && (n <=? 13))%nat || (n =? 32)%nat.

(** [s.trimStart()]. *)
Fixpoint trim_start (s : string) : string :=
  match s with
  | EmptyString => EmptyString
  | String c rest => if is_space c then trim_start rest else s
  end.

(** [s.trimEnd()]. *)
Fixpoint trim_end (s : string) : string :=
  match s with
  | EmptyString => EmptyString
  | String c rest =>
      let r := trim_end rest in
      if is_space c && String.eqb r EmptyString then EmptyString else String c r
  end.

(** [s.trim()]. *)
Definition trim (s : string) : string := trim_end (trim_start s).

(** [s.replace(/\s/g, '')]. *)
Fixpoint strip_spaces (s : string) : string :=
  match s with
  | EmptyString => EmptyString
  | String c rest =>
      if is_space c then strip_spaces rest else String c (strip_spaces rest)
  end.

(** The truthiness of a string, [n => n] and [if (collection.altNames)]. *)
Definition nonempty (n : string) : bool := negb (String.eqb n EmptyString).

(** Create domains now as will be used to test any existing collection. *)
Definition domains (commonName altNames : string) : list string :=
  let domains := List.filter nonempty (map trim (Js.split "," commonName)) in
  if nonempty altNames then
    domains ++ List.filter nonempty (Js.split "," (strip_spaces altNames))
  else domains.

End Domains.

(** ** Vocabulary of the statements *)

(** The challenge-record invariant: the full host read back from a zone and
    a name relative to it. *)
Definition reconstruct (z : Netcup.Zone) : string :=
  if String.eqb (Netcup.hostname z) "@" then Netcup.rootDomain z
  else Netcup.hostname z +:+ "." +:+ Netcup.rootDomain z.



(** The API requests among the events of a run, in order. *)
Fixpoint api_requests (es : list Event) : list Request :=
  match es with
  | [] => []
  | EFetch r :: rest => r :: api_requests rest
  | _ :: rest => api_requests rest
  end.

(** The DNS lookups among the events of a run, in order. *)
Fixpoint dns_lookups (es : list Event) : list string :=
  match es with
  | [] => []
  | EResolveTxt host :: rest => host :: dns_lookups rest
  | _ :: rest => dns_lookups rest
  end.

(** The world after one more request to the API. *)
Definition sent (r : Request) (w : World) : World :=
  mkWorld (S (api_calls w)) (dns_calls w) (events w ++ [EFetch r]) (logs w).

(** The login request and the logout request of a handler. *)
Definition login_request (o : Netcup.NetcupOptions) : Request :=
  mkRequest "login"
    (Json.Obj [("customernumber", Json.Str (Json.to_string (Netcup.customerNumber o)));
               ("apikey", Netcup.apiKey o);
               ("apipassword", Netcup.apiPassword o)]).

Definition logout_request (o : Netcup.NetcupOptions) (apisessionid : Json.value)
  : Request :=
  mkRequest "logout"
    (Json.Obj [("customernumber", Json.Str (Json.to_string (Netcup.customerNumber o)));
               ("apikey", Netcup.apiKey o);
               ("apisessionid", apisessionid)]).

(** What [login] makes of the answer to its request. *)
Definition login_outcome (response : HttpResponse) : Outcome Json.value :=
  match Netcup.apiResult response true with
  | Return data =>
      match Json.prop data "apisessionid" with
      | Some sid => Return sid
      | None => Throw (Netcup.cannot_read data "apisessionid")
      end
  | Throw e => Throw e
  end.

(** A request on a zone or on its records. *)
Definition zone_or_record (r : Request) : Prop :=
  action r ∈ ["infoDnsZone"; "infoDnsRecords"; "updateDnsRecords"].

(** A computation whose only visible actions are requests to the API, all of
    which satisfy [P]. *)
Definition sends {A} (P : Request → Prop) (m : M A) : Prop :=
  ∀ env w, ∃ reqs, events (m env w).2 = events w ++ map EFetch reqs ∧ Forall P reqs.

(** A computation that sends no request to the API. *)
Definition quiet {A} (m : M A) : Prop :=
  ∀ env w, ∃ post, events (m env w).2 = events w ++ post
                   ∧ api_requests post = []
                   ∧ api_calls (m env w).2 = api_calls w.

(** The string [secret] is written, as an interpolated value, in a log line
    of the world [w]. *)
Definition logged_in_clear (secret : string) (w : World) : Prop :=
  ∃ line, line ∈ logs w ∧ Interp secret ∈ log_message line.

(** What the log lines of a run can depend on: the log so far, and the
    positions in the scripts of the remote and of the resolver. *)
Definition log_view (w : World) : nat * nat * list LogEntry :=
  (api_calls w, dns_calls w, logs w).

(** Two outcomes agree: both throw the same exception, or both return, with
    results related by [R]. *)
Definition outcomes_agree {A1 A2} (R : A1 → A2 → Prop)
    (o1 : Outcome A1) (o2 : Outcome A2) : Prop :=
  match o1, o2 with
  | Return a1, Return a2 => R a1 a2
  | Throw e1, Throw e2 => e1 = e2
  | _, _ => False
  end.

(** Two computations write the same log lines and end alike, against the
    same remote and resolver. *)
Definition same_logs {A1 A2} (R : A1 → A2 → Prop) (m1 : M A1) (m2 : M A2) : Prop :=
  ∀ env w1 w2,
    log_view w1 = log_view w2 →
    outcomes_agree R (m1 env w1).1 (m2 env w2).1
    ∧ log_view (m1 env w1).2 = log_view (m2 env w2).2.

(** What the masking loop makes of one entry of the object. *)
Definition mask_entry (entry : string * Json.value) : string * Json.value :=
  if Main.sensitive_key entry.1 && Main.nonempty_string entry.2
  then (entry.1, Json.Str "***") else entry.

(** Two sets of options of [create] with the same customer number, and an
    API key and an API password that are present in both or absent in both. *)
Definition same_account (o1 o2 : Netcup.NetcupOptions) : Prop :=
  Netcup.customerNumber o1 = Netcup.customerNumber o2
  ∧ Netcup.missing (Netcup.apiKey o1) = Netcup.missing (Netcup.apiKey o2)
  ∧ Netcup.missing (Netcup.apiPassword o1) = Netcup.missing (Netcup.apiPassword o2).

(** Two handlers made for the same account: both absent, or both present
    with options of the same account. *)
Definition same_handlers (r1 r2 : option Netcup.Handler) : Prop :=
  match r1, r2 with
  | Some h1, Some h2 => same_account (Netcup.captured h1) (Netcup.captured h2)
  | None, None => True
  | _, _ => False
  end.

(** Two objects with the same keys in the same order, whose values differ
    at most at the keys [secrets], where both values are non-empty strings. *)
Definition differ_in_secrets (secrets : list string)
    (obj1 obj2 : list (string * Json.value)) : Prop :=
  Forall2 (λ e1 e2, e1.1 = e2.1
                    ∧ (e1.2 = e2.2
                       ∨ (e1.1 ∈ secrets
                          ∧ Main.nonempty_string e1.2 = true
                          ∧ Main.nonempty_string e2.2 = true)))
          obj1 obj2.

(** The pauses among the events of a run, in order. *)
Fixpoint pauses (es : list Event) : list Z :=
  match es with
  | [] => []
  | ESleep ms :: rest => ms :: pauses rest
  | _ :: rest => pauses rest
  end.

(** The events of [k] turns of the polling loop of [set] in which the lookup
    fails: the lookup, then the pause. *)
Definition failed_turns (dnsHost : string) (k : nat) : list Event :=
  concat (replicate k [EResolveTxt dnsHost; ESleep Netcup.retryDelayMs]).

(** The events of [k] turns of the polling loop of the compiled handler:
    the pause, then the lookup. *)
Definition build_turns (dnsHost : string) (k : nat) : list Event :=
  concat (replicate k [ESleep NetcupBuild.retryDelayMs; EResolveTxt dnsHost]).

(** The answer of the resolver confirms the record: the lookup succeeds and
    one of its values is the expected one. *)
Definition confirms (dnsAuthorization : string) (answer : DnsAnswer) : bool :=
  match answer with
  | DnsRecords results => Js.includes (Js.flat results) dnsAuthorization
  | DnsError _ => false
  end.

(** A remote that accepts the login with the session ["sid"] and answers
    every later request with the zone ["example.com"]. *)
Definition friendly_api (k : nat) : HttpResponse :=
  match k with
  | 0 => JsonBody (mkEnvelope 2000 None None (Json.Obj [("apisessionid", Json.Str "sid")]))
  | _ => JsonBody (mkEnvelope 2000 None None (Json.Obj [("name", Json.Str "example.com")]))
  end.

(** The conditions of renewal of the specification, for a given way of
    comparing the desired domains with the alternative names. *)
Section RenewalConditions.

Variable parseCert : string -> Outcome Main.Certificate.
Variable Date_parse : string -> option Z.

(** The expiry of the certificate is less than the renewal window away. *)
Definition within_renew_window (now : Z) (crt : Main.Certificate) : Prop :=
  ∃ expiry, Date_parse (Main.notAfter crt) = Some expiry
            ∧ (expiry - now < Main.renewWindow)%Z.

(** The conditions under which a certificate is renewed, given how the
    desired domains are compared with its alternative names. *)
Definition renewal_conditions (domains_differ : list string → list string → Prop)
    (useStaging : bool) (commonName : string) (domains : list string)
    (existingCollection : option Main.CertificateCollection) (now : Z) : Prop :=
  match existingCollection with
  | None => True
  | Some existing =>
      match parseCert (Main.cert existing) with
      | Throw _ => True
      | Return crt =>
          within_renew_window now crt
          ∨ commonName ≠ Main.subject_commonName crt
          ∨ domains_differ domains (Main.altNames crt)
          ∨ useStaging ≠ Main.staging existing
      end
  end.

End RenewalConditions.

(** Two lists differ as unordered sets: some element of one is not in the
    other. *)
Definition differ_as_sets (xs ys : list string) : Prop :=
  ¬ (∀ x, x ∈ xs ↔ x ∈ ys).

(** Two lists differ as multisets: neither is a rearrangement of the other. *)
Definition differ_as_multisets (xs ys : list string) : Prop :=
  ¬ (xs ≡ₚ ys).

(** *** Vocabulary of the further properties *)

(** The events of [k] turns of a polling loop in which the record is not
    confirmed: the lookup, then the pause of [ms] milliseconds. *)
Definition poll_turns (dnsHost : string) (ms : Z) (k : nat) : list Event :=
  concat (replicate k [EResolveTxt dnsHost; ESleep ms]).

(** The records of an answer of the resolver that confirms the expected
    value. *)
Definition confirmed_records (expectedValue : string) (answer : DnsAnswer)
  : option (list (list string)) :=
  match answer with
  | DnsRecords records =>
      if Js.includes (Js.flat records) expectedValue then Some records else None
  | DnsError _ => None
  end.

(** A computation whose visible actions all satisfy [Q] and whose result,
    when it returns, satisfies [R]. *)
Definition emits {A} (Q : Event → Prop) (R : A → Prop) (m : M A) : Prop :=
  ∀ env w, ∃ new, events (m env w).2 = events w ++ new
                  ∧ Forall Q new
                  ∧ ∀ a, (m env w).1 = Return a → R a.

(** The records of the [dnsrecordset] of a request. *)
Definition submitted_records (r : Request) : option (list Json.value) :=
  match param r with
  | Json.Obj fields =>
      match Json.lookup "dnsrecordset" fields with
      | Some (Json.Obj recordset) =>
          match Json.lookup "dnsrecords" recordset with
          | Some (Json.Arr records) => Some records
          | _ => None
          end
      | _ => None
      end
  | _ => None
  end.

(** An event that is not an updateDnsRecords request, or is one whose
    records satisfy [P]. *)
Definition updates_only (P : list Json.value → Prop) (e : Event) : Prop :=
  match e with
  | EFetch r =>
      action r = "updateDnsRecords" →
      ∃ records, submitted_records r = Some records ∧ P records
  | _ => True
  end.

(** A TXT record with the value of the challenge, marked for deletion. *)
Definition deletion_of (dnsAuthorization : string) (record : Json.value) : Prop :=
  Json.prop record "type" = Some (Json.Str "TXT")
  ∧ Json.prop record "destination" = Some (Json.Str dnsAuthorization)
  ∧ Json.prop record "deleterecord" = Some (Json.Bool true).

(** The object store is keyed by the ids of its objects. *)
Definition keyed_by_id (store : gmap string Ports.Instance) : Prop :=
  ∀ id instance, store !! id = Some instance → Ports._id instance = id.

(** Every character of the string satisfies [p]. *)
Fixpoint all_chars (p : ascii → bool) (s : string) : bool :=
  match s with
  | EmptyString => true
  | String c rest => p c && all_chars p rest
  end.

(** A character of a host name: a letter, a digit, the hyphen, or the
    underscore of names such as [_acme-challenge]. *)
Definition host_char (c : ascii) : bool :=
  let n := nat_of_ascii c in
  ((48 <=? n) && (n <=? 57))%nat || ((65 <=? n) && (n <=? 90))%nat
  || ((97 <=? n) && (n <=? 122))%nat || (n =? 45)%nat || (n =? 95)%nat.

(** A valid host name: each of its labels is non-empty and made of
    characters of host names. *)
Definition valid_host (fullHost : string) : Prop :=
  Forall (λ label, label ≠ "" ∧ all_chars host_char label = true)
         (Js.split "." fullHost).

(** * Properties *)

(** ** Strings and arrays *)

Section JsFacts.

Lemma split_not_nil sep s : Js.split sep s ≠ [].
Proof.
  destruct s as [|c rest]; simpl; [done|].
  destruct (Ascii.eqb c sep); [done|].
  by destruct (Js.split sep rest).
Qed.

Lemma join_cons2 sep x y rest :
  Js.join sep (x :: y :: rest) = x +:+ sep +:+ Js.join sep (y :: rest).
Proof. reflexivity. Qed.

Lemma string_app_cons c (a b : string) : String c a +:+ b = String c (a +:+ b).
Proof. reflexivity. Qed.

Lemma string_app_assoc (a b c : string) : (a +:+ b) +:+ c = a +:+ b +:+ c.
Proof.
  induction a as [|ch a IH]; [done|].
  by rewrite !string_app_cons, IH.
Qed.

(** Splitting at a character and joining again gives the string back. *)
Lemma join_split sep s : Js.join (String sep "") (Js.split sep s) = s.
Proof.
  induction s as [|c rest IH]; [done|].
  simpl. destruct (Ascii.eqb_spec c sep) as [->|Hne].
  - pose proof (split_not_nil sep rest) as Hnil.
    destruct (Js.split sep rest) as [|y ys] eqn:E; [done|].
    by rewrite join_cons2, IH.
  - pose proof (split_not_nil sep rest) as Hnil.
    destruct (Js.split sep rest) as [|y ys] eqn:E; [done|].
    destruct ys as [|y' ys].
    + simpl in *. by rewrite IH.
    + rewrite join_cons2 in *. by rewrite (string_app_cons c y), IH.
Qed.

(** Joining two non-empty runs of labels, then joining the results. *)
Lemma join_app sep (xs ys : list string) :
  xs ≠ [] → ys ≠ [] →
  Js.join sep (xs ++ ys) = Js.join sep xs +:+ sep +:+ Js.join sep ys.
Proof.
  intros Hx Hy. induction xs as [|x xs IH]; [done|].
  destruct xs as [|x' xs].
  - simpl. destruct ys; [done|]. reflexivity.
  - change ((x :: x' :: xs) ++ ys) with (x :: x' :: (xs ++ ys)).
    rewrite !join_cons2.
    change (x' :: xs ++ ys) with ((x' :: xs) ++ ys).
    rewrite IH by done. by rewrite !string_app_assoc.
Qed.

Lemma slice_from {A} (i : nat) (xs : list A) :
  Js.slice (Z.of_nat i) None xs = drop i xs.
Proof.
  unfold Js.slice, Js.rel_index.
  destruct (Z.ltb_spec (Z.of_nat i) 0); [lia|].
  rewrite Nat2Z.id. destruct (decide (i <= length xs)).
  - rewrite Nat.min_l by done. apply take_ge. rewrite length_drop. lia.
  - rewrite Nat.min_r by lia. rewrite Nat.sub_diag. simpl.
    symmetry. apply drop_ge. lia.
Qed.

Lemma slice_upto {A} (i : nat) (xs : list A) :
  Js.slice 0 (Some (Z.of_nat i)) xs = take i xs.
Proof.
  unfold Js.slice, Js.rel_index. 
  destruct (Z.ltb_spec (Z.of_nat i) 0); [lia|].
  change (0 <? 0)%Z with false. cbv iota. change (Z.to_nat 0) with 0.
  rewrite Nat2Z.id, Nat.min_0_l, Nat.sub_0_r, drop_0.
  destruct (decide (i <= length xs)).
  - by rewrite Nat.min_l.
  - rewrite Nat.min_r by lia. rewrite !take_ge; [done|lia|lia].
Qed.

Lemma slice_last2 {A} (xs : list A) :
  Js.slice (-2) None xs = drop (length xs - 2) xs.
Proof.
  unfold Js.slice, Js.rel_index.
  change (-2 <? 0)%Z with true. cbv iota.
  replace (Z.to_nat (Z.max (Z.of_nat (length xs) + -2) 0)) with (length xs - 2)
    by lia.
  apply take_ge. rewrite length_drop. lia.
Qed.

Lemma slice_but_last2 {A} (xs : list A) :
  Js.slice 0 (Some (-2)%Z) xs = take (length xs - 2) xs.
Proof.
  unfold Js.slice, Js.rel_index.
  change (-2 <? 0)%Z with true. change (0 <? 0)%Z with false. cbv iota.
  change (Z.to_nat 0) with 0.
  replace (Z.to_nat (Z.max (Z.of_nat (length xs) + -2) 0)) with (length xs - 2)
    by lia.
  by rewrite Nat.min_0_l, Nat.sub_0_r, drop_0.
Qed.

Lemma string_app_eq_nil (a b : string) : a +:+ b = "" → a = "" ∧ b = "".
Proof. destruct a; [done|]. rewrite string_app_cons. discriminate. Qed.

(** A run of labels that starts with a label other than [""] and ["@"]
    joins to a string other than [""] and ["@"]. *)
Lemma join_proper sep_c (x : string) (rest : list string) :
  x ≠ "" → x ≠ "@" →
  Js.join (String sep_c "") (x :: rest) ≠ "" ∧
  Js.join (String sep_c "") (x :: rest) ≠ "@".
Proof.
  intros H0 Hat. destruct rest as [|y rest]; [done|].
  rewrite join_cons2. split.
  - intros [? _]%string_app_eq_nil. done.
  - destruct x as [|c x]; [done|]. rewrite (string_app_cons c x). intros [= -> Hx].
    apply string_app_eq_nil in Hx as [_ Hx]. discriminate.
Qed.

End JsFacts.

(** ** Running the monad *)

Section Running.

Context {A B : Type}.

Lemma bind_return (m : M A) (k : A → M B) env w a w' :
  m env w = (Return a, w') → bind m k env w = k a env w'.
Proof. unfold bind. by intros ->. Qed.

End Running.

(** One request to the API: the answer is the next one of the script. *)
Lemma apiCall_run action param throwOnError env w :
  Netcup.apiCall action param throwOnError env w =
  (Netcup.apiResult (api_script env (api_calls w)) throwOnError,
   mkWorld (S (api_calls w)) (dns_calls w)
     (events w ++ [EFetch (mkRequest action param)]) (logs w)).
Proof. reflexivity. Qed.

(** ** The zone resolver *)

Section FindZone.

Variables (fullDomain : string) (customerNumber apiKey apisessionid : Json.value).
Variable parts : list string.

Let probe := Netcup.probe fullDomain customerNumber apiKey apisessionid parts.



(** A probe that leaves the loop leaves it with its own candidate. *)
Lemma probe_some i env w z w' :
  probe i env w = (Return (Some z), w') →
  z = Netcup.mkZone (Netcup.candidate_at parts i) (Netcup.hostname_at parts i).
Proof.
  unfold probe, Netcup.probe, bind at 1. rewrite apiCall_run.
  destruct (Netcup.apiResult _ _) as [result|e]; [|done].
  destruct (Netcup.zone_accepted result); [|done].
  by intros [= <- _].
Qed.


(** Whatever the remote answers, a zone found by the loop is the candidate
    of one of its indices. *)
Lemma for_each_some indices env w z w' :
  for_each indices probe env w = (Return (Some z), w') →
  ∃ i, i ∈ indices ∧
       z = Netcup.mkZone (Netcup.candidate_at parts i) (Netcup.hostname_at parts i).
Proof.
  revert w. induction indices as [|i indices IH]; intros w; simpl.
  - unfold ret. done.
  - unfold bind at 1.
    destruct (probe i env w) as [[[z'|]|e] w1] eqn:E.
    + unfold ret. intros [= <- _]. exists i. split; [left|].
      by eapply probe_some.
    + intros (j & Hj & ->)%IH. exists j. split; [by right|done].
    + done.
Qed.

End FindZone.

Lemma candidate_at_drop parts i :
  Netcup.candidate_at parts i = Js.join "." (drop i parts).
Proof. unfold Netcup.candidate_at. by rewrite slice_from. Qed.

Lemma hostname_at_take parts i :
  Netcup.hostname_at parts i = Js.or_else (Js.join "." (take i parts)) "@".
Proof. unfold Netcup.hostname_at. by rewrite slice_upto. Qed.

Lemma fallback_at parts :
  Netcup.fallback parts =
  Netcup.mkZone (Netcup.candidate_at parts (length parts - 2))
                (Netcup.hostname_at parts (length parts - 2)).
Proof.
  unfold Netcup.fallback.
  by rewrite candidate_at_drop, hostname_at_take, slice_last2, slice_but_last2.
Qed.

(** Cutting a name between two labels: the zone and the relative name give
    the name back, unless the relative name is empty or is ["@"] itself. *)
Lemma reconstruct_at parts i :
  1 <= i < length parts →
  head parts ≠ Some "" → head parts ≠ Some "@" →
  reconstruct (Netcup.mkZone (Netcup.candidate_at parts i) (Netcup.hostname_at parts i))
  = Js.join "." parts.
Proof.
  intros [Hi Hlen] Hempty Hat.
  rewrite candidate_at_drop, hostname_at_take.
  destruct parts as [|x rest]; [simpl in Hlen; lia|].
  destruct i as [|i]; [lia|]. simpl in Hempty, Hat.
  assert (x ≠ "") as Hx0 by congruence.
  assert (x ≠ "@") as Hx1 by congruence.
  pose proof (join_proper "." x (take i rest) Hx0 Hx1) as [Hne Hneat].
  change (x :: take i rest) with (take (S i) (x :: rest)) in Hne, Hneat.
  unfold reconstruct, Js.or_else. cbn [Netcup.hostname Netcup.rootDomain].
  apply String.eqb_neq in Hne. rewrite Hne.
  apply String.eqb_neq in Hneat. rewrite Hneat.
  rewrite <- join_app.
  - by rewrite take_drop.
  - done.
  - intros Hnil. apply (f_equal length) in Hnil.
    rewrite length_drop in Hnil. simpl in Hnil, Hlen. lia.
Qed.

(** The loop of [findZone] comes to an end without an exception when the
    transport does not fail. *)
Lemma for_each_probe_returns fullDomain cn key sid parts indices env w :
  (∀ k, ∃ json, api_script env k = JsonBody json) →
  ∃ r w', for_each indices (Netcup.probe fullDomain cn key sid parts) env w
          = (Return r, w').
Proof.
  intros Hjson. revert w. induction indices as [|i indices IH]; intros w; simpl.
  - by eexists _, _.
  - unfold bind at 1. unfold Netcup.probe at 1. unfold bind at 1.
    rewrite apiCall_run. destruct (Hjson (api_calls w)) as [json ->].
    unfold Netcup.apiResult. rewrite andb_false_r.
    destruct (Netcup.zone_accepted (if Netcup.isSuccess json then _ else _)).
    + by eexists _, _.
    + apply IH.
Qed.

Lemma findZone_run fullDomain cn key sid env w :
  Netcup.findZone fullDomain cn key sid env w =
  match for_each (range 1 (length (Js.split "." fullDomain) - 1))
          (Netcup.probe fullDomain cn key sid (Js.split "." fullDomain)) env w with
  | (Return (Some zone), w') => (Return zone, w')
  | (Return None, w') =>
      (let* _ := log Warn
                   [Lit Netcup.tag; Lit "findZone: no zone found via API for ";
                    Lit Js.dq; Interp fullDomain; Lit Js.dq;
                    Lit ", using fallback zone="; Lit Js.dq;
                    Interp (Netcup.rootDomain (Netcup.fallback (Js.split "." fullDomain)));
                    Lit Js.dq; Lit ", hostname="; Lit Js.dq;
                    Interp (Netcup.hostname (Netcup.fallback (Js.split "." fullDomain)));
                    Lit Js.dq] in
       ret (Netcup.fallback (Js.split "." fullDomain))) env w'
  | (Throw e, w') => (Throw e, w')
  end.
Proof.
  unfold Netcup.findZone. unfold bind at 1.
  destruct (for_each _ _ env w) as [[[z|]|e] w']; reflexivity.
Qed.

(** C10: for a name of exactly two labels [findZone] sends no probe and
    returns the whole name as the zone with the relative name ["@"]. *)
Theorem C10_findZone_two_labels fullDomain cn key sid env w :
  length (Js.split "." fullDomain) = 2 →
  ∃ w', Netcup.findZone fullDomain cn key sid env w
        = (Return (Netcup.mkZone fullDomain "@"), w')
        ∧ api_calls w' = api_calls w
        ∧ events w' = events w.
Proof.
  intros Hlen.
  assert (Netcup.fallback (Js.split "." fullDomain) = Netcup.mkZone fullDomain "@")
    as Hfallback.
  { rewrite fallback_at, Hlen, candidate_at_drop, hostname_at_take.
    change (2 - 2) with 0. rewrite drop_0, join_split. reflexivity. }
  rewrite findZone_run, Hlen, Hfallback.
  change (range 1 (2 - 1)) with (@nil nat). cbn [for_each].
  unfold ret at 1. cbv beta iota.
  eexists. split; [reflexivity|done].
Qed.

Lemma C10_findZone_two_labels_witness :
  length (Js.split "." "example.com") = 2 ∧
  ∃ w', Netcup.findZone "example.com" (Json.Str "12345") (Json.Str "key") (Json.Str "sid")
          (mkEnv (λ _, NonJsonBody "") (λ _, DnsRecords [])) world0
        = (Return (Netcup.mkZone "example.com" "@"), w')
        ∧ api_calls w' = api_calls world0
        ∧ events w' = events world0.
Proof.
  split; [reflexivity|].
  apply (C10_findZone_two_labels "example.com"). reflexivity.
Defined.

(** The first label of a valid host name is neither empty nor ["@"]. *)
Lemma valid_host_first_label fullHost :
  valid_host fullHost →
  head (Js.split "." fullHost) ≠ Some "" ∧ head (Js.split "." fullHost) ≠ Some "@".
Proof.
  unfold valid_host. destruct (Js.split "." fullHost) as [|label labels]; [done|].
  intros [[Hne Hchars] _]%Forall_cons. cbn [head].
  split; intros [= ->]; [done|]. discriminate.
Qed.

(** C4: for a name of at least three labels, every pair [findZone]
    returns, from an accepted probe or from the fallback, gives the name
    back; and [findZone] does return when the transport does not fail.  Of
    the validity of the name the proof uses only that its first label is
    neither empty nor ["@"], which holds of every host name
    ([valid_host_first_label]) and of every [_acme-challenge] name. *)
Theorem C4_findZone_reconstructs fullDomain cn key sid env w :
  3 <= length (Js.split "." fullDomain) →
  head (Js.split "." fullDomain) ≠ Some "" →
  head (Js.split "." fullDomain) ≠ Some "@" →
  (∀ z w', Netcup.findZone fullDomain cn key sid env w = (Return z, w') →
           reconstruct z = fullDomain) ∧
  ((∀ k, ∃ json, api_script env k = JsonBody json) →
   ∃ z w', Netcup.findZone fullDomain cn key sid env w = (Return z, w')).
Proof.
  intros Hlen Hempty Hat. split.
  - intros z w'. rewrite findZone_run.
    destruct (for_each _ _ env w) as [[[zone|]|e] w1] eqn:E.
    + intros [= -> ->].
      apply for_each_some in E as (i & Hi & ->).
      unfold range in Hi. apply elem_of_seq in Hi.
      rewrite reconstruct_at; [apply join_split|lia|done|done].
    + unfold bind, log, ret. intros [= <- _].
      rewrite fallback_at, reconstruct_at; [apply join_split|lia|done|done].
    + done.
  - intros Hjson. rewrite findZone_run.
    destruct (for_each_probe_returns fullDomain cn key sid (Js.split "." fullDomain)
                (range 1 (length (Js.split "." fullDomain) - 1)) env w Hjson)
      as (r & w1 & ->).
    destruct r; by eexists _, _.
Qed.

Lemma C4_findZone_reconstructs_witness :
  let env := mkEnv (λ _, JsonBody (mkEnvelope 5029 None None Json.Null))
                   (λ _, DnsRecords []) in
  ∃ z w', Netcup.findZone "_acme-challenge.foo.example.com" (Json.Str "12345")
            (Json.Str "key") (Json.Str "sid") env world0 = (Return z, w')
          ∧ reconstruct z = "_acme-challenge.foo.example.com".
Proof.
  intros env.
  destruct (C4_findZone_reconstructs "_acme-challenge.foo.example.com"
              (Json.Str "12345") (Json.Str "key") (Json.Str "sid") env world0)
    as [Hback Hreturns].
  - vm_compute. lia.
  - vm_compute. discriminate.
  - vm_compute. discriminate.
  - destruct Hreturns as (z & w' & Hz); [by eexists|].
    exists z, w'. split; [exact Hz|]. exact (Hback z w' Hz).
Defined.

(** Outside the host names: the three labels of [".example.com"] are [""],
    ["example"] and ["com"]; the fallback returns the zone ["example.com"]
    with the relative name ["@"], which reads back as ["example.com"]. *)
Example findZone_empty_first_label :
  let env := mkEnv (λ _, JsonBody (mkEnvelope 5029 None None Json.Null))
                   (λ _, DnsRecords []) in
  3 <= length (Js.split "." ".example.com") ∧
  ∃ z w', Netcup.findZone ".example.com" (Json.Str "12345") (Json.Str "key")
            (Json.Str "sid") env world0
          = (Return z, w')
          ∧ z = Netcup.mkZone "example.com" "@"
          ∧ reconstruct z ≠ ".example.com".
Proof.
  split; [vm_compute; lia|].
  eexists _, _. split; [vm_compute; reflexivity|].
  split; [reflexivity|]. vm_compute. discriminate.
Qed.

(** The same happens with an accepted probe, and with a first label ["@"]. *)
Example findZone_at_label :
  let env := mkEnv (λ _, JsonBody (mkEnvelope 2000 None None
                                     (Json.Obj [("name", Json.Str "example.com")])))
                   (λ _, DnsRecords []) in
  ∃ w', Netcup.findZone "@.example.com" (Json.Str "12345") (Json.Str "key")
          (Json.Str "sid") env world0
        = (Return (Netcup.mkZone "example.com" "@"), w')
        ∧ reconstruct (Netcup.mkZone "example.com" "@") ≠ "@.example.com".
Proof. eexists. split; [vm_compute; reflexivity|]. vm_compute. discriminate. Qed.




(** ** The API client *)

(** C7: a status code in the band [2000 <= statuscode < 3000] is a success
    and [apiCall] returns the response data; a status code outside the band
    is a failure, for which [apiCall] throws when [throwOnError] is true and
    returns [null] when it is false. *)
Theorem C7_apiCall_status_band action param throwOnError env w json :
  api_script env (api_calls w) = JsonBody json →
  let w' := mkWorld (S (api_calls w)) (dns_calls w)
              (events w ++ [EFetch (mkRequest action param)]) (logs w) in
  ((2000 <= statuscode json < 3000)%Z →
   Netcup.apiCall action param throwOnError env w = (Return (responsedata json), w')) ∧
  (¬ (2000 <= statuscode json < 3000)%Z →
   (throwOnError = true →
    Netcup.apiCall action param throwOnError env w
    = (Throw (new_Error [Lit "Netcup API error ["; InterpNum (statuscode json);
                         Lit "]: "; Interp (Netcup.error_text json)]), w')) ∧
   (throwOnError = false →
    Netcup.apiCall action param throwOnError env w = (Return Json.Null, w'))).
Proof.
  intros Hresp w'. rewrite apiCall_run, Hresp. fold w'.
  unfold Netcup.apiResult, Netcup.isSuccess. split.
  - intros [Hlo Hhi].
    apply Z.leb_le in Hlo. apply Z.ltb_lt in Hhi. by rewrite Hlo, Hhi.
  - intros Hout.
    assert ((2000 <=? statuscode json)%Z && (statuscode json <? 3000)%Z = false)
      as ->.
    { apply andb_false_iff.
      destruct (Z.leb_spec 2000 (statuscode json)); [|by left].
      destruct (Z.ltb_spec (statuscode json) 3000); [|by right].
      exfalso. apply Hout. lia. }
    split; by intros ->.
Qed.

Lemma C7_apiCall_status_band_witness :
  let created := mkEnvelope 2011 None (Some "created") (Json.Obj [("id", Json.Num 7)]) in
  let absent := mkEnvelope 5029 (Some "Zone not found") None Json.Undefined in
  let remote json := mkEnv (λ _, JsonBody json) (λ _, DnsRecords []) in
  let w' action := mkWorld 1 0 [EFetch (mkRequest action Json.Null)] [] in
  Netcup.apiCall "updateDnsRecords" Json.Null true (remote created) world0
  = (Return (Json.Obj [("id", Json.Num 7)]), w' "updateDnsRecords")
  ∧ Netcup.apiCall "infoDnsZone" Json.Null true (remote absent) world0
    = (Throw (new_Error [Lit "Netcup API error ["; InterpNum 5029; Lit "]: ";
                         Interp "Zone not found"]), w' "infoDnsZone")
  ∧ Netcup.apiCall "infoDnsZone" Json.Null false (remote absent) world0
    = (Return Json.Null, w' "infoDnsZone").
Proof.
  intros created absent remote w'. split; [|split].
  - apply (C7_apiCall_status_band "updateDnsRecords" Json.Null true (remote created)
             world0 created eq_refl).
    cbn [statuscode created]. lia.
  - apply (C7_apiCall_status_band "infoDnsZone" Json.Null true (remote absent)
             world0 absent eq_refl); [|reflexivity].
    cbn [statuscode absent]. lia.
  - apply (C7_apiCall_status_band "infoDnsZone" Json.Null false (remote absent)
             world0 absent eq_refl); [|reflexivity].
    cbn [statuscode absent]. lia.
Defined.

(** ** The propagation wait of [set] *)

Section Polling.

Variables (dnsHost dnsAuthorization : string).

(** One turn of the loop of the TypeScript handler: any answer of the
    resolver ends the wait, whatever its values. *)
Lemma poll_attempt_answered attempt env w results :
  dns_script env (dns_calls w) = DnsRecords results →
  ∃ line,
    Netcup.poll_attempt dnsHost dnsAuthorization attempt env w =
    (Return (Some tt),
     mkWorld (api_calls w) (S (dns_calls w)) (events w ++ [EResolveTxt dnsHost])
       (logs w ++ [line])).
Proof.
  intros Hdns. unfold Netcup.poll_attempt, bind, try_catch, resolveTxt.
  rewrite Hdns. eexists. reflexivity.
Qed.

(** A lookup that fails is followed by the wait of [retryDelayMs]. *)
Lemma poll_attempt_failed attempt env w e :
  dns_script env (dns_calls w) = DnsError e →
  ∃ line,
    Netcup.poll_attempt dnsHost dnsAuthorization attempt env w =
    (Return None,
     mkWorld (api_calls w) (S (dns_calls w))
       (events w ++ [EResolveTxt dnsHost; ESleep Netcup.retryDelayMs])
       (logs w ++ [line])).
Proof.
  intros Hdns. unfold Netcup.poll_attempt, bind, try_catch, resolveTxt.
  rewrite Hdns. eexists. unfold log, sleep, ret. cbn [events logs api_calls dns_calls].
  by rewrite <- app_assoc.
Qed.

Lemma for_each_poll_failed indices env w :
  (∀ k, k < length indices → ∃ e, dns_script env (dns_calls w + k) = DnsError e) →
  ∃ lines,
    for_each indices (Netcup.poll_attempt dnsHost dnsAuthorization) env w =
    (Return None,
     mkWorld (api_calls w) (dns_calls w + length indices)
       (events w ++ failed_turns dnsHost (length indices)) (logs w ++ lines)).
Proof.
  revert w. induction indices as [|i indices IH]; intros w Hfail.
  - exists []. destruct w. unfold failed_turns. simpl. unfold ret.
    by rewrite Nat.add_0_r, !app_nil_r.
  - destruct (Hfail 0) as [e He]; [simpl; lia|]. rewrite Nat.add_0_r in He.
    destruct (poll_attempt_failed i env w e He) as [line Hp].
    cbn [for_each]. erewrite bind_return by exact Hp.
    edestruct IH as [lines ->].
    { intros k Hk. cbn [dns_calls].
      replace (S (dns_calls w) + k) with (dns_calls w + S k) by lia.
      apply Hfail. simpl. lia. }
    exists (line :: lines). cbn [api_calls dns_calls events logs length].
    unfold failed_turns. cbn [replicate concat].
    f_equal. f_equal; [lia| |].
    + by rewrite <- !app_assoc.
    + by rewrite <- app_assoc.
Qed.

(** When every lookup fails, the wait makes [maxAttempts] lookups, each
    followed by a pause, and ends with the error that names the host and the
    number of attempts. *)
Lemma await_propagation_lookups_fail env w :
  (∀ k, k < Netcup.maxAttempts → ∃ e, dns_script env (dns_calls w + k) = DnsError e) →
  ∃ w',
    Netcup.await_propagation dnsHost dnsAuthorization env w =
    (Throw (new_Error [Lit Netcup.tag; Lit "DNS record "; Lit Js.dq; Interp dnsHost;
                       Lit Js.dq; Lit " not visible after ";
                       InterpNum (Z.of_nat Netcup.maxAttempts); Lit " attempts"]), w')
    ∧ events w' = events w ++ failed_turns dnsHost Netcup.maxAttempts
    ∧ dns_calls w' = dns_calls w + Netcup.maxAttempts.
Proof.
  intros Hfail. unfold Netcup.await_propagation.
  unfold bind at 1. unfold log at 1.
  set (w1 := mkWorld _ _ _ _).
  destruct (for_each_poll_failed (range_incl 1 Netcup.maxAttempts) env w1)
    as [lines Hloop].
  { intros k Hk. apply Hfail. exact Hk. }
  erewrite bind_return by exact Hloop.
  eexists. split; [reflexivity|]. split; reflexivity.
Qed.

End Polling.

(** *** The loop of the TypeScript handler *)

(** Whatever values the first lookup returns, the wait of [set] ends with
    success after this single lookup. *)
Lemma await_propagation_any_answer dnsHost dnsAuthorization env w results :
  dns_script env (dns_calls w) = DnsRecords results →
  ∃ w', Netcup.await_propagation dnsHost dnsAuthorization env w = (Return tt, w')
        ∧ events w' = events w ++ [EResolveTxt dnsHost].
Proof.
  intros Hdns. unfold Netcup.await_propagation.
  unfold bind at 1. unfold log at 1.
  set (w1 := mkWorld _ _ _ _).
  destruct (poll_attempt_answered dnsHost dnsAuthorization 1 env w1 results Hdns)
    as [line Hp].
  change (range_incl 1 Netcup.maxAttempts) with (1 :: seq 2 29).
  cbn [for_each]. erewrite bind_return; last first.
  { erewrite bind_return by exact Hp. reflexivity. }
  eexists. split; reflexivity.
Qed.

(** C1 fails on the code: the only answer of the resolver is a list of
    values without the expected authorization value, and the polling loop of
    [set] reports success on this first attempt, with no wait and no retry. *)
Theorem C1_set_confirms_on_unexpected_value :
  let env := mkEnv friendly_api (λ _, DnsRecords [["stale-value"]]) in
  let h := Netcup.mkHandler
             (Netcup.mkOptions (Json.Str "12345") (Json.Str "key") (Json.Str "password")) in
  let data := Netcup.mkChallenge "_acme-challenge.foo.example.com" "tok1" in
  confirms "tok1" (dns_script env 0) = false ∧
  ∃ w', Netcup.set h data env world0 = (Return tt, w')
        ∧ dns_lookups (events w') = ["_acme-challenge.foo.example.com"]
        ∧ pauses (events w') = [].
Proof.
  split; [reflexivity|].
  eexists. split; [vm_compute; reflexivity|]. split; reflexivity.
Qed.

(** C6 fails on the code: none of the [maxAttempts] answers of the resolver
    confirms the record, and the wait neither makes [maxAttempts] attempts
    nor raises the error: it returns after one lookup. *)
Theorem C6_wait_returns_without_confirmation :
  let env := mkEnv friendly_api (λ _, DnsRecords [["stale-value"]]) in
  (∀ k, k < Netcup.maxAttempts → confirms "tok1" (dns_script env k) = false) ∧
  ∃ w', Netcup.await_propagation "_acme-challenge.foo.example.com" "tok1" env world0
        = (Return tt, w')
        ∧ length (dns_lookups (events w')) = 1.
Proof.
  split; [reflexivity|].
  eexists. split; [vm_compute; reflexivity|]. reflexivity.
Qed.

(** *** The loop of the compiled handler *)

Section PollingBuild.

Variables (dnsHost dnsAuthorization : string).

Lemma build_poll_attempt_run attempt env w :
  ∃ lines,
    NetcupBuild.poll_attempt dnsHost dnsAuthorization attempt env w =
    (Return (if confirms dnsAuthorization (dns_script env (dns_calls w))
             then Some tt else None),
     mkWorld (api_calls w) (S (dns_calls w))
       (events w ++ [ESleep NetcupBuild.retryDelayMs; EResolveTxt dnsHost])
       (logs w ++ lines)).
Proof.
  unfold NetcupBuild.poll_attempt, bind, try_catch, resolveTxt, sleep, confirms.
  cbn [dns_calls api_calls events logs].
  destruct (dns_script env (dns_calls w)) as [e|results].
  - eexists [_]. unfold log, ret. cbn [dns_calls api_calls events logs].
    by rewrite <- app_assoc.
  - destruct (Js.includes (Js.flat results) dnsAuthorization).
    + eexists [_; _]. unfold log, ret. cbn [dns_calls api_calls events logs].
      by rewrite <- !app_assoc.
    + eexists [_]. unfold log, ret. cbn [dns_calls api_calls events logs].
      by rewrite <- app_assoc.
Qed.

(** The loop leaves with success only at an answer that confirms. *)
Lemma build_for_each_confirmed indices env w w' :
  for_each indices (NetcupBuild.poll_attempt dnsHost dnsAuthorization) env w
  = (Return (Some tt), w') →
  ∃ k, k < length indices
       ∧ confirms dnsAuthorization (dns_script env (dns_calls w + k)) = true
       ∧ (∀ j, j < k → confirms dnsAuthorization (dns_script env (dns_calls w + j)) = false)
       ∧ events w' = events w ++ build_turns dnsHost (S k).
Proof.
  revert w. induction indices as [|i indices IH]; intros w; cbn [for_each].
  - unfold ret. done.
  - destruct (build_poll_attempt_run i env w) as [lines Hp].
    erewrite bind_return by exact Hp.
    destruct (confirms dnsAuthorization (dns_script env (dns_calls w))) eqn:Hc.
    + unfold ret. intros [= <-]. exists 0. rewrite Nat.add_0_r.
      split; [simpl; lia|]. split; [done|]. split; [intros; lia|].
      unfold build_turns. cbn [events replicate concat]. by rewrite app_nil_r.
    + intros (k & Hk & Hck & Hbefore & Hev)%IH. cbn [dns_calls events] in *.
      exists (S k). split; [simpl; lia|].
      replace (dns_calls w + S k) with (S (dns_calls w) + k) by lia.
      split; [done|]. split.
      * intros [|j] Hj; [by rewrite Nat.add_0_r|].
        replace (dns_calls w + S j) with (S (dns_calls w) + j) by lia.
        apply Hbefore. lia.
      * rewrite Hev. unfold build_turns. cbn [replicate concat].
        by rewrite <- !app_assoc.
Qed.

(** The loop runs to its end when no answer confirms. *)
Lemma build_for_each_exhausted indices env w :
  (∀ k, k < length indices →
        confirms dnsAuthorization (dns_script env (dns_calls w + k)) = false) →
  ∃ lines,
    for_each indices (NetcupBuild.poll_attempt dnsHost dnsAuthorization) env w =
    (Return None,
     mkWorld (api_calls w) (dns_calls w + length indices)
       (events w ++ build_turns dnsHost (length indices)) (logs w ++ lines)).
Proof.
  revert w. induction indices as [|i indices IH]; intros w Hno.
  - exists []. destruct w. unfold build_turns. simpl. unfold ret.
    by rewrite Nat.add_0_r, !app_nil_r.
  - destruct (build_poll_attempt_run i env w) as [lines Hp].
    cbn [for_each]. erewrite bind_return by exact Hp.
    assert (confirms dnsAuthorization (dns_script env (dns_calls w)) = false) as ->.
    { rewrite <- (Hno 0) by (simpl; lia). by rewrite Nat.add_0_r. }
    edestruct IH as [lines' ->].
    { intros k Hk. cbn [dns_calls].
      replace (S (dns_calls w) + k) with (dns_calls w + S k) by lia.
      apply Hno. simpl. lia. }
    exists (lines ++ lines'). cbn [api_calls dns_calls events logs length].
    unfold build_turns. cbn [replicate concat].
    f_equal. f_equal; [lia| |].
    + by rewrite <- !app_assoc.
    + by rewrite <- app_assoc.
Qed.

(** What C1 asks, on the loop of the compiled handler: the wait ends with
    success only at an attempt whose answer contains the expected value, and
    every attempt before it was followed by a further attempt. *)
Lemma build_await_success_only_confirmed env w w' :
  NetcupBuild.await_propagation dnsHost dnsAuthorization env w = (Return tt, w') →
  ∃ k, k < NetcupBuild.maxAttempts
       ∧ confirms dnsAuthorization (dns_script env (dns_calls w + k)) = true
       ∧ (∀ j, j < k → confirms dnsAuthorization (dns_script env (dns_calls w + j)) = false)
       ∧ events w' = events w ++ build_turns dnsHost (S k).
Proof.
  unfold NetcupBuild.await_propagation, bind.
  destruct (for_each _ _ env w) as [[[[]|]|e] w1] eqn:E; [|done|done].
  unfold ret. intros [= <-].
  apply build_for_each_confirmed in E as (k & Hk & H). exists k. split; [|done].
  exact Hk.
Qed.

(** What C6 asks, on the loop of the compiled handler: when no attempt
    confirms the record, the wait makes [maxAttempts] lookups and ends with
    the error that names the host and the number of attempts. *)
Lemma build_await_exhausted env w :
  (∀ k, k < NetcupBuild.maxAttempts →
        confirms dnsAuthorization (dns_script env (dns_calls w + k)) = false) →
  ∃ e w',
    NetcupBuild.await_propagation dnsHost dnsAuthorization env w = (Throw e, w')
    ∧ Interp dnsHost ∈ err_message e
    ∧ InterpNum (Z.of_nat NetcupBuild.maxAttempts) ∈ err_message e
    ∧ events w' = events w ++ build_turns dnsHost NetcupBuild.maxAttempts.
Proof.
  intros Hno. unfold NetcupBuild.await_propagation.
  destruct (build_for_each_exhausted (range_incl 1 NetcupBuild.maxAttempts) env w)
    as [lines Hloop].
  { intros k Hk. apply Hno. exact Hk. }
  erewrite bind_return by exact Hloop.
  eexists _, _. split; [reflexivity|].
  split; [|split; [|reflexivity]].
  - cbn [err_message new_Error]. repeat constructor.
  - cbn [err_message new_Error]. repeat constructor.
Qed.

End PollingBuild.

(** ** The renewal decision *)

Section ArraysMatch.

Lemma every_from_lookup (sorted2 sorted1 : list string) k :
  Js.every_from (λ val idx, match sorted2 !! idx with
                            | Some other => String.eqb val other
                            | None => false
                            end) k sorted1 = true
  ↔ ∀ j x, sorted1 !! j = Some x → sorted2 !! (k + j) = Some x.
Proof.
  revert k. induction sorted1 as [|y rest IH]; intros k; cbn [Js.every_from].
  - split; [intros _ j x; by rewrite lookup_nil|done].
  - rewrite andb_true_iff, IH. split.
    + intros [Hhd Htl] [|j] x; cbn.
      * intros [= ->]. rewrite Nat.add_0_r.
        destruct (sorted2 !! k) as [other|]; [|done].
        by apply String.eqb_eq in Hhd as ->.
      * intros Hj. replace (k + S j) with (S k + j) by lia. by apply Htl.
    + intros H. split.
      * specialize (H 0 y eq_refl). rewrite Nat.add_0_r in H. rewrite H.
        apply String.eqb_refl.
      * intros j x Hj. replace (S k + j) with (k + S j) by lia. by apply H.
Qed.

(** On two arrays of the same length, [every] compares them element by
    element. *)
Lemma every_same_length (sorted1 sorted2 : list string) :
  length sorted1 = length sorted2 →
  Js.every (λ val idx, match sorted2 !! idx with
                       | Some other => String.eqb val other
                       | None => false
                       end) sorted1 = true
  ↔ sorted1 = sorted2.
Proof.
  intros Hlen. unfold Js.every. rewrite every_from_lookup. split.
  - intros H. apply list_eq_same_length with (length sorted1); [done..|].
    intros i x y Hi Hx Hy. apply H in Hx. simpl in Hx. congruence.
  - intros -> j x. done.
Qed.

Lemma sort_permutation (arr1 : list string) : Js.sort arr1 ≡ₚ arr1.
Proof. apply merge_sort_Permutation. Qed.

(** The sorted copies are equal exactly for rearrangements. *)
Lemma sort_eq_iff (arr1 arr2 : list string) : Js.sort arr1 = Js.sort arr2 ↔ arr1 ≡ₚ arr2.
Proof.
  split.
  - intros Heq. by rewrite <- (sort_permutation arr1), Heq, sort_permutation.
  - intros Hperm. apply (Sorted_unique String.le).
    + apply Sorted_merge_sort, _.
    + apply Sorted_merge_sort, _.
    + unfold Js.sort. by rewrite !merge_sort_Permutation.
Qed.

Lemma arraysMatch_permutation (arr1 arr2 : list string) :
  Main._arraysMatch (Some arr1) (Some arr2) = true ↔ arr1 ≡ₚ arr2.
Proof.
  unfold Main._arraysMatch.
  destruct (Nat.eqb_spec (length arr1) (length arr2)) as [Hlen|Hlen]; cbn [negb].
  - rewrite every_same_length, sort_eq_iff; [done|].
    by rewrite (Permutation_length (sort_permutation arr1)),
               (Permutation_length (sort_permutation arr2)).
  - split; [done|]. intros Hperm. by apply Permutation_length in Hperm.
Qed.

(** C3, as amended: the comparison does not depend on the order of the
    elements, and it counts repetitions: it reports two lists equal exactly
    when one is a rearrangement of the other. *)
Theorem C3_arraysMatch_iff_permutation (arr1 arr2 : list string) :
  Main._arraysMatch (Some arr1) (Some arr2) = true ↔ arr1 ≡ₚ arr2.
Proof. apply arraysMatch_permutation. Qed.

(** C3 as stated fails: the two lists of the specification have the same
    distinct elements and are reported different. *)
Lemma C3_counterexample :
  (∀ x, x ∈ ["a.com"; "b.com"] ↔ x ∈ ["b.com"; "a.com"; "b.com"]) ∧
  Main._arraysMatch (Some ["a.com"; "b.com"]) (Some ["b.com"; "a.com"; "b.com"]) = false.
Proof.
  split; [|reflexivity].
  intros x. rewrite !elem_of_cons, !elem_of_nil. tauto.
Qed.

(** The same array on both sides, which the source answers by its shortcut
    on identical references. *)
Lemma arraysMatch_same (arr1 : list string) :
  Main._arraysMatch (Some arr1) (Some arr1) = true.
Proof. by apply arraysMatch_permutation. Qed.

End ArraysMatch.

Section RenewalDecision.

Variable parseCert : string → Outcome Main.Certificate.
Variable Date_parse : string → option Z.

(** The renewal window is seven days, in milliseconds. *)
Lemma renewWindow_seven_days : Main.renewWindow = (7 * 86400000)%Z.
Proof. reflexivity. Qed.

Lemma expiring_iff now crt :
  Main.expiring Date_parse now crt = true ↔ within_renew_window Date_parse now crt.
Proof.
  unfold Main.expiring, within_renew_window.
  destruct (Date_parse (Main.notAfter crt)) as [expiry|].
  - rewrite Z.ltb_lt. split.
    + intros H. exists expiry. split; [done|lia].
    + intros (? & [= <-] & H). lia.
  - split; [done|]. by intros (? & ? & _).
Qed.

Lemma check_existing_iff useStaging commonName domains existing now crt :
  parseCert (Main.cert existing) = Return crt →
  Main.check_existing parseCert Date_parse useStaging commonName domains existing now
  = Return true
  ↔ within_renew_window Date_parse now crt
    ∨ commonName ≠ Main.subject_commonName crt
    ∨ differ_as_multisets domains (Main.altNames crt)
    ∨ useStaging ≠ Main.staging existing.
Proof.
  intros Hparse. unfold Main.check_existing, differ_as_multisets. rewrite Hparse.
  rewrite <- expiring_iff, <- arraysMatch_permutation.
  destruct (Main.expiring Date_parse now crt); [naive_solver|].
  destruct (String.eqb_spec commonName (Main.subject_commonName crt)) as [Hcn|Hcn];
    cbn [negb]; [|naive_solver].
  destruct (Main._arraysMatch (Some domains) (Some (Main.altNames crt)));
    cbn [negb]; [|naive_solver].
  destruct useStaging, (Main.staging existing); cbn [Bool.eqb negb]; naive_solver.
Qed.

(** C2, as amended: the decision is to renew if and only if there is no
    existing collection, or its certificate cannot be parsed, or the expiry
    is within the renewal window of now, or the common name differs, or the
    desired domains are not a rearrangement of the alternative names of the
    certificate (repeated names count), or the staging flag differs; it is
    to keep only for a certificate that parses and passes every check. *)
Theorem C2_renewal_decision useStaging commonName domains existingCollection now :
  (Main.generateCollection_create parseCert Date_parse useStaging commonName domains
     existingCollection now = true
   ↔ renewal_conditions parseCert Date_parse differ_as_multisets useStaging
       commonName domains existingCollection now) ∧
  (Main.generateCollection_create parseCert Date_parse useStaging commonName domains
     existingCollection now = false
   ↔ ∃ existing crt,
       existingCollection = Some existing
       ∧ parseCert (Main.cert existing) = Return crt
       ∧ ¬ within_renew_window Date_parse now crt
       ∧ commonName = Main.subject_commonName crt
       ∧ domains ≡ₚ Main.altNames crt
       ∧ useStaging = Main.staging existing).
Proof.
  assert (Main.generateCollection_create parseCert Date_parse useStaging commonName
            domains existingCollection now = true
          ↔ renewal_conditions parseCert Date_parse differ_as_multisets useStaging
              commonName domains existingCollection now) as Hiff.
  { unfold Main.generateCollection_create, renewal_conditions.
    destruct existingCollection as [existing|]; [|done].
    destruct (parseCert (Main.cert existing)) as [crt|err] eqn:Hparse.
    - rewrite <- (check_existing_iff _ _ _ _ _ crt Hparse).
      destruct (Main.check_existing _ _ _ _ _ _ _) as [[]|] eqn:E; [done| |].
      + split; [done|]. by intros [=].
      + unfold Main.check_existing in E. by rewrite Hparse in E.
    - unfold Main.check_existing. by rewrite Hparse. }
  split; [exact Hiff|].
  rewrite <- not_true_iff_false, Hiff. unfold renewal_conditions, differ_as_multisets.
  destruct existingCollection as [existing|].
  2: { split; [tauto|]. by intros (? & ? & [=] & _). }
  destruct (parseCert (Main.cert existing)) as [crt|err] eqn:Hparse.
  2: { split; [tauto|]. intros (ex & crt' & [= <-] & Hp & _). congruence. }
  split.
  - intros Hno. exists existing, crt. split; [done|]. split; [done|].
    split; [tauto|].
    split; [destruct (decide (commonName = Main.subject_commonName crt)); tauto|].
    split.
    + apply arraysMatch_permutation.
      destruct (Main._arraysMatch (Some domains) (Some (Main.altNames crt))) eqn:E;
        [done|].
      exfalso. apply Hno. right. right. left.
      rewrite <- arraysMatch_permutation. congruence.
    + destruct (decide (useStaging = Main.staging existing)); tauto.
  - intros (ex & crt' & [= <-] & Hp & Hw & Hcn & Hperm & Hst).
    rewrite Hparse in Hp. injection Hp as <-. tauto.
Qed.

End RenewalDecision.

(** C2 as stated fails: the configuration names ["b.com"] twice among the
    alternative names, the certificate lists it once; the two sets of
    domains are equal and no other condition of renewal holds, and the
    decision is to renew. *)
Lemma C2_counterexample :
  let crt := Main.mkCertificate "Jan  1 00:00:00 2027 GMT" "a.com" ["a.com"; "b.com"] in
  let parseCert := λ _ : string, Return crt in
  let Date_parse := λ _ : string, Some 1798761600000%Z in
  let existing := Some (Main.mkCollection "-----BEGIN CERTIFICATE-----" false) in
  let now := 1793577600000%Z in
  Main.generateCollection_create parseCert Date_parse false "a.com"
    ["a.com"; "b.com"; "b.com"] existing now = true
  ∧ ¬ renewal_conditions parseCert Date_parse differ_as_sets false "a.com"
        ["a.com"; "b.com"; "b.com"] existing now.
Proof.
  split; [reflexivity|].
  unfold renewal_conditions, within_renew_window, differ_as_sets. simpl.
  intros [(expiry & [= <-] & H)|[H|[H|H]]]; [by vm_compute in H|done| |done].
  apply H. intros x. rewrite !elem_of_cons, !elem_of_nil. tauto.
Qed.

(** ** Sessions *)

Lemma api_requests_app es1 es2 :
  api_requests (es1 ++ es2) = api_requests es1 ++ api_requests es2.
Proof.
  induction es1 as [|[r|host|ms] es1 IH]; simpl; [done| |done|done].
  by rewrite IH.
Qed.

Section Sends.

Context {A B : Type} (P : Request → Prop).

Lemma sends_ret (a : A) : sends P (ret a).
Proof. intros env w. exists []. by rewrite app_nil_r. Qed.

Lemma sends_throw e : sends P (@throw A e).
Proof. intros env w. exists []. by rewrite app_nil_r. Qed.

Lemma sends_bind (m : M A) (k : A → M B) :
  sends P m → (∀ a, sends P (k a)) → sends P (bind m k).
Proof.
  intros Hm Hk env w. unfold bind.
  destruct (Hm env w) as (reqs1 & Hev1 & HP1).
  destruct (m env w) as [[a|e] w1]; cbn [snd] in Hev1.
  - destruct (Hk a env w1) as (reqs2 & Hev2 & HP2).
    exists (reqs1 ++ reqs2). split; [|by apply Forall_app].
    by rewrite Hev2, Hev1, map_app, app_assoc.
  - by exists reqs1.
Qed.

End Sends.

Lemma sends_log P level message : sends P (log level message).
Proof. intros env w. exists []. by rewrite app_nil_r. Qed.

Lemma sends_apiCall (P : Request → Prop) action param throwOnError :
  P (mkRequest action param) → sends P (Netcup.apiCall action param throwOnError).
Proof.
  intros HP env w. rewrite apiCall_run. exists [mkRequest action param].
  split; [done|]. by apply Forall_singleton.
Qed.

Lemma sends_for_each {A} P indices (body : nat → M (option A)) :
  (∀ i, sends P (body i)) → sends P (for_each indices body).
Proof.
  intros Hbody. induction indices as [|i indices IH]; cbn [for_each].
  - apply sends_ret.
  - apply sends_bind; [done|]. intros [a|]; [apply sends_ret|done].
Qed.

Lemma sends_findZone fullDomain cn key sid :
  sends zone_or_record (Netcup.findZone fullDomain cn key sid).
Proof.
  unfold Netcup.findZone. apply sends_bind.
  - apply sends_for_each. intros i. unfold Netcup.probe. apply sends_bind.
    + apply sends_apiCall. unfold zone_or_record. cbn [action]. by left.
    + intros result. destruct (Netcup.zone_accepted result); [|apply sends_ret].
      apply sends_bind; [apply sends_log|]. intros _. apply sends_ret.
  - intros [zone|]; [apply sends_ret|].
    apply sends_bind; [apply sends_log|]. intros _. apply sends_ret.
Qed.

Lemma sends_write_record h data sid :
  sends zone_or_record (Netcup.write_record h data sid).
Proof.
  unfold Netcup.write_record.
  apply sends_bind; [apply sends_findZone|]. intros zone.
  apply sends_bind; [apply sends_log|]. intros _.
  apply sends_bind; [|intros; apply sends_log].
  apply sends_apiCall. unfold zone_or_record. cbn [action]. by right; right; left.
Qed.

Lemma sends_filter_records P p records :
  (∀ r, sends P (p r)) → sends P (Netcup.filter_records p records).
Proof.
  intros Hp. induction records as [|r records IH]; cbn [Netcup.filter_records].
  - apply sends_ret.
  - apply sends_bind; [done|]. intros keep.
    apply sends_bind; [done|]. intros kept. apply sends_ret.
Qed.

Lemma sends_delete_records h data sid :
  sends zone_or_record (Netcup.delete_records h data sid).
Proof.
  unfold Netcup.delete_records.
  apply sends_bind; [apply sends_findZone|]. intros zone.
  apply sends_bind.
  { apply sends_apiCall. unfold zone_or_record. cbn [action]. by right; left. }
  intros recordsData. apply sends_bind.
  { unfold Netcup.records_of.
    generalize (if Json.nullish recordsData then Json.Undefined
                else default Json.Undefined (Json.prop recordsData "dnsrecords")).
    intros dnsrecords. destruct (Json.nullish dnsrecords); [apply sends_ret|].
    destruct dnsrecords; first [apply sends_ret|apply sends_throw]. }
  intros records. apply sends_bind.
  { apply sends_filter_records. intros r. unfold Netcup.is_challenge_record.
    destruct (Json.prop r "type"); [apply sends_ret|apply sends_throw]. }
  intros matching. destruct (_ =? _)%nat; [apply sends_ret|].
  apply sends_bind; [|intros; apply sends_ret].
  apply sends_apiCall. unfold zone_or_record. cbn [action]. by right; right; left.
Qed.

Section Quiet.

Context {A B : Type}.

Lemma quiet_ret (a : A) : quiet (ret a).
Proof. intros env w. exists []. by rewrite app_nil_r. Qed.

Lemma quiet_throw e : quiet (@throw A e).
Proof. intros env w. exists []. by rewrite app_nil_r. Qed.

Lemma quiet_bind (m : M A) (k : A → M B) :
  quiet m → (∀ a, quiet (k a)) → quiet (bind m k).
Proof.
  intros Hm Hk env w. unfold bind.
  destruct (Hm env w) as (post1 & Hev1 & Hq1 & Hc1).
  destruct (m env w) as [[a|e] w1]; cbn [snd] in Hev1, Hc1.
  - destruct (Hk a env w1) as (post2 & Hev2 & Hq2 & Hc2).
    exists (post1 ++ post2). split; [by rewrite Hev2, Hev1, app_assoc|].
    split; [by rewrite api_requests_app, Hq1, Hq2|congruence].
  - by exists post1.
Qed.

Lemma quiet_try_catch (body : M A) (handler : JsError → M A) :
  quiet body → (∀ e, quiet (handler e)) → quiet (try_catch body handler).
Proof.
  intros Hm Hk env w. unfold try_catch.
  destruct (Hm env w) as (post1 & Hev1 & Hq1 & Hc1).
  destruct (body env w) as [[a|e] w1]; cbn [snd] in Hev1, Hc1.
  - by exists post1.
  - destruct (Hk e env w1) as (post2 & Hev2 & Hq2 & Hc2).
    exists (post1 ++ post2). split; [by rewrite Hev2, Hev1, app_assoc|].
    split; [by rewrite api_requests_app, Hq1, Hq2|congruence].
Qed.

End Quiet.

Lemma quiet_log level message : quiet (log level message).
Proof. intros env w. exists []. by rewrite app_nil_r. Qed.

Lemma quiet_sleep ms : quiet (sleep ms).
Proof. intros env w. by exists [ESleep ms]. Qed.

Lemma quiet_resolveTxt host : quiet (resolveTxt host).
Proof.
  intros env w. exists [EResolveTxt host]. unfold resolveTxt.
  by destruct (dns_script env (dns_calls w)).
Qed.

Lemma quiet_for_each {A} indices (body : nat → M (option A)) :
  (∀ i, quiet (body i)) → quiet (for_each indices body).
Proof.
  intros Hbody. induction indices as [|i indices IH]; cbn [for_each].
  - apply quiet_ret.
  - apply quiet_bind; [done|]. intros [a|]; [apply quiet_ret|done].
Qed.

Lemma quiet_await_propagation dnsHost dnsAuthorization :
  quiet (Netcup.await_propagation dnsHost dnsAuthorization).
Proof.
  unfold Netcup.await_propagation.
  apply quiet_bind; [apply quiet_log|]. intros _. apply quiet_bind.
  - apply quiet_for_each. intros attempt. unfold Netcup.poll_attempt.
    apply quiet_bind.
    + apply quiet_try_catch.
      * apply quiet_bind; [apply quiet_resolveTxt|]. intros results.
        apply quiet_bind; [apply quiet_log|]. intros _. apply quiet_ret.
      * intros err. apply quiet_bind; [apply quiet_log|]. intros _. apply quiet_ret.
    + intros [r|]; [apply quiet_ret|].
      apply quiet_bind; [apply quiet_sleep|]. intros _. apply quiet_ret.
  - intros [r|]; [apply quiet_ret|apply quiet_throw].
Qed.

Lemma quiet_get h data : quiet (Netcup.get h data).
Proof.
  unfold Netcup.get. apply quiet_bind; [apply quiet_log|]. intros _.
  apply quiet_try_catch.
  - apply quiet_bind; [apply quiet_resolveTxt|]. intros results.
    apply quiet_bind; [apply quiet_log|]. intros _. apply quiet_ret.
  - intros err. apply quiet_bind; [apply quiet_log|]. intros _. apply quiet_ret.
Qed.

(** [login] sends its request and makes of the answer what [login_outcome]
    says. *)
Lemma login_run o env w :
  Netcup.login (Netcup.customerNumber o) (Netcup.apiKey o) (Netcup.apiPassword o) env w
  = (login_outcome (api_script env (api_calls w)), sent (login_request o) w).
Proof.
  unfold Netcup.login, bind. rewrite apiCall_run. unfold login_outcome.
  destruct (Netcup.apiResult _ _) as [data|e]; [|done].
  by destruct (Json.prop data "apisessionid").
Qed.

(** [logout] sends its request and returns, whatever the answer. *)
Lemma logout_run o sid env w :
  Netcup.logout (Netcup.customerNumber o) (Netcup.apiKey o) sid env w
  = (Return tt, sent (logout_request o sid) w).
Proof.
  unfold Netcup.logout, try_catch, bind. rewrite apiCall_run.
  by destruct (Netcup.apiResult _ _).
Qed.

(** The bracket of [set] and [remove]: the outcome is that of the protected
    block, and the logout request follows the block however it ends. *)
Lemma try_finally_logout {A} (body : M A) o sid env w :
  try_finally body
    (Netcup.logout (Netcup.customerNumber o) (Netcup.apiKey o) sid) env w
  = ((body env w).1, sent (logout_request o sid) (body env w).2).
Proof.
  unfold try_finally. destruct (body env w) as [r w']. by rewrite logout_run.
Qed.

Lemma set_run h data env w :
  ∃ line,
    Netcup.set h data env w =
    let w0 := mkWorld (api_calls w) (dns_calls w) (events w) (logs w ++ [line]) in
    let w1 := sent (login_request (Netcup.captured h)) w0 in
    match login_outcome (api_script env (api_calls w)) with
    | Throw e =>
        (let* _ := log Err ([Lit Netcup.tag; Lit "set: login failed: "]
                            ++ err_toString e) in throw e) env w1
    | Return sid =>
        let block := Netcup.write_record h data sid env w1 in
        let w3 := sent (logout_request (Netcup.captured h) sid) block.2 in
        match block.1 with
        | Throw e => (Throw e, w3)
        | Return _ =>
            Netcup.await_propagation (Netcup.dnsHost data)
              (Netcup.dnsAuthorization data) env w3
        end
    end.
Proof.
  eexists. unfold Netcup.set.
  unfold bind at 1. unfold log at 1. cbv beta iota.
  unfold bind at 1. unfold try_catch at 1. rewrite login_run. cbn [api_calls].
  destruct (login_outcome _) as [sid|e]; [|reflexivity].
  unfold bind at 1. rewrite try_finally_logout. cbv zeta.
  by destruct (Netcup.write_record _ _ _ _ _).1.
Qed.

Lemma remove_run h data env w :
  ∃ line,
    Netcup.remove h data env w =
    let w0 := mkWorld (api_calls w) (dns_calls w) (events w) (logs w ++ [line]) in
    let w1 := sent (login_request (Netcup.captured h)) w0 in
    match login_outcome (api_script env (api_calls w)) with
    | Throw e => (Throw e, w1)
    | Return sid =>
        let block := Netcup.delete_records h data sid env w1 in
        (block.1, sent (logout_request (Netcup.captured h) sid) block.2)
    end.
Proof.
  eexists. unfold Netcup.remove.
  unfold bind at 1. unfold log at 1. cbv beta iota.
  unfold bind at 1. rewrite login_run. cbn [api_calls].
  destruct (login_outcome _) as [sid|e]; [|reflexivity].
  by rewrite try_finally_logout.
Qed.

(** C8: in [set] and [remove] a failed login is thrown to the caller after
    the login request alone; after a successful login the requests of the
    operation on the zone and its records are followed by the logout request
    on every path, and no request follows it; [logout] itself returns
    whatever the remote answers; [get] opens no session. *)
Theorem C8_login_logout_bracket h data env w :
  let o := Netcup.captured h in
  let bracketed (op : Netcup.Handler → Netcup.ChallengeData → M unit) :=
    match (Netcup.login (Netcup.customerNumber o) (Netcup.apiKey o)
             (Netcup.apiPassword o) env w).1 with
    | Throw e =>
        (op h data env w).1 = Throw e
        ∧ api_requests (events (op h data env w).2)
          = api_requests (events w) ++ [login_request o]
    | Return sid =>
        ∃ mid post,
          events (op h data env w).2
          = events w ++ [EFetch (login_request o)] ++ map EFetch mid
            ++ [EFetch (logout_request o sid)] ++ post
          ∧ Forall zone_or_record mid
          ∧ api_requests post = []
    end in
  (∀ sid env' w',
     Netcup.logout (Netcup.customerNumber o) (Netcup.apiKey o) sid env' w'
     = (Return tt, sent (logout_request o sid) w')) ∧
  bracketed Netcup.set ∧
  bracketed Netcup.remove ∧
  api_requests (events (Netcup.get h data env w).2) = api_requests (events w).
Proof.
  intros o bracketed. split; [intros; apply logout_run|].
  unfold bracketed. rewrite login_run. cbn [fst]. split; [|split].
  - destruct (set_run h data env w) as [line ->]. cbv zeta. fold o.
    destruct (login_outcome _) as [sid|e].
    + destruct (sends_write_record h data sid env
                  (sent (login_request o)
                     (mkWorld (api_calls w) (dns_calls w) (events w) (logs w ++ [line]))))
        as (mid & Hmid & Hzone).
      destruct (Netcup.write_record h data sid env _) as [[[]|e] w2];
        cbn [fst snd] in *.
      * destruct (quiet_await_propagation (Netcup.dnsHost data)
                    (Netcup.dnsAuthorization data) env (sent (logout_request o sid) w2))
          as (post & Hpost & Hquiet & _).
        exists mid, post. split; [|done].
        rewrite Hpost. cbn [sent events]. rewrite Hmid. cbn [sent events].
        by rewrite <- !app_assoc.
      * exists mid, []. split; [|done].
        cbn [sent events]. rewrite Hmid. cbn [sent events].
        by rewrite <- !app_assoc.
    + unfold bind, log, throw. cbn [fst snd sent events].
      split; [done|]. by rewrite api_requests_app.
  - destruct (remove_run h data env w) as [line ->]. cbv zeta. fold o.
    destruct (login_outcome _) as [sid|e].
    + destruct (sends_delete_records h data sid env
                  (sent (login_request o)
                     (mkWorld (api_calls w) (dns_calls w) (events w) (logs w ++ [line]))))
        as (mid & Hmid & Hzone).
      exists mid, []. split; [|done].
      cbn [fst snd sent events] in *. rewrite Hmid.
      by rewrite <- !app_assoc.
    + cbn [fst snd sent events]. split; [done|]. by rewrite api_requests_app.
  - destruct (quiet_get h data env w) as (post & -> & Hquiet & _).
    by rewrite api_requests_app, Hquiet, app_nil_r.
Qed.

(** ** What is written to the log *)

Section SameLogs.

Context {A1 A2 B1 B2 : Type}.

Lemma same_logs_bind (R : A1 → A2 → Prop) (R' : B1 → B2 → Prop)
    (m1 : M A1) (m2 : M A2) (k1 : A1 → M B1) (k2 : A2 → M B2) :
  same_logs R m1 m2 →
  (∀ a1 a2, R a1 a2 → same_logs R' (k1 a1) (k2 a2)) →
  same_logs R' (bind m1 k1) (bind m2 k2).
Proof.
  intros Hm Hk env w1 w2 Hw. unfold bind.
  destruct (Hm env w1 w2 Hw) as [Ho Hv].
  destruct (m1 env w1) as [[a1|e1] w1'], (m2 env w2) as [[a2|e2] w2'];
    cbn [fst snd outcomes_agree] in *; try done.
  by apply Hk.
Qed.

Lemma same_logs_try_catch (R : A1 → A2 → Prop)
    (m1 : M A1) (m2 : M A2) (h1 : JsError → M A1) (h2 : JsError → M A2) :
  same_logs R m1 m2 →
  (∀ e, same_logs R (h1 e) (h2 e)) →
  same_logs R (try_catch m1 h1) (try_catch m2 h2).
Proof.
  intros Hm Hh env w1 w2 Hw. unfold try_catch.
  destruct (Hm env w1 w2 Hw) as [Ho Hv].
  destruct (m1 env w1) as [[a1|e1] w1'], (m2 env w2) as [[a2|e2] w2'];
    cbn [fst snd outcomes_agree] in *; try done.
  subst e2. by apply Hh.
Qed.

Lemma same_logs_try_finally (R : A1 → A2 → Prop)
    (m1 : M A1) (m2 : M A2) (c1 c2 : M unit) :
  same_logs R m1 m2 →
  same_logs eq c1 c2 →
  same_logs R (try_finally m1 c1) (try_finally m2 c2).
Proof.
  intros Hm Hc env w1 w2 Hw. unfold try_finally.
  destruct (Hm env w1 w2 Hw) as [Ho Hv].
  destruct (m1 env w1) as [r1 w1'], (m2 env w2) as [r2 w2']; cbn [fst snd] in *.
  destruct (Hc env w1' w2' Hv) as [Ho' Hv'].
  destruct (c1 env w1') as [[[]|e1] w1''], (c2 env w2') as [[[]|e2] w2''];
    cbn [fst snd outcomes_agree] in *; done.
Qed.

Lemma same_logs_ret (R : A1 → A2 → Prop) a1 a2 : R a1 a2 → same_logs R (ret a1) (ret a2).
Proof. intros HR env w1 w2 Hw. done. Qed.

Lemma same_logs_throw (R : A1 → A2 → Prop) e : same_logs R (throw e) (throw e).
Proof. intros env w1 w2 Hw. done. Qed.

End SameLogs.

Lemma same_logs_log level message : same_logs eq (log level message) (log level message).
Proof.
  intros env w1 w2 Hw. unfold log_view in *. cbn [log fst snd outcomes_agree] in *.
  split; [done|]. injection Hw as -> -> ->. done.
Qed.

Lemma same_logs_sleep ms : same_logs eq (sleep ms) (sleep ms).
Proof. intros env w1 w2 Hw. done. Qed.

Lemma same_logs_resolveTxt host : same_logs eq (resolveTxt host) (resolveTxt host).
Proof.
  intros env w1 w2 Hw. unfold log_view in *. injection Hw as Ha Hd Hl.
  unfold resolveTxt. rewrite Hd.
  destruct (dns_script env (dns_calls w2));
    cbn [fst snd outcomes_agree api_calls dns_calls logs]; by rewrite ?Ha, ?Hd, ?Hl.
Qed.

(** The answer to a request does not depend on what is asked: it is the
    next answer of the script. *)
Lemma same_logs_apiCall action1 param1 action2 param2 throwOnError :
  same_logs eq (Netcup.apiCall action1 param1 throwOnError)
               (Netcup.apiCall action2 param2 throwOnError).
Proof.
  intros env w1 w2 Hw. unfold log_view in *. injection Hw as Ha Hd Hl.
  rewrite !apiCall_run, Ha. cbn [fst snd api_calls dns_calls logs].
  split; [|by rewrite Hd, Hl].
  by destruct (Netcup.apiResult _ _).
Qed.

Lemma same_logs_for_each {A} indices (body1 body2 : nat → M (option A)) :
  (∀ i, same_logs eq (body1 i) (body2 i)) →
  same_logs eq (for_each indices body1) (for_each indices body2).
Proof.
  intros Hbody. induction indices as [|i indices IH]; cbn [for_each].
  - by apply same_logs_ret.
  - eapply same_logs_bind; [apply Hbody|]. intros r ? <-.
    destruct r; [by apply same_logs_ret|done].
Qed.

Lemma same_logs_refl_ret {A} (a : A) : same_logs eq (ret a) (ret a).
Proof. by apply same_logs_ret. Qed.

(** The tactic that walks through two computations of the same shape. *)
Ltac same_logs_leaf :=
  first
    [ apply same_logs_log
    | apply same_logs_sleep
    | apply same_logs_resolveTxt
    | apply same_logs_apiCall
    | apply same_logs_refl_ret
    | apply same_logs_throw ].

Ltac same_logs_step :=
  first
    [ same_logs_leaf
    | eapply same_logs_bind; [same_logs_leaf|intros ? ? <-]
    | apply same_logs_try_catch; [|intros ?]
    | apply same_logs_try_finally ].

Section HandlerLogs.

Variables o1 o2 : Netcup.NetcupOptions.
Hypothesis Haccount : same_account o1 o2.

Lemma same_logs_login :
  same_logs eq
    (Netcup.login (Netcup.customerNumber o1) (Netcup.apiKey o1) (Netcup.apiPassword o1))
    (Netcup.login (Netcup.customerNumber o2) (Netcup.apiKey o2) (Netcup.apiPassword o2)).
Proof.
  unfold Netcup.login. eapply same_logs_bind; [apply same_logs_apiCall|].
  intros data ? <-. destruct (Json.prop data "apisessionid"); same_logs_step.
Qed.

Lemma same_logs_logout sid :
  same_logs eq
    (Netcup.logout (Netcup.customerNumber o1) (Netcup.apiKey o1) sid)
    (Netcup.logout (Netcup.customerNumber o2) (Netcup.apiKey o2) sid).
Proof. unfold Netcup.logout. repeat same_logs_step. Qed.

Lemma same_logs_findZone fullDomain sid :
  same_logs eq
    (Netcup.findZone fullDomain (Netcup.customerNumber o1) (Netcup.apiKey o1) sid)
    (Netcup.findZone fullDomain (Netcup.customerNumber o2) (Netcup.apiKey o2) sid).
Proof.
  unfold Netcup.findZone. eapply same_logs_bind.
  - apply same_logs_for_each. intros i. unfold Netcup.probe.
    eapply same_logs_bind; [apply same_logs_apiCall|]. intros result ? <-.
    destruct (Netcup.zone_accepted result); repeat same_logs_step.
  - intros found ? <-. destruct found; repeat same_logs_step.
Qed.

Lemma same_logs_set data :
  same_logs eq (Netcup.set (Netcup.mkHandler o1) data)
               (Netcup.set (Netcup.mkHandler o2) data).
Proof.
  unfold Netcup.set. cbn [Netcup.captured].
  eapply same_logs_bind; [apply same_logs_log|]. intros _ _ _.
  eapply same_logs_bind.
  { apply same_logs_try_catch; [apply same_logs_login|].
    intros e. repeat same_logs_step. }
  intros sid ? <-. eapply same_logs_bind.
  { apply same_logs_try_finally; [|apply same_logs_logout].
    unfold Netcup.write_record. cbn [Netcup.captured].
    eapply same_logs_bind; [apply same_logs_findZone|]. intros zone ? <-.
    repeat same_logs_step. }
  intros _ _ _. unfold Netcup.await_propagation.
  eapply same_logs_bind; [apply same_logs_log|]. intros _ _ _.
  eapply same_logs_bind.
  - apply same_logs_for_each. intros attempt. unfold Netcup.poll_attempt.
    eapply same_logs_bind; [repeat same_logs_step|].
    intros confirmed ? <-. destruct confirmed; repeat same_logs_step.
  - intros done' ? <-. destruct done'; repeat same_logs_step.
Qed.

Lemma same_logs_get data :
  same_logs eq (Netcup.get (Netcup.mkHandler o1) data)
               (Netcup.get (Netcup.mkHandler o2) data).
Proof. unfold Netcup.get. repeat same_logs_step. Qed.

Lemma same_logs_filter_records p records :
  (∀ r, same_logs eq (p r) (p r)) →
  same_logs eq (Netcup.filter_records p records) (Netcup.filter_records p records).
Proof.
  intros Hp. induction records as [|r records IH]; cbn [Netcup.filter_records].
  - same_logs_step.
  - eapply same_logs_bind; [apply Hp|]. intros keep ? <-.
    eapply same_logs_bind; [apply IH|]. intros kept ? <-. same_logs_step.
Qed.

Lemma same_logs_remove data :
  same_logs eq (Netcup.remove (Netcup.mkHandler o1) data)
               (Netcup.remove (Netcup.mkHandler o2) data).
Proof.
  unfold Netcup.remove. cbn [Netcup.captured].
  eapply same_logs_bind; [apply same_logs_log|]. intros _ _ _.
  eapply same_logs_bind; [apply same_logs_login|]. intros sid ? <-.
  apply same_logs_try_finally; [|apply same_logs_logout].
  unfold Netcup.delete_records. cbn [Netcup.captured].
  eapply same_logs_bind; [apply same_logs_findZone|]. intros zone ? <-.
  eapply same_logs_bind; [apply same_logs_apiCall|]. intros recordsData ? <-.
  eapply same_logs_bind.
  { unfold Netcup.records_of.
    generalize (if Json.nullish recordsData then Json.Undefined
                else default Json.Undefined (Json.prop recordsData "dnsrecords")).
    intros dnsrecords. destruct (Json.nullish dnsrecords); [same_logs_step|].
    destruct dnsrecords; same_logs_step. }
  intros records ? <-. eapply same_logs_bind.
  { apply same_logs_filter_records. intros r. unfold Netcup.is_challenge_record.
    destruct (Json.prop r "type"); same_logs_step. }
  intros matching ? <-. destruct (_ =? _)%nat; repeat same_logs_step.
Qed.

(** [create] writes the customer number, and neither the key nor the
    password. *)
Lemma same_logs_create :
  same_logs (λ h1 h2, same_account (Netcup.captured h1) (Netcup.captured h2))
    (Netcup.create o1) (Netcup.create o2).
Proof.
  pose proof Haccount as (Hcn & Hkey & Hpw).
  unfold Netcup.create. rewrite Hcn, Hkey, Hpw.
  destruct (_ || _ || _); [apply same_logs_throw|].
  eapply same_logs_bind; [apply same_logs_log|]. intros _ _ _.
  by apply same_logs_ret.
Qed.

End HandlerLogs.

(** *** The masking of configuration objects *)

Lemma lookup_app_fresh key (seen rest : list (string * Json.value)) :
  key ∉ seen.*1 → Json.lookup key (seen ++ rest) = Json.lookup key rest.
Proof.
  induction seen as [|[k v] seen IH]; [done|].
  cbn [fmap list_fmap fst app Json.lookup]. intros Hfresh.
  apply not_elem_of_cons in Hfresh as [Hne Hfresh].
  destruct (String.eqb_spec k key); [congruence|]. by apply IH.
Qed.

Lemma assign_app_fresh key v (seen rest : list (string * Json.value)) :
  key ∉ seen.*1 → Json.assign key v (seen ++ rest) = seen ++ Json.assign key v rest.
Proof.
  induction seen as [|[k old] seen IH]; [done|].
  cbn [fmap list_fmap fst app Json.assign]. intros Hfresh.
  apply not_elem_of_cons in Hfresh as [Hne Hfresh].
  destruct (String.eqb_spec k key); [congruence|]. by rewrite IH.
Qed.

Lemma mask_key_head key v (seen rest : list (string * Json.value)) :
  key ∉ seen.*1 →
  Main.mask_key (seen ++ (key, v) :: rest) key = seen ++ mask_entry (key, v) :: rest.
Proof.
  intros Hfresh. unfold Main.mask_key, mask_entry.
  rewrite lookup_app_fresh by done. cbn [Json.lookup fst snd].
  rewrite String.eqb_refl. change (default Json.Undefined (Some v)) with v.
  destruct (Main.sensitive_key key && Main.nonempty_string v); [|done].
  rewrite assign_app_fresh by done. cbn [Json.assign].
  by rewrite String.eqb_refl.
Qed.

Lemma mask_loop (seen todo : list (string * Json.value)) :
  NoDup (seen.*1 ++ todo.*1) →
  fold_left Main.mask_key todo.*1 (seen ++ todo) = seen ++ map mask_entry todo.
Proof.
  revert seen. induction todo as [|[key v] todo IH]; intros seen Hnodup; [done|].
  cbn [fmap list_fmap fst fold_left map].
  apply NoDup_app in Hnodup as (Hseen & Hdisjoint & Htodo).
  assert (key ∉ seen.*1) as Hfresh.
  { intros Hin. apply (Hdisjoint key Hin). cbn. by left. }
  rewrite mask_key_head by done.
  replace (seen ++ mask_entry (key, v) :: todo)
    with ((seen ++ [mask_entry (key, v)]) ++ todo) by by rewrite <- app_assoc.
  rewrite IH; [by rewrite <- app_assoc|].
  assert ((mask_entry (key, v)).1 = key) as Hkey.
  { unfold mask_entry. by destruct (_ && _). }
  rewrite fmap_app. cbn [fmap list_fmap]. rewrite Hkey, <- app_assoc.
  apply NoDup_app. split; [done|]. split; [|done].
  intros k Hk. by apply Hdisjoint.
Qed.

(** On an object, whose keys are distinct, the masking loop replaces the
    non-empty string values at the sensitive keys and nothing else. *)
Lemma mask_map obj : NoDup obj.*1 → Main.mask obj = map mask_entry obj.
Proof. intros Hnodup. apply (mask_loop [] obj). done. Qed.

(** Objects that differ in the values of sensitive keys only are masked to
    the same object. *)
Lemma mask_secrets secrets obj1 obj2 :
  Forall (λ key, Main.sensitive_key key = true) secrets →
  NoDup obj1.*1 →
  differ_in_secrets secrets obj1 obj2 →
  Main.mask obj1 = Main.mask obj2.
Proof.
  intros Hsens Hnodup Hdiff.
  assert (obj1.*1 = obj2.*1) as Hkeys.
  { clear Hnodup.
    induction Hdiff as [|[k1 v1] [k2 v2] ? ? [Hk _] _ IH]; [done|].
    cbn in *. by rewrite Hk, IH. }
  rewrite !mask_map by (by rewrite <- ?Hkeys).
  clear Hnodup Hkeys.
  induction Hdiff as [|[k1 v1] [k2 v2] rest1 rest2 [Hk Hv] _ IH]; [done|].
  cbn [map]. rewrite IH. f_equal. cbn in Hk, Hv. subst k2.
  destruct Hv as [->|(Hin & Hv1 & Hv2)]; [done|].
  unfold mask_entry. cbn [fst snd].
  rewrite Forall_forall in Hsens. by rewrite (Hsens k1 Hin), Hv1, Hv2.
Qed.

(** *** The options of the DNS-01 module *)

Lemma assign_differ secrets key v1 v2 acc1 acc2 :
  differ_in_secrets secrets acc1 acc2 →
  v1 = v2 ∨ (key ∈ secrets ∧ Main.nonempty_string v1 = true
             ∧ Main.nonempty_string v2 = true) →
  differ_in_secrets secrets (Json.assign key v1 acc1) (Json.assign key v2 acc2).
Proof.
  intros Hacc Hv.
  induction Hacc as [|[k1 old1] [k2 old2] rest1 rest2 [Hk Hold] Hrest IH].
  - by apply Forall2_cons.
  - cbn in Hk. subst k2. cbn [Json.assign].
    destruct (String.eqb_spec k1 key) as [->|Hne].
    + by apply Forall2_cons.
    + by apply Forall2_cons.
Qed.

Lemma assign_keys key v (acc : list (string * Json.value)) :
  (Json.assign key v acc).*1 = if decide (key ∈ acc.*1) then acc.*1 else acc.*1 ++ [key].
Proof.
  induction acc as [|[k old] acc IH]; [done|].
  cbn [Json.assign fmap list_fmap fst].
  destruct (String.eqb_spec k key) as [->|Hne].
  - rewrite decide_True by by left. done.
  - cbn [fmap list_fmap fst]. change (list_fmap _ _ fst) with (fmap (M:=list) (@fst string Json.value)).
    rewrite IH. destruct (decide (key ∈ acc.*1)) as [Hin|Hnotin].
    + rewrite decide_True by by right. done.
    + rewrite decide_False; [done|]. intros [?|?]%elem_of_cons; congruence.
Qed.

Lemma assign_NoDup key v (acc : list (string * Json.value)) :
  NoDup acc.*1 → NoDup (Json.assign key v acc).*1.
Proof.
  intros Hnodup. rewrite assign_keys. destruct (decide (key ∈ acc.*1)); [done|].
  apply NoDup_app. split; [done|]. split; [|apply NoDup_singleton].
  intros k Hk ->%list_elem_of_singleton. done.
Qed.

Lemma collect_options_NoDup config acc :
  NoDup acc.*1 → NoDup (fold_left Main.collect_option config acc).*1.
Proof.
  revert acc. induction config as [|[key value] config IH]; intros acc Hacc; [done|].
  cbn [fold_left]. apply IH. unfold Main.collect_option.
  destruct (Js.startsWith key "dns01O"); [by apply assign_NoDup|done].
Qed.

Lemma collect_options_differ config1 config2 acc1 acc2 :
  differ_in_secrets ["dns01OapiKey"; "dns01OapiPassword"] config1 config2 →
  differ_in_secrets ["apiKey"; "apiPassword"] acc1 acc2 →
  differ_in_secrets ["apiKey"; "apiPassword"]
    (fold_left Main.collect_option config1 acc1)
    (fold_left Main.collect_option config2 acc2).
Proof.
  intros Hconfig. revert acc1 acc2.
  induction Hconfig as [|[k1 v1] [k2 v2] rest1 rest2 [Hk Hv] _ IH];
    intros acc1 acc2 Hacc; [done|].
  cbn [fold_left]. apply IH. cbn in Hk, Hv. subst k2. unfold Main.collect_option.
  destruct (Js.startsWith k1 "dns01O"); [|done].
  apply assign_differ; [done|].
  destruct Hv as [->|(Hin & Hv1 & Hv2)]; [by left|]. right. split; [|done].
  apply elem_of_cons in Hin as [->|Hin]; [by left|].
  apply list_elem_of_singleton in Hin as ->. by right; left.
Qed.

Lemma lookup_differ secrets key obj1 obj2 :
  differ_in_secrets secrets obj1 obj2 →
  match Json.lookup key obj1, Json.lookup key obj2 with
  | Some v1, Some v2 =>
      v1 = v2 ∨ (key ∈ secrets ∧ Main.nonempty_string v1 = true
                 ∧ Main.nonempty_string v2 = true)
  | None, None => True
  | _, _ => False
  end.
Proof.
  intros Hdiff.
  induction Hdiff as [|[k1 v1] [k2 v2] rest1 rest2 [Hk Hv] _ IH]; [done|].
  cbn in Hk, Hv. subst k2. cbn [Json.lookup].
  by destruct (String.eqb_spec k1 key) as [->|Hne].
Qed.

(** A field of the options outside the secrets is the same on both sides,
    and a secret is present on both sides or on neither. *)
Lemma field_differ secrets key obj1 obj2 :
  differ_in_secrets secrets obj1 obj2 →
  (key ∉ secrets → Main.field key obj1 = Main.field key obj2) ∧
  Netcup.missing (Main.field key obj1) = Netcup.missing (Main.field key obj2).
Proof.
  intros Hdiff. pose proof (lookup_differ secrets key obj1 obj2 Hdiff) as Hl.
  unfold Main.field.
  destruct (Json.lookup key obj1) as [v1|], (Json.lookup key obj2) as [v2|];
    try done.
  destruct Hl as [->|(Hin & Hv1 & Hv2)]; [done|]. split; [done|].
  cbn [default from_option].
  destruct v1; try discriminate. destruct v2; try discriminate.
  unfold Netcup.missing. cbn [Main.nonempty_string] in Hv1, Hv2.
  change (id (Json.Str s)) with (Json.Str s). change (id (Json.Str s0)) with (Json.Str s0).
  cbn [Json.truthy]. by rewrite Hv1, Hv2.
Qed.

(** The log lines of [initChallenges] for the Netcup module do not depend
    on the key and the password of the configuration. *)
Lemma same_logs_initChallenges config1 config2 :
  differ_in_secrets ["dns01OapiKey"; "dns01OapiPassword"] config1 config2 →
  same_logs same_handlers (Main.initChallenges_netcup config1)
                          (Main.initChallenges_netcup config2).
Proof.
  intros Hconfig.
  assert (differ_in_secrets ["apiKey"; "apiPassword"]
            (Main.dns01Options config1) (Main.dns01Options config2)) as Hopts.
  { apply collect_options_differ; [done|]. constructor. }
  assert (Main.mask (Main.dns01Options config1) = Main.mask (Main.dns01Options config2))
    as Hmask.
  { apply (mask_secrets ["apiKey"; "apiPassword"]); [|apply collect_options_NoDup|done].
    - by repeat constructor.
    - constructor. }
  unfold Main.initChallenges_netcup. rewrite Hmask.
  eapply same_logs_bind; [apply same_logs_log|]. intros _ _ _.
  eapply same_logs_bind; [apply same_logs_log|]. intros _ _ _.
  eapply (same_logs_bind same_handlers).
  - apply same_logs_try_catch.
    + eapply (same_logs_bind
                (λ h1 h2, same_account (Netcup.captured h1) (Netcup.captured h2))).
      * apply same_logs_create. split; [|split].
        -- apply (field_differ _ _ _ _ Hopts).
           intros [?|[?|?%elem_of_nil]%elem_of_cons]%elem_of_cons; done.
        -- apply (field_differ _ _ _ _ Hopts).
        -- apply (field_differ _ _ _ _ Hopts).
      * intros h1 h2 Hsame. by apply same_logs_ret.
    + intros err. eapply same_logs_bind; [apply same_logs_log|]. intros _ _ _.
      by apply same_logs_ret.
  - intros [h1|] [h2|] Hsame; try done.
    eapply same_logs_bind; [apply same_logs_log|]. intros _ _ _.
    by apply same_logs_ret.
Qed.

(** C9, as amended: no operation of the program puts the API key or the
    API password into a log message.  The keys that carry them match the
    pattern of the masking loop, which replaces their values by ["***"]
    before the configuration and the options of the DNS-01 module are
    logged; and wherever the two values are read (the dump of the
    configuration in [onReady], [initChallenges], and [create], [set],
    [get] and [remove] of the handler) the log lines are the same whatever
    non-empty texts the two values are, against the same answers of the
    remote and of the resolver.  The handlers that [initChallenges] and
    [create] make for two such configurations are handlers of the same
    account, to which the statement on [set], [get] and [remove] applies.
    Two things are not promised, see [C9_counterexample]: the customer
    number is logged as it is, and so is the text the remote sends back,
    whatever it holds. *)
Theorem C9_api_key_and_password_not_logged :
  Forall (λ key, Main.sensitive_key key = true)
         ["apiKey"; "apiPassword"; "dns01OapiKey"; "dns01OapiPassword"] ∧
  (∀ obj, NoDup obj.*1 → Main.mask obj = map mask_entry obj) ∧
  (∀ config1 config2,
     NoDup config1.*1 →
     differ_in_secrets ["dns01OapiKey"; "dns01OapiPassword"] config1 config2 →
     same_logs eq (Main.onReady_log_config config1) (Main.onReady_log_config config2)
     ∧ same_logs same_handlers (Main.initChallenges_netcup config1)
                               (Main.initChallenges_netcup config2)) ∧
  (∀ o1 o2 data,
     same_account o1 o2 →
     same_logs (λ h1 h2, same_account (Netcup.captured h1) (Netcup.captured h2))
       (Netcup.create o1) (Netcup.create o2)
     ∧ same_logs eq (Netcup.set (Netcup.mkHandler o1) data)
                    (Netcup.set (Netcup.mkHandler o2) data)
     ∧ same_logs eq (Netcup.get (Netcup.mkHandler o1) data)
                    (Netcup.get (Netcup.mkHandler o2) data)
     ∧ same_logs eq (Netcup.remove (Netcup.mkHandler o1) data)
                    (Netcup.remove (Netcup.mkHandler o2) data)).
Proof.
  split; [by repeat constructor|].
  split; [apply mask_map|].
  split.
  - intros config1 config2 Hnodup Hdiff. split.
    + unfold Main.onReady_log_config.
      rewrite (mask_secrets ["dns01OapiKey"; "dns01OapiPassword"] config1 config2);
        [apply same_logs_log|by repeat constructor|done|done].
    + by apply same_logs_initChallenges.
  - intros o1 o2 data Haccount.
    split; [by apply same_logs_create|].
    split; [apply same_logs_set|].
    split; [apply same_logs_get|apply same_logs_remove].
Qed.

Lemma C9_api_key_and_password_not_logged_witness :
  let config1 := [("dns01Active", Json.Bool true);
                  ("dns01OcustomerNumber", Json.Str "12345");
                  ("dns01OapiKey", Json.Str "key-one");
                  ("dns01OapiPassword", Json.Str "password-one")] in
  let config2 := [("dns01Active", Json.Bool true);
                  ("dns01OcustomerNumber", Json.Str "12345");
                  ("dns01OapiKey", Json.Str "key-two");
                  ("dns01OapiPassword", Json.Str "password-two")] in
  let o1 := Netcup.mkOptions (Json.Str "12345") (Json.Str "key-one") (Json.Str "password-one") in
  let o2 := Netcup.mkOptions (Json.Str "12345") (Json.Str "key-two") (Json.Str "password-two") in
  let data := Netcup.mkChallenge "_acme-challenge.foo.example.com" "tok1" in
  (same_logs eq (Main.onReady_log_config config1) (Main.onReady_log_config config2)
   ∧ same_logs same_handlers (Main.initChallenges_netcup config1)
                             (Main.initChallenges_netcup config2)) ∧
  (same_logs (λ h1 h2, same_account (Netcup.captured h1) (Netcup.captured h2))
     (Netcup.create o1) (Netcup.create o2)
   ∧ same_logs eq (Netcup.set (Netcup.mkHandler o1) data)
                  (Netcup.set (Netcup.mkHandler o2) data)
   ∧ same_logs eq (Netcup.get (Netcup.mkHandler o1) data)
                  (Netcup.get (Netcup.mkHandler o2) data)
   ∧ same_logs eq (Netcup.remove (Netcup.mkHandler o1) data)
                  (Netcup.remove (Netcup.mkHandler o2) data)).
Proof.
  intros config1 config2 o1 o2 data.
  destruct C9_api_key_and_password_not_logged as (_ & _ & Hconfig & Hhandler).
  split.
  - apply Hconfig.
    + apply (bool_decide_unpack _). vm_compute. exact I.
    + constructor; [split; [reflexivity|by left]|].
      constructor; [split; [reflexivity|by left]|].
      constructor.
      { split; [reflexivity|]. right. split; [by left|]. split; reflexivity. }
      constructor; [|constructor].
      split; [reflexivity|]. right. split; [by right; left|]. split; reflexivity.
  - apply Hhandler. repeat split.
Defined.

(** C9 as stated fails: [create] writes the customer number to the log as
    it is, and the masking loop leaves it in the logged options, whose key
    [customerNumber] does not match the pattern; and [set] logs the error
    message of the remote as it is, so that an API key the remote sends
    back in its message appears in the log. *)
Lemma C9_counterexample :
  let o := Netcup.mkOptions (Json.Str "12345") (Json.Str "key") (Json.Str "password") in
  let env := mkEnv friendly_api (λ _, DnsRecords []) in
  let echo := mkEnv (λ _, JsonBody (mkEnvelope 4001 (Some "key") None Json.Null))
                    (λ _, DnsRecords []) in
  let data := Netcup.mkChallenge "_acme-challenge.foo.example.com" "tok1" in
  logged_in_clear "12345" (Netcup.create o env world0).2
  ∧ Main.sensitive_key "customerNumber" = false
  ∧ Main.mask [("customerNumber", Json.Str "12345"); ("apiKey", Json.Str "key");
               ("apiPassword", Json.Str "password")]
    = [("customerNumber", Json.Str "12345"); ("apiKey", Json.Str "***");
       ("apiPassword", Json.Str "***")]
  ∧ logged_in_clear "key" (Netcup.set (Netcup.mkHandler o) data echo world0).2.
Proof.
  split; [|split; [reflexivity|split; [reflexivity|]]].
  - eexists. split; [by left|]. cbn [log_message]. repeat constructor.
  - eexists. split; [by right; left|]. cbn [log_message]. repeat constructor.
Qed.

(** * Further properties *)

(** ** Polling loops that wait for a confirmed answer *)

Section ConfirmingLoop.

Variables (dnsHost expectedValue : string) (ms : Z).
Variable body : nat → M (option (list (list string))).

(** One turn looks the host up once; it leaves the loop with the records of
    an answer that confirms, and pauses otherwise. *)
Hypothesis body_run : ∀ attempt env w,
  ∃ lines,
    body attempt env w =
    (Return (confirmed_records expectedValue (dns_script env (dns_calls w))),
     mkWorld (api_calls w) (S (dns_calls w))
       (events w ++ EResolveTxt dnsHost
          :: match confirmed_records expectedValue (dns_script env (dns_calls w)) with
             | Some _ => []
             | None => [ESleep ms]
             end)
       (logs w ++ lines)).

Lemma confirming_loop_exhausted indices env w :
  (∀ j, j < length indices →
        confirmed_records expectedValue (dns_script env (dns_calls w + j)) = None) →
  ∃ lines,
    for_each indices body env w =
    (Return None,
     mkWorld (api_calls w) (dns_calls w + length indices)
       (events w ++ poll_turns dnsHost ms (length indices)) (logs w ++ lines)).
Proof.
  revert w. induction indices as [|i indices IH]; intros w Hnone.
  - exists []. destruct w. unfold poll_turns. simpl. unfold ret.
    by rewrite Nat.add_0_r, !app_nil_r.
  - destruct (body_run i env w) as [lines Hp].
    cbn [for_each]. erewrite bind_return by exact Hp.
    assert (confirmed_records expectedValue (dns_script env (dns_calls w)) = None) as ->.
    { rewrite <- (Hnone 0) by (simpl; lia). by rewrite Nat.add_0_r. }
    edestruct IH as [lines' ->].
    { intros j Hj. cbn [dns_calls].
      replace (S (dns_calls w) + j) with (dns_calls w + S j) by lia.
      apply Hnone. simpl. lia. }
    exists (lines ++ lines'). cbn [api_calls dns_calls events logs length].
    unfold poll_turns. cbn [replicate concat].
    f_equal. f_equal; [lia| |].
    + by rewrite <- !app_assoc.
    + by rewrite <- app_assoc.
Qed.

Lemma confirming_loop_confirmed indices k records env w :
  k < length indices →
  (∀ j, j < k →
        confirmed_records expectedValue (dns_script env (dns_calls w + j)) = None) →
  confirmed_records expectedValue (dns_script env (dns_calls w + k)) = Some records →
  ∃ lines,
    for_each indices body env w =
    (Return (Some records),
     mkWorld (api_calls w) (dns_calls w + S k)
       (events w ++ poll_turns dnsHost ms k ++ [EResolveTxt dnsHost])
       (logs w ++ lines)).
Proof.
  revert w k. induction indices as [|i indices IH]; intros w k Hk Hnone Hsome;
    [simpl in Hk; lia|].
  destruct (body_run i env w) as [lines Hp].
  cbn [for_each]. erewrite bind_return by exact Hp.
  destruct k as [|k].
  - rewrite Nat.add_0_r in Hsome. rewrite Hsome. unfold ret.
    exists lines. unfold poll_turns. cbn [replicate concat app].
    do 2 f_equal. lia.
  - assert (confirmed_records expectedValue (dns_script env (dns_calls w)) = None) as ->.
    { rewrite <- (Hnone 0) by lia. by rewrite Nat.add_0_r. }
    edestruct (IH (mkWorld (api_calls w) (S (dns_calls w))
                     (events w ++ [EResolveTxt dnsHost; ESleep ms]) (logs w ++ lines)) k)
      as [lines' ->].
    + simpl in Hk. lia.
    + intros j Hj. cbn [dns_calls].
      replace (S (dns_calls w) + j) with (dns_calls w + S j) by lia.
      apply Hnone. lia.
    + cbn [dns_calls]. by replace (S (dns_calls w) + k) with (dns_calls w + S k) by lia.
    + exists (lines ++ lines'). cbn [api_calls dns_calls events logs].
      unfold poll_turns. cbn [replicate concat].
      f_equal. f_equal; [lia| |].
      * by rewrite <- !app_assoc.
      * by rewrite <- app_assoc.
Qed.

(** Whatever the resolver answers, the loop is only left with the records
    of an answer that confirms. *)
Lemma confirming_loop_sound indices records env w w' :
  for_each indices body env w = (Return (Some records), w') →
  ∃ j, confirmed_records expectedValue (dns_script env (dns_calls w + j)) = Some records.
Proof.
  revert w. induction indices as [|i indices IH]; intros w; cbn [for_each].
  - unfold ret. done.
  - destruct (body_run i env w) as [lines Hp].
    erewrite bind_return by exact Hp.
    destruct (confirmed_records expectedValue (dns_script env (dns_calls w)))
      as [found|] eqn:Hc.
    + unfold ret. intros [= <- _]. exists 0. by rewrite Nat.add_0_r.
    + intros [j Hj]%IH. cbn [dns_calls] in Hj. exists (S j).
      by replace (dns_calls w + S j) with (S (dns_calls w) + j) by lia.
Qed.

End ConfirmingLoop.

Lemma confirmed_records_includes expectedValue answer records :
  confirmed_records expectedValue answer = Some records →
  answer = DnsRecords records
  ∧ Js.includes (Js.flat records) expectedValue = true
  ∧ length records ≠ 0.
Proof.
  unfold confirmed_records. destruct answer as [e|found]; [done|].
  destruct (Js.includes (Js.flat found) expectedValue) eqn:Hin; [|done].
  intros [= <-]. split; [done|]. split; [done|].
  by destruct found.
Qed.

(** ** The DNS-01 pre-flight of the adapter *)

Lemma attempt_authoritative_run dnsHost expectedValue attempt env w :
  ∃ lines,
    Dns01.attempt_authoritative dnsHost expectedValue attempt env w =
    (Return (confirmed_records expectedValue (dns_script env (dns_calls w))),
     mkWorld (api_calls w) (S (dns_calls w))
       (events w ++ EResolveTxt dnsHost
          :: match confirmed_records expectedValue (dns_script env (dns_calls w)) with
             | Some _ => []
             | None => [ESleep Dns01.retryDelayMs]
             end)
       (logs w ++ lines)).
Proof.
  unfold Dns01.attempt_authoritative, bind, try_catch, resolveTxt, confirmed_records.
  destruct (dns_script env (dns_calls w)) as [e|records].
  - eexists [_]. unfold log, sleep, ret. cbn [dns_calls api_calls events logs].
    by rewrite <- app_assoc.
  - destruct (Js.includes (Js.flat records) expectedValue).
    + eexists [_]. reflexivity.
    + eexists [_]. unfold log, sleep, ret. cbn [dns_calls api_calls events logs].
      by rewrite <- app_assoc.
Qed.

Lemma attempt_public_run dnsHost expectedValue attempt env w :
  ∃ lines,
    Dns01.attempt_public dnsHost expectedValue attempt env w =
    (Return (confirmed_records expectedValue (dns_script env (dns_calls w))),
     mkWorld (api_calls w) (S (dns_calls w))
       (events w ++ EResolveTxt dnsHost
          :: match confirmed_records expectedValue (dns_script env (dns_calls w)) with
             | Some _ => []
             | None => [ESleep Dns01.retryDelayMs]
             end)
       (logs w ++ lines)).
Proof.
  unfold Dns01.attempt_public, bind, try_catch, resolveTxt, confirmed_records.
  destruct (dns_script env (dns_calls w)) as [e|records].
  - eexists [_]. unfold log, sleep, ret. cbn [dns_calls api_calls events logs].
    by rewrite <- app_assoc.
  - destruct (Js.includes (Js.flat records) expectedValue).
    + eexists [_]. reflexivity.
    + eexists [_]. unfold log, sleep, ret. cbn [dns_calls api_calls events logs].
      by rewrite <- app_assoc.
Qed.

(** When no answer of the authoritative tier confirms the record, the
    pre-flight throws after [maxAttempts] lookups, each followed by a pause,
    and never queries the public tier. *)
Theorem pollDns01Challenge_authoritative_timeout dnsHost dnsAuthorization env w :
  (∀ j, j < Dns01.maxAttempts →
        confirmed_records dnsAuthorization (dns_script env (dns_calls w + j)) = None) →
  ∃ w',
    Dns01.pollDns01Challenge dnsHost dnsAuthorization env w =
    (Throw (new_Error
              [Lit "acme.dns01: TXT record not visible on authoritative NS after ";
               InterpNum (Z.of_nat Dns01.maxAttempts); Lit " attempts"]), w')
    ∧ events w' = events w ++ poll_turns dnsHost Dns01.retryDelayMs Dns01.maxAttempts
    ∧ dns_calls w' = dns_calls w + Dns01.maxAttempts.
Proof.
  intros Hnone. unfold Dns01.pollDns01Challenge.
  unfold bind at 1. unfold log at 1. cbv beta iota.
  unfold bind at 1. unfold log at 1. cbv beta iota.
  set (w1 := mkWorld _ _ _ _).
  destruct (confirming_loop_exhausted dnsHost dnsAuthorization Dns01.retryDelayMs
              (Dns01.attempt_authoritative dnsHost dnsAuthorization)
              (attempt_authoritative_run dnsHost dnsAuthorization)
              (range_incl 1 Dns01.maxAttempts) env w1) as [lines Hloop].
  { intros j Hj. apply Hnone. exact Hj. }
  erewrite bind_return by exact Hloop.
  eexists. split; [reflexivity|]. split; reflexivity.
Qed.

Lemma pollDns01Challenge_authoritative_timeout_witness :
  let env := mkEnv friendly_api (λ _, DnsRecords [["stale-value"]]) in
  ∃ e w',
    Dns01.pollDns01Challenge "_acme-challenge.foo.example.com" "tok1" env world0
    = (Throw e, w')
    ∧ dns_calls w' = 120.
Proof.
  intros env.
  destruct (pollDns01Challenge_authoritative_timeout
              "_acme-challenge.foo.example.com" "tok1" env world0) as (w' & Hrun & _ & Hn).
  - intros j _. reflexivity.
  - eexists _, w'. split; [exact Hrun|exact Hn].
Defined.

(** Once the authoritative tier confirms the record, after [k] failed
    attempts, the pre-flight does not throw: it returns the records of the
    first answer of the public tier that confirms within
    [maxPublicAttempts] attempts, and the records of the authoritative
    answer when the public tier confirms none.  The attempts of the two
    tiers add up. *)
Theorem pollDns01Challenge_two_tiers dnsHost dnsAuthorization env w k authoritative :
  k < Dns01.maxAttempts →
  (∀ j, j < k →
        confirmed_records dnsAuthorization (dns_script env (dns_calls w + j)) = None) →
  confirmed_records dnsAuthorization (dns_script env (dns_calls w + k))
  = Some authoritative →
  let public j := confirmed_records dnsAuthorization
                    (dns_script env (dns_calls w + S k + j)) in
  let first_tier := poll_turns dnsHost Dns01.retryDelayMs k ++ [EResolveTxt dnsHost] in
  (∀ p records,
     p < Dns01.maxPublicAttempts →
     (∀ j, j < p → public j = None) →
     public p = Some records →
     ∃ w', Dns01.pollDns01Challenge dnsHost dnsAuthorization env w = (Return records, w')
           ∧ events w' = events w ++ first_tier
                         ++ poll_turns dnsHost Dns01.retryDelayMs p
                         ++ [EResolveTxt dnsHost]) ∧
  ((∀ j, j < Dns01.maxPublicAttempts → public j = None) →
   ∃ w', Dns01.pollDns01Challenge dnsHost dnsAuthorization env w
         = (Return authoritative, w')
         ∧ events w' = events w ++ first_tier
                       ++ poll_turns dnsHost Dns01.retryDelayMs Dns01.maxPublicAttempts).
Proof.
  intros Hk Hnone Hsome public first_tier.
  assert (∃ lines,
    Dns01.pollDns01Challenge dnsHost dnsAuthorization env w =
    (let* returned := for_each (range_incl 1 Dns01.maxPublicAttempts)
                        (Dns01.attempt_public dnsHost dnsAuthorization) in
     match returned with
     | Some records => ret records
     | None =>
         let* _ := log Warn
           [Lit "acme.dns01: public resolver timeout — submitting with authoritative NS result (may still succeed)"] in
         ret authoritative
     end) env
      (mkWorld (api_calls w) (dns_calls w + S k) (events w ++ first_tier)
         (logs w ++ lines))) as [lines0 ->].
  { unfold Dns01.pollDns01Challenge.
    unfold bind at 1. unfold log at 1. cbv beta iota.
    unfold bind at 1. unfold log at 1. cbv beta iota.
    set (w1 := mkWorld _ _ _ _).
    destruct (confirming_loop_confirmed dnsHost dnsAuthorization Dns01.retryDelayMs
                (Dns01.attempt_authoritative dnsHost dnsAuthorization)
                (attempt_authoritative_run dnsHost dnsAuthorization)
                (range_incl 1 Dns01.maxAttempts) k authoritative env w1)
      as [lines Hloop]; [exact Hk|exact Hnone|exact Hsome|].
    erewrite bind_return by exact Hloop. cbn [default from_option].
    apply confirmed_records_includes in Hsome as (_ & _ & Hlen).
    apply Nat.eqb_neq in Hlen. change (id authoritative) with authoritative.
    rewrite Hlen.
    unfold bind at 1. unfold log at 1. cbv beta iota.
    cbn [api_calls dns_calls events logs w1].
    eexists. rewrite <- !app_assoc. reflexivity. }
  set (w2 := mkWorld _ _ _ _). split.
  - intros p records Hp Hbefore Hconfirmed.
    destruct (confirming_loop_confirmed dnsHost dnsAuthorization Dns01.retryDelayMs
                (Dns01.attempt_public dnsHost dnsAuthorization)
                (attempt_public_run dnsHost dnsAuthorization)
                (range_incl 1 Dns01.maxPublicAttempts) p records env w2)
      as [lines Hloop]; [exact Hp|exact Hbefore|exact Hconfirmed|].
    erewrite bind_return by exact Hloop. unfold ret.
    eexists. split; [reflexivity|]. cbn [events w2]. by rewrite <- !app_assoc.
  - intros Hnever.
    destruct (confirming_loop_exhausted dnsHost dnsAuthorization Dns01.retryDelayMs
                (Dns01.attempt_public dnsHost dnsAuthorization)
                (attempt_public_run dnsHost dnsAuthorization)
                (range_incl 1 Dns01.maxPublicAttempts) env w2)
      as [lines Hloop]; [exact Hnever|].
    erewrite bind_return by exact Hloop.
    eexists. split; [reflexivity|]. cbn [events w2]. by rewrite <- !app_assoc.
Qed.

Lemma pollDns01Challenge_two_tiers_witness :
  let env := mkEnv friendly_api
               (λ n, match n with
                     | 0 => DnsError (mkError SystemError [Lit "queryTxt ENOTFOUND"]
                                        (Some "ENOTFOUND"))
                     | 1 => DnsRecords [["tok1"]]
                     | 2 => DnsRecords []
                     | _ => DnsRecords [["other"]; ["tok1"]]
                     end) in
  ∃ w', Dns01.pollDns01Challenge "_acme-challenge.foo.example.com" "tok1" env world0
        = (Return [["other"]; ["tok1"]], w')
        ∧ dns_lookups (events w') = replicate 4 "_acme-challenge.foo.example.com".
Proof.
  intros env.
  destruct (pollDns01Challenge_two_tiers "_acme-challenge.foo.example.com" "tok1"
              env world0 1 [["tok1"]]) as [Hpublic _].
  - unfold Dns01.maxAttempts. lia.
  - intros j Hj. assert (j = 0) as -> by lia. reflexivity.
  - reflexivity.
  - destruct (Hpublic 1 [["other"]; ["tok1"]]) as (w' & Hrun & Hev).
    + unfold Dns01.maxPublicAttempts. lia.
    + intros j Hj. assert (j = 0) as -> by lia. reflexivity.
    + reflexivity.
    + exists w'. split; [exact Hrun|]. rewrite Hev. reflexivity.
Defined.

(** The answer the pre-flight returns always contains the expected value,
    whatever the resolvers answer. *)
Theorem pollDns01Challenge_answer_confirmed dnsHost dnsAuthorization env w records w' :
  Dns01.pollDns01Challenge dnsHost dnsAuthorization env w = (Return records, w') →
  Js.includes (Js.flat records) dnsAuthorization = true.
Proof.
  unfold Dns01.pollDns01Challenge.
  unfold bind at 1. unfold log at 1. cbv beta iota.
  unfold bind at 1. unfold log at 1. cbv beta iota.
  unfold bind at 1.
  destruct (for_each _ (Dns01.attempt_authoritative _ _) env _)
    as [[broke|e] w1] eqn:Hfirst; [|done].
  destruct broke as [authoritative|]; cbn [default from_option]; [|by unfold throw].
  apply (confirming_loop_sound dnsHost dnsAuthorization Dns01.retryDelayMs _
           (attempt_authoritative_run dnsHost dnsAuthorization)) in Hfirst as [j Hj].
  apply confirmed_records_includes in Hj as (_ & Hin & Hlen).
  change (id authoritative) with authoritative.
  apply Nat.eqb_neq in Hlen. rewrite Hlen.
  unfold bind at 1. unfold log at 1. cbv beta iota. unfold bind at 1.
  destruct (for_each _ (Dns01.attempt_public _ _) env _)
    as [[returned|e] w2] eqn:Hsecond; [|done].
  destruct returned as [found|].
  - unfold ret. intros [= <- _].
    apply (confirming_loop_sound dnsHost dnsAuthorization Dns01.retryDelayMs _
             (attempt_public_run dnsHost dnsAuthorization)) in Hsecond as [p Hp].
    by apply confirmed_records_includes in Hp as (_ & Hp & _).
  - unfold bind, log, ret. by intros [= <- _].
Qed.

Lemma pollDns01Challenge_answer_confirmed_witness :
  let env := mkEnv friendly_api (λ _, DnsRecords [["tok1"]]) in
  ∃ records w',
    Dns01.pollDns01Challenge "_acme-challenge.foo.example.com" "tok1" env world0
    = (Return records, w')
    ∧ Js.includes (Js.flat records) "tok1" = true.
Proof.
  intros env. eexists _, _. split; [vm_compute; reflexivity|].
  eapply (pollDns01Challenge_answer_confirmed "_acme-challenge.foo.example.com" "tok1"
            env world0).
  vm_compute. reflexivity.
Defined.

(** ** Further properties of the Netcup handler *)

(** [get] never throws and sends nothing to the API: it looks the host up
    once, without a pause, and answers the authorization value exactly when
    the lookup succeeds with a list that contains it. *)
Theorem get_single_lookup h data env w :
  ∃ lines,
    Netcup.get h data env w =
    (Return (if confirms (Netcup.dnsAuthorization data) (dns_script env (dns_calls w))
             then Some (Netcup.dnsAuthorization data) else None),
     mkWorld (api_calls w) (S (dns_calls w))
       (events w ++ [EResolveTxt (Netcup.dnsHost data)]) (logs w ++ lines)).
Proof.
  unfold Netcup.get, bind, try_catch, resolveTxt, log, ret, confirms.
  cbn [api_calls dns_calls events logs].
  destruct (dns_script env (dns_calls w)) as [e|results];
    eexists [_; _]; cbn [api_calls dns_calls events logs]; by rewrite <- app_assoc.
Qed.

(** [login] returns exactly on an answer with a status code of the success
    band whose data is neither [null] nor [undefined], and what it returns
    is the property [apisessionid] of the data, [undefined] when the data
    has none: the session identifier is not validated. *)
Theorem login_returns_iff cn key password env w sid :
  (Netcup.login cn key password env w).1 = Return sid
  ↔ ∃ json, api_script env (api_calls w) = JsonBody json
            ∧ (2000 <= statuscode json < 3000)%Z
            ∧ Json.nullish (responsedata json) = false
            ∧ sid = match responsedata json with
                    | Json.Obj fields =>
                        default Json.Undefined (Json.lookup "apisessionid" fields)
                    | _ => Json.Undefined
                    end.
Proof.
  unfold Netcup.login, bind. rewrite apiCall_run.
  unfold Netcup.apiResult, Netcup.isSuccess.
  destruct (api_script env (api_calls w)) as [e|status text|raw|json];
    try (split; [done|by intros (? & [=] & _)]).
  rewrite andb_true_r.
  destruct (Z.leb_spec 2000 (statuscode json)) as [Hlo|Hlo];
    destruct (Z.ltb_spec (statuscode json) 3000) as [Hhi|Hhi]; cbn [andb negb];
    try (split; [done|intros (? & [= <-] & ? & _); lia]).
  destruct (responsedata json) as [| | b | n | s | items | fields] eqn:Hdata;
    cbn [Json.prop]; unfold ret, throw; cbn [fst].
  1,2: split; [done|intros (? & [= <-] & _ & Hnull & _); by rewrite Hdata in Hnull].
  all: split;
    [intros [= <-]; exists json; rewrite Hdata; repeat split; done
    |intros (? & [= <-] & _ & _ & ->); by rewrite Hdata].
Qed.

Section FindZoneRuns.

Variables (fullDomain : string) (customerNumber apiKey apisessionid : Json.value).
Variable parts : list string.

Let probe := Netcup.probe fullDomain customerNumber apiKey apisessionid parts.



End FindZoneRuns.


(** For a name without a dot, the empty name included, [findZone] sends no
    probe and returns the name itself as the zone, with the relative name
    ["@"]. *)
Theorem findZone_single_label fullDomain cn key sid env w :
  length (Js.split "." fullDomain) = 1 →
  ∃ w', Netcup.findZone fullDomain cn key sid env w
        = (Return (Netcup.mkZone fullDomain "@"), w')
        ∧ events w' = events w.
Proof.
  intros Hlen.
  assert (Netcup.fallback (Js.split "." fullDomain) = Netcup.mkZone fullDomain "@")
    as Hfallback.
  { rewrite fallback_at, Hlen, candidate_at_drop, hostname_at_take.
    change (1 - 2) with 0. rewrite drop_0, join_split. reflexivity. }
  rewrite findZone_run, Hlen, Hfallback.
  change (range 1 (1 - 1)) with (@nil nat). cbn [for_each].
  unfold ret at 1. cbv beta iota.
  eexists. split; [reflexivity|done].
Qed.

Lemma findZone_single_label_witness :
  let env := mkEnv (λ _, NonJsonBody "") (λ _, DnsRecords []) in
  (∃ w', Netcup.findZone "localhost" (Json.Str "12345") (Json.Str "key") (Json.Str "sid") env world0
         = (Return (Netcup.mkZone "localhost" "@"), w') ∧ events w' = events world0)
  ∧ (∃ w', Netcup.findZone "" (Json.Str "12345") (Json.Str "key") (Json.Str "sid") env world0
           = (Return (Netcup.mkZone "" "@"), w') ∧ events w' = events world0).
Proof.
  intros env. split.
  - apply (findZone_single_label "localhost"). reflexivity.
  - apply (findZone_single_label ""). reflexivity.
Defined.

(** *** What the operations write to the zone *)

Lemma dns_lookups_app es1 es2 :
  dns_lookups (es1 ++ es2) = dns_lookups es1 ++ dns_lookups es2.
Proof.
  induction es1 as [|[r|host|ms] es1 IH]; simpl; [done|done| |done].
  by rewrite IH.
Qed.

Lemma pauses_app es1 es2 : pauses (es1 ++ es2) = pauses es1 ++ pauses es2.
Proof.
  induction es1 as [|[r|host|ms] es1 IH]; simpl; [done|done|done|].
  by rewrite IH.
Qed.

Lemma fetches_only reqs :
  dns_lookups (map EFetch reqs) = [] ∧ pauses (map EFetch reqs) = [].
Proof. by induction reqs. Qed.

(** When the login succeeds and the part of [set] between login and logout
    throws (the zone discovery or the write of the record failed), [set]
    throws the same error, after the logout request, without a DNS lookup
    and without a pause. *)
Theorem set_failure_before_wait h data env w sid e :
  login_outcome (api_script env (api_calls w)) = Return sid →
  (∀ w1, api_calls w1 = S (api_calls w) →
         (Netcup.write_record h data sid env w1).1 = Throw e) →
  (Netcup.set h data env w).1 = Throw e
  ∧ dns_lookups (events (Netcup.set h data env w).2) = dns_lookups (events w)
  ∧ pauses (events (Netcup.set h data env w).2) = pauses (events w)
  ∧ ∃ before, api_requests (events (Netcup.set h data env w).2)
              = before ++ [logout_request (Netcup.captured h) sid].
Proof.
  intros Hlogin Hblock.
  destruct (set_run h data env w) as [line ->]. cbv zeta. rewrite Hlogin.
  set (w1 := sent _ _).
  rewrite (Hblock w1) by reflexivity.
  destruct (sends_write_record h data sid env w1) as (mid & Hmid & _).
  cbn [fst snd sent events]. rewrite Hmid. cbn [w1 sent events].
  destruct (fetches_only mid) as [Hdns Hpauses].
  split; [done|].
  split; [by rewrite !dns_lookups_app, Hdns, !app_nil_r|].
  split; [by rewrite !pauses_app, Hpauses, !app_nil_r|].
  eexists. rewrite api_requests_app. reflexivity.
Qed.

Lemma set_failure_before_wait_witness :
  let env := mkEnv (λ k, match k with
                         | 0 => friendly_api 0
                         | 1 => friendly_api 1
                         | _ => JsonBody (mkEnvelope 4013 (Some "Validation error") None
                                            Json.Null)
                         end)
                   (λ _, DnsRecords [["tok1"]]) in
  let h := Netcup.mkHandler
             (Netcup.mkOptions (Json.Str "12345") (Json.Str "key") (Json.Str "password")) in
  let data := Netcup.mkChallenge "_acme-challenge.foo.example.com" "tok1" in
  let run := Netcup.set h data env world0 in
  run.1 = Throw (new_Error [Lit "Netcup API error ["; InterpNum 4013; Lit "]: ";
                            Interp "Validation error"])
  ∧ dns_lookups (events run.2) = []
  ∧ pauses (events run.2) = [].
Proof.
  intros env h data run.
  destruct (set_failure_before_wait h data env world0 (Json.Str "sid")
              (new_Error [Lit "Netcup API error ["; InterpNum 4013; Lit "]: ";
                          Interp "Validation error"]))
    as (Hthrow & Hdns & Hpauses & _).
  - reflexivity.
  - intros [calls dns es ls] Hcalls. cbn in Hcalls. subst calls. reflexivity.
  - split; [exact Hthrow|]. split; [exact Hdns|exact Hpauses].
Defined.

Section Emits.

Context {A B : Type} (Q : Event → Prop).

Lemma emits_ret (R : A → Prop) a : R a → emits Q R (ret a).
Proof.
  intros HR env w. exists []. rewrite app_nil_r. split; [done|]. split; [done|].
  by intros ? [= <-].
Qed.

Lemma emits_throw (R : A → Prop) e : emits Q R (throw e).
Proof. intros env w. exists []. rewrite app_nil_r. by repeat split. Qed.

Lemma emits_bind (R : A → Prop) (R' : B → Prop) (m : M A) (k : A → M B) :
  emits Q R m → (∀ a, R a → emits Q R' (k a)) → emits Q R' (bind m k).
Proof.
  intros Hm Hk env w. unfold bind.
  destruct (Hm env w) as (new1 & Hev1 & HQ1 & HR1).
  destruct (m env w) as [[a|e] w1]; cbn [fst snd] in *.
  - destruct (Hk a (HR1 a eq_refl) env w1) as (new2 & Hev2 & HQ2 & HR2).
    exists (new1 ++ new2). split; [by rewrite Hev2, Hev1, app_assoc|].
    split; [by apply Forall_app|done].
  - exists new1. by repeat split.
Qed.

Lemma emits_try_catch (R : A → Prop) (body : M A) (handler : JsError → M A) :
  emits Q R body → (∀ e, emits Q R (handler e)) → emits Q R (try_catch body handler).
Proof.
  intros Hm Hk env w. unfold try_catch.
  destruct (Hm env w) as (new1 & Hev1 & HQ1 & HR1).
  destruct (body env w) as [[a|e] w1]; cbn [fst snd] in *.
  - exists new1. by repeat split.
  - destruct (Hk e env w1) as (new2 & Hev2 & HQ2 & HR2).
    exists (new1 ++ new2). split; [by rewrite Hev2, Hev1, app_assoc|].
    split; [by apply Forall_app|done].
Qed.

Lemma emits_try_finally (R : A → Prop) (body : M A) (cleanup : M unit) :
  emits Q R body → emits Q (λ _, True) cleanup → emits Q R (try_finally body cleanup).
Proof.
  intros Hm Hc env w. unfold try_finally.
  destruct (Hm env w) as (new1 & Hev1 & HQ1 & HR1).
  destruct (body env w) as [r w1]; cbn [fst snd] in *.
  destruct (Hc env w1) as (new2 & Hev2 & HQ2 & _).
  destruct (cleanup env w1) as [[[]|e] w2]; cbn [fst snd] in *;
    exists (new1 ++ new2); (split; [by rewrite Hev2, Hev1, app_assoc|]);
    (split; [by apply Forall_app|done]).
Qed.

End Emits.

Lemma emits_any {A} Q (R : A → Prop) (m : M A) :
  emits Q R m → emits Q (λ _, True) m.
Proof.
  intros Hm env w. destruct (Hm env w) as (new & Hev & HQ & _). by exists new.
Qed.

Lemma emits_log Q level message : emits Q (λ _, True) (log level message).
Proof. intros env w. exists []. by rewrite app_nil_r. Qed.

Lemma emits_sleep (Q : Event → Prop) ms : Q (ESleep ms) → emits Q (λ _, True) (sleep ms).
Proof. intros HQ env w. exists [ESleep ms]. split; [done|]. by split; [constructor|]. Qed.

Lemma emits_resolveTxt (Q : Event → Prop) host :
  Q (EResolveTxt host) → emits Q (λ _, True) (resolveTxt host).
Proof.
  intros HQ env w. exists [EResolveTxt host]. unfold resolveTxt.
  destruct (dns_script env (dns_calls w)); (split; [done|]); by split; [constructor|].
Qed.

Lemma emits_apiCall (Q : Event → Prop) action param throwOnError :
  Q (EFetch (mkRequest action param)) →
  emits Q (λ _, True) (Netcup.apiCall action param throwOnError).
Proof.
  intros HQ env w. rewrite apiCall_run. exists [EFetch (mkRequest action param)].
  split; [done|]. by split; [constructor|].
Qed.

Lemma emits_for_each {A} Q indices (body : nat → M (option A)) :
  (∀ i, emits Q (λ _, True) (body i)) → emits Q (λ _, True) (for_each indices body).
Proof.
  intros Hbody. induction indices as [|i indices IH]; cbn [for_each].
  - by apply emits_ret.
  - eapply emits_bind; [apply Hbody|]. intros [a|] _; [by apply emits_ret|done].
Qed.

(** The tactic that walks through a computation, leaving the requests. *)
Ltac emits_step :=
  first
    [ apply emits_log
    | apply emits_sleep; exact I
    | apply emits_resolveTxt; exact I
    | apply emits_throw
    | apply emits_ret; exact I
    | eapply (emits_bind _ (λ _, True)); [|intros ? _]
    | apply emits_try_catch; [|intros ?]
    | apply emits_try_finally ].

Section UpdatesOnly.

Variable P : list Json.value → Prop.

(** A request other than updateDnsRecords is no update. *)
Lemma emits_other name param throwOnError :
  String.eqb name "updateDnsRecords" = false →
  emits (updates_only P) (λ _, True) (Netcup.apiCall name param throwOnError).
Proof.
  intros Hne. apply emits_apiCall. cbn [updates_only action]. intros ->.
  by rewrite String.eqb_refl in Hne.
Qed.

Lemma emits_update cn key sid domainname records :
  P records →
  emits (updates_only P) (λ _, True)
    (Netcup.apiCall "updateDnsRecords"
       (Netcup.zone_param cn key sid domainname (Netcup.recordset records)) true).
Proof.
  intros HP. apply emits_apiCall. cbn [updates_only]. intros _. by exists records.
Qed.

Lemma emits_login cn key password :
  emits (updates_only P) (λ _, True) (Netcup.login cn key password).
Proof.
  unfold Netcup.login. eapply emits_bind; [by apply emits_other|].
  intros data _. destruct (Json.prop data "apisessionid"); emits_step.
Qed.

Lemma emits_logout cn key sid :
  emits (updates_only P) (λ _, True) (Netcup.logout cn key sid).
Proof.
  unfold Netcup.logout. apply emits_try_catch.
  - eapply emits_bind; [by apply emits_other|]. intros; emits_step.
  - intros; emits_step.
Qed.

Lemma emits_findZone fullDomain cn key sid :
  emits (updates_only P) (λ _, True) (Netcup.findZone fullDomain cn key sid).
Proof.
  unfold Netcup.findZone. eapply emits_bind.
  - apply emits_for_each. intros i. unfold Netcup.probe.
    eapply emits_bind; [by apply emits_other|]. intros result _.
    destruct (Netcup.zone_accepted result); repeat emits_step.
  - intros [zone|] _; repeat emits_step.
Qed.

End UpdatesOnly.

(** Whatever the remote and the resolver answer, every updateDnsRecords
    request of [set] carries exactly one record: the TXT record of the
    challenge with its authorization value, not marked for deletion. *)
Theorem set_writes_one_txt_record h data :
  emits (updates_only (λ records,
           ∃ hostname,
             records = [Json.Obj [("hostname", Json.Str hostname);
                                  ("type", Json.Str "TXT");
                                  ("destination", Json.Str (Netcup.dnsAuthorization data));
                                  ("deleterecord", Json.Bool false)]]))
        (λ _, True) (Netcup.set h data).
Proof.
  unfold Netcup.set.
  eapply emits_bind; [apply emits_log|]. intros _ _.
  eapply emits_bind.
  { apply emits_try_catch; [apply emits_login|]. intros e. repeat emits_step. }
  intros sid _. eapply emits_bind.
  { apply emits_try_finally; [|apply emits_logout].
    unfold Netcup.write_record.
    eapply emits_bind; [apply emits_findZone|]. intros zone _.
    eapply emits_bind; [apply emits_log|]. intros _ _.
    eapply emits_bind; [|intros; apply emits_log].
    apply emits_update. by exists (Netcup.hostname zone). }
  intros _ _. unfold Netcup.await_propagation.
  eapply emits_bind; [apply emits_log|]. intros _ _.
  eapply emits_bind.
  - apply emits_for_each. intros attempt. unfold Netcup.poll_attempt.
    eapply (emits_bind _ (λ _, True)).
    + apply emits_try_catch; [|intros err]; repeat emits_step.
    + intros [r|] _; repeat emits_step.
  - intros [r|] _; repeat emits_step.
Qed.

Lemma lookup_assign key key' v fields :
  Json.lookup key (Json.assign key' v fields)
  = if String.eqb key' key then Some v else Json.lookup key fields.
Proof.
  induction fields as [|[k old] fields IH]; cbn [Json.assign Json.lookup].
  - by destruct (String.eqb key' key).
  - destruct (String.eqb_spec k key') as [->|Hne]; cbn [Json.lookup].
    + by destruct (String.eqb key' key).
    + rewrite IH. destruct (String.eqb_spec k key) as [->|Hne']; [|done].
      destruct (String.eqb_spec key' key); [congruence|done].
Qed.

(** The copy of a listed record that [remove] submits has [deleterecord]
    set to [true], keeps every other property of the record (its [id]
    among them) and has the same properties in the same order, with
    [deleterecord] added at the end when the record had none. *)
Theorem mark_deleted_changes_flag_only fields :
  ∃ marked,
    Netcup.mark_deleted (Json.Obj fields) = Json.Obj marked
    ∧ Json.lookup "deleterecord" marked = Some (Json.Bool true)
    ∧ (∀ key, key ≠ "deleterecord" → Json.lookup key marked = Json.lookup key fields)
    ∧ marked.*1 = if decide ("deleterecord" ∈ fields.*1) then fields.*1
                  else fields.*1 ++ ["deleterecord"].
Proof.
  eexists. split; [reflexivity|].
  split; [by rewrite lookup_assign, String.eqb_refl|].
  split; [|apply assign_keys].
  intros key Hne. rewrite lookup_assign.
  destruct (String.eqb_spec "deleterecord" key); [congruence|done].
Qed.

(** A record the filter of [remove] keeps is an object of type TXT whose
    destination is the authorization value. *)
Lemma is_challenge_record_true hostname dnsAuthorization r env w w' :
  Netcup.is_challenge_record hostname dnsAuthorization r env w = (Return true, w') →
  ∃ fields, r = Json.Obj fields
            ∧ Json.lookup "type" fields = Some (Json.Str "TXT")
            ∧ Json.lookup "destination" fields = Some (Json.Str dnsAuthorization).
Proof.
  unfold Netcup.is_challenge_record.
  destruct r as [| | b | n | s | items | fields]; cbn [Json.prop]; unfold ret, throw;
    try done; try (by cbn; intros [=]).
  intros [= Hmatch _]. exists fields. split; [done|].
  apply andb_true_iff in Hmatch as [Hmatch Hdest].
  apply andb_true_iff in Hmatch as [Htype _].
  destruct (Json.lookup "type" fields) as [[| | | |type| |]|]; try done.
  destruct (Json.lookup "destination" fields) as [[| | | |dest| |]|]; try done.
  cbn in Htype, Hdest. apply String.eqb_eq in Htype, Hdest. by subst.
Qed.

Lemma is_challenge_record_pure hostname dnsAuthorization r env w :
  ∃ o, Netcup.is_challenge_record hostname dnsAuthorization r env w = (o, w).
Proof.
  unfold Netcup.is_challenge_record.
  destruct (Json.prop r "type"); unfold ret, throw; eauto.
Qed.

Lemma filter_records_run hostname dnsAuthorization records env w :
  ∃ o,
    Netcup.filter_records (Netcup.is_challenge_record hostname dnsAuthorization)
      records env w = (o, w)
    ∧ ∀ kept, o = Return kept →
        Forall (λ r, ∃ fields, r = Json.Obj fields
                               ∧ Json.lookup "type" fields = Some (Json.Str "TXT")
                               ∧ Json.lookup "destination" fields
                                 = Some (Json.Str dnsAuthorization)) kept.
Proof.
  induction records as [|r records IH]; cbn [Netcup.filter_records].
  - eexists. split; [reflexivity|]. by intros ? [= <-].
  - unfold bind at 1.
    destruct (is_challenge_record_pure hostname dnsAuthorization r env w)
      as [[keep|e] Hr]; rewrite Hr; [|by eexists].
    unfold bind at 1. destruct IH as ([rest|e] & -> & Hkept); [|by eexists].
    eexists. split; [reflexivity|]. intros ? [= <-].
    specialize (Hkept rest eq_refl).
    destruct keep; [|done]. constructor; [|done].
    by eapply is_challenge_record_true.
Qed.

Lemma emits_filter_records Q hostname dnsAuthorization records :
  emits Q (Forall (λ r, ∃ fields, r = Json.Obj fields
                               ∧ Json.lookup "type" fields = Some (Json.Str "TXT")
                               ∧ Json.lookup "destination" fields
                                 = Some (Json.Str dnsAuthorization)))
    (Netcup.filter_records (Netcup.is_challenge_record hostname dnsAuthorization)
       records).
Proof.
  intros env w.
  destruct (filter_records_run hostname dnsAuthorization records env w)
    as (o & -> & Hkept).
  exists []. cbn [snd fst]. rewrite app_nil_r. by repeat split.
Qed.

(** Whatever the remote answers, every updateDnsRecords request of
    [remove] carries at least one record, and only TXT records whose
    destination is the authorization value of the challenge and that are
    marked for deletion: [remove] creates or changes no record, and submits
    no empty update. *)
Theorem remove_only_deletes_challenge_records h data :
  emits (updates_only (λ records,
           records ≠ []
           ∧ Forall (deletion_of (Netcup.dnsAuthorization data)) records))
        (λ _, True) (Netcup.remove h data).
Proof.
  unfold Netcup.remove.
  eapply emits_bind; [apply emits_log|]. intros _ _.
  eapply emits_bind; [apply emits_login|]. intros sid _.
  apply emits_try_finally; [|apply emits_logout].
  unfold Netcup.delete_records.
  eapply emits_bind; [apply emits_findZone|]. intros zone _.
  eapply emits_bind; [by apply emits_other|]. intros recordsData _.
  eapply (emits_bind _ (λ _, True)).
  { unfold Netcup.records_of.
    generalize (if Json.nullish recordsData then Json.Undefined
                else default Json.Undefined (Json.prop recordsData "dnsrecords")).
    intros dnsrecords. destruct (Json.nullish dnsrecords); [emits_step|].
    destruct dnsrecords; emits_step. }
  intros records _.
  eapply emits_bind; [apply emits_filter_records|]. intros matching Hmatching.
  destruct (length (map Netcup.mark_deleted matching) =? 0)%nat eqn:Hlen;
    [emits_step|].
  eapply emits_bind; [|intros; emits_step].
  apply emits_update. split.
  - intros Hnil. by rewrite Hnil in Hlen.
  - apply Forall_map. eapply Forall_impl; [exact Hmatching|].
    intros r (fields & -> & Htype & Hdest).
    unfold deletion_of. cbn [Netcup.mark_deleted Json.prop].
    rewrite !lookup_assign. cbn [String.eqb Ascii.eqb Bool.eqb].
    by rewrite Htype, Hdest.
Qed.

(** *** The propagation waits, for every behaviour of the resolver *)

Lemma build_for_each_outcome dnsHost dnsAuthorization indices env w :
  (∃ w', for_each indices (NetcupBuild.poll_attempt dnsHost dnsAuthorization) env w
         = (Return (Some tt), w'))
  ∨ (∀ k, k < length indices →
          confirms dnsAuthorization (dns_script env (dns_calls w + k)) = false).
Proof.
  revert w. induction indices as [|i indices IH]; intros w.
  - right. intros k Hk. simpl in Hk. lia.
  - destruct (build_poll_attempt_run dnsHost dnsAuthorization i env w) as [lines Hp].
    cbn [for_each]. erewrite bind_return by exact Hp.
    destruct (confirms dnsAuthorization (dns_script env (dns_calls w))) eqn:Hc.
    + left. by eexists.
    + destruct (IH (mkWorld (api_calls w) (S (dns_calls w))
                      (events w ++ [ESleep NetcupBuild.retryDelayMs; EResolveTxt dnsHost])
                      (logs w ++ lines))) as [Hsome|Hnone]; [by left|].
      right. intros [|k] Hk; [by rewrite Nat.add_0_r|].
      cbn [dns_calls] in Hnone.
      replace (dns_calls w + S k) with (S (dns_calls w) + k) by lia.
      apply Hnone. simpl in Hk. lia.
Qed.

(** The wait of [set] in the compiled handler, for every behaviour of the
    resolver.  Either one of the first [maxAttempts] answers contains the
    authorization value: the wait returns at the first such answer, after
    as many pauses and lookups as its rank.  Or none does: the wait makes
    [maxAttempts] pauses and lookups and throws the error that names the
    host.  Each lookup comes after a pause of [retryDelayMs]; the wait
    never returns on an answer without the value. *)
Theorem build_await_propagation_every_run dnsHost dnsAuthorization env w :
  (∃ k w',
      k < NetcupBuild.maxAttempts
      ∧ confirms dnsAuthorization (dns_script env (dns_calls w + k)) = true
      ∧ (∀ j, j < k → confirms dnsAuthorization (dns_script env (dns_calls w + j)) = false)
      ∧ NetcupBuild.await_propagation dnsHost dnsAuthorization env w = (Return tt, w')
      ∧ events w' = events w ++ build_turns dnsHost (S k))
  ∨ ((∀ k, k < NetcupBuild.maxAttempts →
           confirms dnsAuthorization (dns_script env (dns_calls w + k)) = false)
     ∧ ∃ e w',
         NetcupBuild.await_propagation dnsHost dnsAuthorization env w = (Throw e, w')
         ∧ Interp dnsHost ∈ err_message e
         ∧ events w' = events w ++ build_turns dnsHost NetcupBuild.maxAttempts).
Proof.
  destruct (build_for_each_outcome dnsHost dnsAuthorization
              (range_incl 1 NetcupBuild.maxAttempts) env w) as [[w' Hloop]|Hnone].
  - left.
    assert (NetcupBuild.await_propagation dnsHost dnsAuthorization env w
            = (Return tt, w')) as Hrun.
    { unfold NetcupBuild.await_propagation. by erewrite bind_return by exact Hloop. }
    destruct (build_await_success_only_confirmed dnsHost dnsAuthorization env w w' Hrun)
      as (k & Hk & Hc & Hbefore & Hev).
    by exists k, w'.
  - right. split; [exact Hnone|].
    destruct (build_await_exhausted dnsHost dnsAuthorization env w Hnone)
      as (e & w' & Hrun & Hhost & _ & Hev).
    by exists e, w'.
Qed.

Lemma for_each_poll_outcome dnsHost dnsAuthorization indices env w :
  (∃ k results w',
      k < length indices
      ∧ (∀ j, j < k → ∃ e, dns_script env (dns_calls w + j) = DnsError e)
      ∧ dns_script env (dns_calls w + k) = DnsRecords results
      ∧ for_each indices (Netcup.poll_attempt dnsHost dnsAuthorization) env w
        = (Return (Some tt), w')
      ∧ events w' = events w ++ failed_turns dnsHost k ++ [EResolveTxt dnsHost])
  ∨ (∀ k, k < length indices → ∃ e, dns_script env (dns_calls w + k) = DnsError e).
Proof.
  revert w. induction indices as [|i indices IH]; intros w.
  - right. intros k Hk. simpl in Hk. lia.
  - destruct (dns_script env (dns_calls w)) as [e|results] eqn:Hdns.
    + destruct (poll_attempt_failed dnsHost dnsAuthorization i env w e Hdns)
        as [line Hp].
      cbn [for_each]. erewrite bind_return by exact Hp.
      destruct (IH (mkWorld (api_calls w) (S (dns_calls w))
                      (events w ++ [EResolveTxt dnsHost; ESleep Netcup.retryDelayMs])
                      (logs w ++ [line])))
        as [(k & results & w' & Hk & Hbefore & Hat & Hrun & Hev)|Hnone];
        cbn [dns_calls events] in *.
      * left. exists (S k), results, w'. split; [simpl; lia|].
        replace (dns_calls w + S k) with (S (dns_calls w) + k) by lia.
        split; [|split; [done|split; [done|]]].
        -- intros [|j] Hj; [rewrite Nat.add_0_r; by eexists|].
           replace (dns_calls w + S j) with (S (dns_calls w) + j) by lia.
           apply Hbefore. lia.
        -- rewrite Hev. unfold failed_turns. cbn [replicate concat].
           by rewrite <- !app_assoc.
      * right. intros [|k] Hk; [rewrite Nat.add_0_r; by eexists|].
        replace (dns_calls w + S k) with (S (dns_calls w) + k) by lia.
        apply Hnone. simpl in Hk. lia.
    + destruct (poll_attempt_answered dnsHost dnsAuthorization i env w results Hdns)
        as [line Hp].
      left. exists 0, results. eexists. split; [simpl; lia|].
      split; [intros; lia|]. rewrite Nat.add_0_r. split; [done|].
      cbn [for_each]. erewrite bind_return by exact Hp.
      split; [reflexivity|]. done.
Qed.

(** The wait of [set] in the TypeScript handler, for every behaviour of
    the resolver.  Either one of the first [maxAttempts] lookups is
    answered: the wait returns at the first answer, whatever its values,
    after one lookup and one pause of [retryDelayMs] for each failed lookup
    before it.  Or every lookup fails: the wait makes [maxAttempts] lookups,
    each followed by the pause, and throws the error that names the host
    and the number of attempts. *)
Theorem await_propagation_every_run dnsHost dnsAuthorization env w :
  (∃ k results w',
      k < Netcup.maxAttempts
      ∧ (∀ j, j < k → ∃ e, dns_script env (dns_calls w + j) = DnsError e)
      ∧ dns_script env (dns_calls w + k) = DnsRecords results
      ∧ Netcup.await_propagation dnsHost dnsAuthorization env w = (Return tt, w')
      ∧ events w' = events w ++ failed_turns dnsHost k ++ [EResolveTxt dnsHost])
  ∨ ((∀ k, k < Netcup.maxAttempts → ∃ e, dns_script env (dns_calls w + k) = DnsError e)
     ∧ ∃ w',
         Netcup.await_propagation dnsHost dnsAuthorization env w
         = (Throw (new_Error [Lit Netcup.tag; Lit "DNS record "; Lit Js.dq;
                              Interp dnsHost; Lit Js.dq; Lit " not visible after ";
                              InterpNum (Z.of_nat Netcup.maxAttempts);
                              Lit " attempts"]), w')
         ∧ events w' = events w ++ failed_turns dnsHost Netcup.maxAttempts).
Proof.
  unfold Netcup.await_propagation at 1.
  unfold bind at 1. unfold log at 1.
  set (w1 := mkWorld _ _ _ _).
  destruct (for_each_poll_outcome dnsHost dnsAuthorization
              (range_incl 1 Netcup.maxAttempts) env w1)
    as [(k & results & w' & Hk & Hbefore & Hat & Hloop & Hev)|Hnone].
  - left. exists k, results, w'. split; [exact Hk|].
    split; [exact Hbefore|]. split; [exact Hat|].
    split; [|exact Hev]. by erewrite bind_return by exact Hloop.
  - right. split; [exact Hnone|].
    destruct (await_propagation_lookups_fail dnsHost dnsAuthorization env w Hnone)
      as (w' & Hrun & Hev & _).
    by exists w'.
Qed.

(** *** The renewal decision over time and over the order of the domains *)

Section RenewalOverTime.

Variable parseCert : string → Outcome Main.Certificate.
Variable Date_parse : string → option Z.

(** Once the decision for a stored collection is to renew, it stays so at
    every later time: the expiry test is the only one that reads the
    clock, and it only turns from keep to renew. *)
Theorem renewal_decision_monotone useStaging commonName domains existingCollection
    (now later : Z) :
  (now <= later)%Z →
  Main.generateCollection_create parseCert Date_parse useStaging commonName domains
    existingCollection now = true →
  Main.generateCollection_create parseCert Date_parse useStaging commonName domains
    existingCollection later = true.
Proof.
  intros Hlater. unfold Main.generateCollection_create, Main.check_existing.
  destruct existingCollection as [existing|]; [|done].
  destruct (parseCert (Main.cert existing)) as [crt|err]; [|done].
  unfold Main.expiring.
  destruct (Date_parse (Main.notAfter crt)) as [expiry|]; [|done].
  destruct (Z.ltb_spec (expiry - Main.renewWindow) now) as [Hnow|Hnow].
  - intros _. destruct (Z.ltb_spec (expiry - Main.renewWindow) later); [done|lia].
  - intros Hother. by destruct (expiry - Main.renewWindow <? later)%Z.
Qed.

(** The decision does not depend on the order in which the configuration
    lists the domains. *)
Theorem renewal_decision_order_independent useStaging commonName
    (domains reordered : list string) existingCollection now :
  domains ≡ₚ reordered →
  Main.generateCollection_create parseCert Date_parse useStaging commonName domains
    existingCollection now
  = Main.generateCollection_create parseCert Date_parse useStaging commonName reordered
      existingCollection now.
Proof.
  intros Hperm. unfold Main.generateCollection_create, Main.check_existing.
  destruct existingCollection as [existing|]; [|done].
  destruct (parseCert (Main.cert existing)) as [crt|err]; [|done].
  assert (Main._arraysMatch (Some domains) (Some (Main.altNames crt))
          = Main._arraysMatch (Some reordered) (Some (Main.altNames crt))) as ->; [|done].
  apply eq_true_iff_eq. rewrite !arraysMatch_permutation. by rewrite Hperm.
Qed.

(** A certificate whose [notAfter] is not a date [Date.parse] understands
    is never renewed for its age: when its names and the staging flag match
    the configuration, the decision is to keep it at every time. *)
Theorem renewal_decision_unreadable_expiry useStaging commonName domains existing crt :
  parseCert (Main.cert existing) = Return crt →
  Date_parse (Main.notAfter crt) = None →
  commonName = Main.subject_commonName crt →
  domains ≡ₚ Main.altNames crt →
  useStaging = Main.staging existing →
  ∀ now, Main.generateCollection_create parseCert Date_parse useStaging commonName
           domains (Some existing) now = false.
Proof.
  intros Hparse Hdate -> Hperm -> now.
  unfold Main.generateCollection_create, Main.check_existing, Main.expiring.
  rewrite Hparse, Hdate, String.eqb_refl. cbn [negb].
  apply arraysMatch_permutation in Hperm as ->. cbn [negb].
  by destruct (Main.staging existing).
Qed.

End RenewalOverTime.

Lemma renewal_decision_monotone_witness :
  let crt := Main.mkCertificate "Jan  1 00:00:00 2027 GMT" "a.com" ["a.com"; "b.com"] in
  let parseCert := λ _ : string, Return crt in
  let Date_parse := λ _ : string, Some 1798761600000%Z in
  let existing := Some (Main.mkCollection "-----BEGIN CERTIFICATE-----" false) in
  Main.generateCollection_create parseCert Date_parse false "a.com" ["a.com"; "b.com"]
    existing 1798200000000 = true
  ∧ Main.generateCollection_create parseCert Date_parse false "a.com" ["a.com"; "b.com"]
      existing 1798300000000 = true.
Proof.
  intros crt parseCert Date_parse existing.
  split; [reflexivity|].
  apply (renewal_decision_monotone parseCert Date_parse false "a.com" ["a.com"; "b.com"]
           existing 1798200000000 1798300000000); [lia|reflexivity].
Defined.

Lemma renewal_decision_order_independent_witness :
  let crt := Main.mkCertificate "Jan  1 00:00:00 2027 GMT" "a.com" ["a.com"; "b.com"] in
  let parseCert := λ _ : string, Return crt in
  let Date_parse := λ _ : string, Some 1798761600000%Z in
  let existing := Some (Main.mkCollection "-----BEGIN CERTIFICATE-----" false) in
  Main.generateCollection_create parseCert Date_parse false "a.com" ["a.com"; "b.com"]
    existing 1793577600000
  = Main.generateCollection_create parseCert Date_parse false "a.com" ["b.com"; "a.com"]
      existing 1793577600000.
Proof.
  intros crt parseCert Date_parse existing.
  apply (renewal_decision_order_independent parseCert Date_parse false "a.com"
           ["a.com"; "b.com"] ["b.com"; "a.com"] existing 1793577600000).
  apply perm_swap.
Defined.

Lemma renewal_decision_unreadable_expiry_witness :
  let crt := Main.mkCertificate "never" "a.com" ["b.com"; "a.com"] in
  let parseCert := λ _ : string, Return crt in
  let Date_parse := λ _ : string, @None Z in
  let existing := Main.mkCollection "-----BEGIN CERTIFICATE-----" true in
  Main.generateCollection_create parseCert Date_parse true "a.com" ["a.com"; "b.com"]
    (Some existing) 4102444800000 = false.
Proof.
  intros crt parseCert Date_parse existing.
  apply (renewal_decision_unreadable_expiry parseCert Date_parse true "a.com"
           ["a.com"; "b.com"] existing crt);
    [reflexivity|reflexivity|reflexivity|apply perm_swap|reflexivity].
Defined.

(** *** The masking of logged objects *)

Lemma mask_entry_idempotent entry : mask_entry (mask_entry entry) = mask_entry entry.
Proof.
  unfold mask_entry. destruct entry as [key v]. cbn [fst snd].
  destruct (Main.sensitive_key key && Main.nonempty_string v) eqn:Hmask; cbn [fst snd].
  - by destruct (Main.sensitive_key key && Main.nonempty_string (Json.Str "***")).
  - by rewrite Hmask.
Qed.

Lemma mask_entry_key entry : (mask_entry entry).1 = entry.1.
Proof. unfold mask_entry. by destruct (_ && _). Qed.

Lemma lookup_map_mask_entry key obj :
  Json.lookup key (map mask_entry obj)
  = (λ v, if Main.sensitive_key key && Main.nonempty_string v
          then Json.Str "***" else v) <$> Json.lookup key obj.
Proof.
  induction obj as [|[k v] obj IH]; [done|].
  cbn [map]. unfold mask_entry at 1. cbn [fst snd].
  destruct (Main.sensitive_key k && Main.nonempty_string v) eqn:Hmask;
    cbn [Json.lookup]; destruct (String.eqb_spec k key) as [->|]; try done;
    cbn [fmap option_fmap option_map]; by rewrite Hmask.
Qed.

(** The copy of an object that is logged has the keys of the object, in
    the same order, and at every key the value of the object, except that a
    non-empty string at a sensitive key is replaced by ['***'].  A value
    that is not a string (a number, a nested object) and the empty string
    are kept as they are, at sensitive keys as well. *)
Theorem mask_keeps_keys_and_other_values obj :
  NoDup obj.*1 →
  (Main.mask obj).*1 = obj.*1
  ∧ ∀ key, Json.lookup key (Main.mask obj)
           = (λ v, if Main.sensitive_key key && Main.nonempty_string v
                   then Json.Str "***" else v) <$> Json.lookup key obj.
Proof.
  intros Hnodup. rewrite mask_map by done. split.
  - rewrite <- list_fmap_compose. apply list_fmap_ext.
    intros _ entry _. apply mask_entry_key.
  - intros key. apply lookup_map_mask_entry.
Qed.

Lemma mask_keeps_keys_and_other_values_witness :
  let obj := [("port", Json.Num 443); ("apiKey", Json.Str "k-123");
              ("apiToken", Json.Num 7); ("password", Json.Str EmptyString)] in
  (Main.mask obj).*1 = obj.*1
  ∧ ∀ key, Json.lookup key (Main.mask obj)
           = (λ v, if Main.sensitive_key key && Main.nonempty_string v
                   then Json.Str "***" else v) <$> Json.lookup key obj.
Proof.
  intros obj. apply (mask_keeps_keys_and_other_values obj).
  apply (bool_decide_unpack _). vm_compute. exact I.
Defined.

(** Masking an object that is already masked changes nothing. *)
Theorem mask_idempotent obj :
  NoDup obj.*1 → Main.mask (Main.mask obj) = Main.mask obj.
Proof.
  intros Hnodup. rewrite (mask_map obj) by done.
  rewrite mask_map.
  - rewrite <- list_fmap_compose. apply list_fmap_ext.
    intros _ entry _. apply mask_entry_idempotent.
  - replace ((map mask_entry obj).*1) with (obj.*1); [done|].
    rewrite <- list_fmap_compose. apply list_fmap_ext.
    intros _ entry _. symmetry. apply mask_entry_key.
Qed.

Lemma mask_idempotent_witness :
  let obj := [("port", Json.Num 443); ("apiKey", Json.Str "k-123")] in
  Main.mask (Main.mask obj) = Main.mask obj.
Proof.
  intros obj. apply (mask_idempotent obj).
  apply (bool_decide_unpack _). vm_compute. exact I.
Defined.

Lemma contains_str_drop needle n s :
  Js.contains needle (Js.str_drop n s) = true → Js.contains needle s = true.
Proof.
  revert s. induction n as [|n IH]; intros s; [done|].
  destruct s as [|c rest]; [done|]. cbn [Js.str_drop]. intros Hin%IH.
  cbn [Js.contains]. rewrite Hin. apply orb_true_r.
Qed.

Lemma toLower_str_drop n s : Js.toLower (Js.str_drop n s) = Js.str_drop n (Js.toLower s).
Proof.
  revert s. induction n as [|n IH]; intros s; [done|].
  destruct s as [|c rest]; [done|]. cbn [Js.str_drop Js.toLower]. apply IH.
Qed.

(** A key stays sensitive when characters are put before it: an option of
    the DNS-01 module that is masked in the dump of the options is masked
    under its prefixed name in the dump of the configuration as well. *)
Theorem sensitive_key_of_suffix n key :
  Main.sensitive_key (Js.str_drop n key) = true → Main.sensitive_key key = true.
Proof.
  unfold Main.sensitive_key. rewrite toLower_str_drop.
  rewrite !orb_true_iff.
  intros [[[[H|H]|H]|H]|H]; apply contains_str_drop in H; tauto.
Qed.

Lemma sensitive_key_of_suffix_witness :
  Main.sensitive_key "dns01OapiPassword" = true.
Proof.
  apply (sensitive_key_of_suffix 6 "dns01OapiPassword"). reflexivity.
Defined.

(** *** The options handed to the DNS-01 module *)










(** A customer number given as the number 12345 reaches the remote as the
    text ["12345"]; the number 0 and a missing key leave no handler. *)
Example initChallenges_netcup_numbers :
  let env := mkEnv friendly_api (λ _, DnsRecords []) in
  let config cn := [("dns01OcustomerNumber", cn); ("dns01OapiKey", Json.Str "key")] in
  login_request (Netcup.mkOptions (Json.Num 12345) (Json.Str "key") (Json.Str "password"))
  = mkRequest "login" (Json.Obj [("customernumber", Json.Str "12345");
                                 ("apikey", Json.Str "key");
                                 ("apipassword", Json.Str "password")])
  ∧ (Main.initChallenges_netcup
       (config (Json.Num 0) ++ [("dns01OapiPassword", Json.Str "password")])
       env world0).1 = Return None
  ∧ (Main.initChallenges_netcup (config (Json.Num 12345)) env world0).1 = Return None.
Proof. repeat split. Qed.

(** *** The first version of the handler against the present one *)

(** The two versions of [apiCall] treat every response alike, except an
    answer whose status code is above 2000 and below 3000 (2011, object
    created, is one): the first version throws the API error for it, the
    present one returns its [responsedata]. *)
Theorem legacy_apiResult_differs_on_2xxx response :
  match response with
  | JsonBody json =>
      if (2000 <? statuscode json)%Z && (statuscode json <? 3000)%Z then
        NetcupLegacy.apiResult response
        = Throw (new_Error [Lit "Netcup API error ["; InterpNum (statuscode json);
                            Lit "]: "; Interp (Netcup.error_text json)])
        ∧ Netcup.apiResult response true = Return (responsedata json)
      else NetcupLegacy.apiResult response = Netcup.apiResult response true
  | _ => NetcupLegacy.apiResult response = Netcup.apiResult response true
  end.
Proof.
  destruct response as [e|status statusText|rawText|json]; try reflexivity.
  unfold NetcupLegacy.apiResult, Netcup.apiResult, Netcup.isSuccess.
  destruct (Z.eqb_spec (statuscode json) 2000) as [->|Hne]; [reflexivity|].
  destruct (Z.ltb_spec 2000 (statuscode json)), (Z.ltb_spec (statuscode json) 3000),
    (Z.leb_spec 2000 (statuscode json)); cbn [andb negb]; try done; lia.
Qed.

(** [splitDomain] of the first version gives the name back: for a name of
    two labels, and for a longer name whose first label is neither empty
    nor ["@"], it returns a zone and a relative name that read back as the
    name. *)
Theorem splitDomain_reconstructs fullDomain :
  2 <= length (Js.split "." fullDomain) →
  (3 <= length (Js.split "." fullDomain) →
   head (Js.split "." fullDomain) ≠ Some ""
   ∧ head (Js.split "." fullDomain) ≠ Some "@") →
  ∃ zone, NetcupLegacy.splitDomain fullDomain = Return zone
          ∧ zone = Netcup.fallback (Js.split "." fullDomain)
          ∧ reconstruct zone = fullDomain.
Proof.
  intros Hlen Hhead. unfold NetcupLegacy.splitDomain.
  destruct (Nat.ltb_spec (length (Js.split "." fullDomain)) 2) as [|_]; [lia|].
  eexists. split; [reflexivity|]. split; [reflexivity|].
  change (Netcup.mkZone _ _) with (Netcup.fallback (Js.split "." fullDomain)).
  rewrite fallback_at.
  destruct (decide (length (Js.split "." fullDomain) = 2)) as [Htwo|Hmore].
  - rewrite Htwo, candidate_at_drop, hostname_at_take.
    change (2 - 2) with 0. rewrite drop_0, join_split. reflexivity.
  - destruct Hhead as [Hempty Hat]; [lia|].
    rewrite reconstruct_at; [apply join_split|lia|done|done].
Qed.

Lemma splitDomain_reconstructs_witness :
  ∃ zone, NetcupLegacy.splitDomain "_acme-challenge.sub.example.com" = Return zone
          ∧ zone = Netcup.fallback (Js.split "." "_acme-challenge.sub.example.com")
          ∧ reconstruct zone = "_acme-challenge.sub.example.com".
Proof.
  apply (splitDomain_reconstructs "_acme-challenge.sub.example.com").
  - vm_compute. lia.
  - intros _. split; vm_compute; congruence.
Defined.

(** For a host name without a dot, [set] of the first version throws
    [Cannot split domain] before it logs in: no request is sent. *)
Theorem legacy_set_single_label h data env w :
  length (Js.split "." (Netcup.dnsHost data)) < 2 →
  NetcupLegacy.set h data env w
  = (Throw (new_Error [Lit "Cannot split domain: "; Interp (Netcup.dnsHost data)]), w).
Proof.
  intros Hlen. unfold NetcupLegacy.set, NetcupLegacy.splitDomain.
  destruct (Nat.ltb_spec (length (Js.split "." (Netcup.dnsHost data))) 2) as [_|]; [|lia].
  reflexivity.
Qed.

Lemma legacy_set_single_label_witness :
  let h := Netcup.mkHandler
             (Netcup.mkOptions (Json.Str "12345") (Json.Str "key") (Json.Str "password")) in
  let data := Netcup.mkChallenge "localhost" "tok1" in
  let env := mkEnv friendly_api (λ _, DnsRecords []) in
  NetcupLegacy.set h data env world0
  = (Throw (new_Error [Lit "Cannot split domain: "; Interp "localhost"]), world0).
Proof.
  intros h data env. apply (legacy_set_single_label h data env world0).
  vm_compute. lia.
Defined.

(** *** Adapters on the port of the challenge server *)

(** The test on the bind addresses does not depend on which of the two
    adapters asks: an address of ours collides with an address of the other
    adapter exactly when the other's collides with ours. *)
Theorem binds_overlap_symmetric (bind other : string) :
  Ports.binds_overlap bind other = Ports.binds_overlap other bind.
Proof.
  unfold Ports.binds_overlap. rewrite (String.eqb_sym other bind).
  destruct (String.eqb bind other), (Js.contains "." bind), (Js.contains "." other),
    (Js.contains ":" bind), (Js.contains ":" other),
    (String.eqb bind "0.0.0.0"), (String.eqb other "0.0.0.0"),
    (String.eqb bind "::"), (String.eqb other "::"); reflexivity.
Qed.

Section EnableLoop.

Variables (flag : bool) (step : Ports.Adapter → string → Ports.Adapter).

Hypothesis step_objects : ∀ a id,
  Ports.objects (step a id)
  = match Ports.objects a !! id with
    | Some config =>
        <[Ports._id config := Ports.set_enabled flag config]> (Ports.objects a)
    | None => Ports.objects a
    end.

Hypothesis step_flags : ∀ a id,
  Ports.stoppedAdapters (step a id) = Ports.stoppedAdapters a
  ∧ Ports.donePortCheck (step a id) = Ports.donePortCheck a.

Lemma enable_loop ids a :
  keyed_by_id (Ports.objects a) →
  Ports.objects (foldl step a ids)
  = (λ instance, if bool_decide (Ports._id instance ∈ ids)
                 then Ports.set_enabled flag instance else instance)
    <$> Ports.objects a
  ∧ Ports.stoppedAdapters (foldl step a ids) = Ports.stoppedAdapters a
  ∧ Ports.donePortCheck (foldl step a ids) = Ports.donePortCheck a.
Proof.
  revert a. induction ids as [|id ids IH]; intros a Hkeyed.
  - cbn [foldl]. split; [|done]. symmetry. apply map_eq. intros j.
    rewrite lookup_fmap. destruct (Ports.objects a !! j); [|done]. done.
  - cbn [foldl].
    assert (keyed_by_id (Ports.objects (step a id))) as Hkeyed'.
    { intros j instance. rewrite step_objects.
      destruct (Ports.objects a !! id) as [config|] eqn:Hid; [|apply Hkeyed].
      rewrite lookup_insert. case_decide as Hj; [|apply Hkeyed].
      intros [= <-]. exact Hj. }
    destruct (IH (step a id) Hkeyed') as (Hobjects & Hstopped & Hdone).
    destruct (step_flags a id) as [Hstopped' Hdone'].
    split; [|by rewrite Hstopped, Hdone].
    rewrite Hobjects, step_objects. apply map_eq. intros j. rewrite !lookup_fmap.
    destruct (Ports.objects a !! id) as [config|] eqn:Hid.
    + pose proof (Hkeyed _ _ Hid) as Hconfig. rewrite Hconfig.
      rewrite lookup_insert. case_decide as Hj.
      * subst j. rewrite Hid. cbn [fmap option_fmap option_map].
        cbn [Ports.set_enabled Ports._id]. rewrite Hconfig.
        rewrite (bool_decide_eq_true_2 (id ∈ id :: ids)) by apply list_elem_of_here.
        by destruct (bool_decide (id ∈ ids)).
      * destruct (Ports.objects a !! j) as [instance|] eqn:Hjth; [|done].
        cbn [fmap option_fmap option_map]. f_equal.
        rewrite (Hkeyed _ _ Hjth).
        rewrite (bool_decide_ext (j ∈ id :: ids) (j ∈ ids)); [done|].
        rewrite elem_of_cons. naive_solver.
    + destruct (Ports.objects a !! j) as [instance|] eqn:Hjth; [|done].
      cbn [fmap option_fmap option_map]. f_equal.
      rewrite (Hkeyed _ _ Hjth).
      rewrite (bool_decide_ext (j ∈ id :: ids) (j ∈ ids)); [done|].
      rewrite elem_of_cons. split; [|by right].
      intros [->|Hin]; [|done]. congruence.
Qed.

End EnableLoop.

Section SamePortFacts.

Variable loose_eq : Json.value → Z → bool.
Variables (namespace host : string) (http01Active : bool) (bind : string) (port : Z).

Let on_same_port := Ports.on_same_port loose_eq namespace host bind port.
Let stop := Ports.stopAdaptersOnSamePort loose_eq namespace host http01Active bind port.

(** The ids of the adapters the filter keeps, among the objects of a
    store keyed by id. *)
Lemma same_port_ids store j instance :
  keyed_by_id store →
  store !! j = Some instance →
  Ports._id instance
    ∈ map Ports._id (List.filter on_same_port (map_to_list store).*2)
  ↔ on_same_port instance = true.
Proof.
  intros Hkeyed Hj. rewrite list_elem_of_fmap. split.
  - intros (other & Hid & Hin).
    apply list_elem_of_In, filter_In in Hin as [Hin Hsame].
    apply list_elem_of_In, list_elem_of_fmap in Hin as ([k other'] & -> & Hin).
    apply elem_of_map_to_list in Hin. cbn [snd] in *.
    pose proof (Hkeyed _ _ Hin) as Hk. pose proof (Hkeyed _ _ Hj) as Hj'.
    assert (k = j) as -> by congruence.
    assert (other' = instance) as -> by congruence. done.
  - intros Hsame. exists instance. split; [done|].
    apply list_elem_of_In, filter_In. split; [|done].
    apply list_elem_of_In, list_elem_of_fmap. exists (j, instance).
    split; [done|]. by apply elem_of_map_to_list.
Qed.

Lemma stop_one_objects a id :
  Ports.objects (Ports.stop_one a id)
  = match Ports.objects a !! id with
    | Some config =>
        <[Ports._id config := Ports.set_enabled false config]> (Ports.objects a)
    | None => Ports.objects a
    end.
Proof. unfold Ports.stop_one. by destruct (Ports.objects a !! id). Qed.

Lemma stop_one_flags a id :
  Ports.stoppedAdapters (Ports.stop_one a id) = Ports.stoppedAdapters a
  ∧ Ports.donePortCheck (Ports.stop_one a id) = Ports.donePortCheck a.
Proof. unfold Ports.stop_one. by destruct (Ports.objects a !! id). Qed.

Lemma start_one_objects a id :
  Ports.objects (Ports.start_one a id)
  = match Ports.objects a !! id with
    | Some config =>
        <[Ports._id config := Ports.set_enabled true config]> (Ports.objects a)
    | None => Ports.objects a
    end.
Proof. unfold Ports.start_one. by destruct (Ports.objects a !! id). Qed.

Lemma start_one_flags a id :
  Ports.stoppedAdapters (Ports.start_one a id) = Ports.stoppedAdapters a
  ∧ Ports.donePortCheck (Ports.start_one a id) = Ports.donePortCheck a.
Proof. unfold Ports.start_one. by destruct (Ports.objects a !! id). Qed.

Lemma stop_run a :
  keyed_by_id (Ports.objects a) →
  http01Active = true →
  Ports.donePortCheck a = false →
  let ids := map Ports._id
               (List.filter on_same_port (map_to_list (Ports.objects a)).*2) in
  Ports.objects (stop a)
  = (λ instance, if on_same_port instance
                 then Ports.set_enabled false instance else instance)
    <$> Ports.objects a
  ∧ Ports.stoppedAdapters (stop a)
    = (if (length ids =? 0)%nat then Ports.stoppedAdapters a else Some ids)
  ∧ Ports.donePortCheck (stop a) = true.
Proof.
  intros Hkeyed Hactive Hdone ids.
  assert (length ids
          = length (List.filter on_same_port (map_to_list (Ports.objects a)).*2))
    as Hlen by apply length_map.
  rewrite Hlen. unfold stop, Ports.stopAdaptersOnSamePort.
  rewrite Hactive, Hdone. cbn [andb negb Ports.log Ports.objects].
  fold on_same_port. fold ids. rewrite <- Hlen.
  assert ((λ instance, if bool_decide (Ports._id instance ∈ ids)
                       then Ports.set_enabled false instance else instance)
          <$> Ports.objects a
          = (λ instance, if on_same_port instance
                         then Ports.set_enabled false instance else instance)
            <$> Ports.objects a) as Hsame.
  { apply map_eq. intros j. rewrite !lookup_fmap.
    destruct (Ports.objects a !! j) as [instance|] eqn:Hj; [|done].
    cbn [fmap option_fmap option_map]. f_equal.
    pose proof (same_port_ids _ _ _ Hkeyed Hj) as Hiff. fold ids in Hiff.
    destruct (on_same_port instance).
    - by rewrite bool_decide_eq_true_2 by by apply Hiff.
    - rewrite bool_decide_eq_false_2; [done|]. intros Hin. by apply Hiff in Hin. }
  destruct (Nat.eqb_spec (length ids) 0) as [Hnone|Hsome].
  - cbn [Ports.objects Ports.stoppedAdapters Ports.donePortCheck].
    split; [|done]. apply map_eq. intros j. rewrite lookup_fmap.
    destruct (Ports.objects a !! j) as [instance|] eqn:Hj; [|done].
    cbn [fmap option_fmap option_map]. f_equal.
    destruct (on_same_port instance) eqn:Hon; [|done].
    apply (same_port_ids _ _ _ Hkeyed Hj) in Hon. fold ids in Hon.
    rewrite (nil_length_inv _ Hnone) in Hon. by apply elem_of_nil in Hon.
  - cbn [Ports.objects Ports.stoppedAdapters Ports.donePortCheck default from_option].
    change (id ids) with ids.
    match goal with
    | |- context [foldl Ports.stop_one ?before ids] =>
        destruct (enable_loop false Ports.stop_one stop_one_objects stop_one_flags
                    ids before Hkeyed) as (Hobjects & Hstopped & _)
    end.
    rewrite Hobjects, Hstopped. cbn [Ports.objects Ports.stoppedAdapters].
    by rewrite Hsame.
Qed.

Lemma restore_stop_run a :
  keyed_by_id (Ports.objects a) →
  Ports.stoppedAdapters a = None →
  Ports.donePortCheck a = false →
  Ports.objects (Ports.restoreAdaptersOnSamePort (stop a)) = Ports.objects a
  ∧ Ports.stoppedAdapters (Ports.restoreAdaptersOnSamePort (stop a)) = None.
Proof.
  intros Hkeyed Hnone Hdone.
  case_eq http01Active; intros Hactive; last first.
  { unfold stop, Ports.stopAdaptersOnSamePort. rewrite Hactive. cbn [andb].
    unfold Ports.restoreAdaptersOnSamePort. by rewrite Hnone. }
  destruct (stop_run a Hkeyed Hactive Hdone) as (Hobjects & Hstopped & _).
  set (ids := map Ports._id
                (List.filter on_same_port (map_to_list (Ports.objects a)).*2)) in *.
  unfold Ports.restoreAdaptersOnSamePort. rewrite Hstopped, Hnone.
  destruct (Nat.eqb_spec (length ids) 0) as [Hempty|Hsome].
  - cbn [Ports.log Ports.objects Ports.stoppedAdapters].
    split; [|by rewrite Hstopped].
    rewrite Hobjects. apply map_eq. intros j. rewrite lookup_fmap.
    destruct (Ports.objects a !! j) as [instance|] eqn:Hj; [|done].
    cbn [fmap option_fmap option_map]. f_equal.
    destruct (on_same_port instance) eqn:Hon; [|done].
    apply (same_port_ids _ _ _ Hkeyed Hj) in Hon. fold ids in Hon.
    rewrite (nil_length_inv _ Hempty) in Hon. by apply elem_of_nil in Hon.
  - cbn [Ports.objects Ports.stoppedAdapters]. split; [|done].
    match goal with
    | |- context [foldl Ports.start_one ?before ids] =>
        destruct (enable_loop true Ports.start_one start_one_objects start_one_flags
                    ids before) as (Hstarted & _)
    end.
    { cbn [Ports.log Ports.objects]. rewrite Hobjects. intros j instance.
      rewrite lookup_fmap.
      destruct (Ports.objects a !! j) as [original|] eqn:Hj; [|done].
      cbn [fmap option_fmap option_map]. intros [= <-].
      pose proof (Hkeyed _ _ Hj). by destruct (on_same_port original). }
    rewrite Hstarted. cbn [Ports.log Ports.objects]. rewrite Hobjects.
    apply map_eq. intros j. rewrite !lookup_fmap.
    destruct (Ports.objects a !! j) as [instance|] eqn:Hj; [|done].
    cbn [fmap option_fmap option_map]. f_equal.
    pose proof (same_port_ids _ _ _ Hkeyed Hj) as Hiff. fold ids in Hiff.
    destruct (on_same_port instance) eqn:Hon.
    + cbn [Ports.set_enabled Ports._id].
      rewrite bool_decide_eq_true_2 by by apply Hiff.
      unfold on_same_port, Ports.on_same_port in Hon.
      destruct instance as [id enabled h n]. cbn [Ports.set_enabled] in *.
      cbn [Ports._id Ports.common_enabled Ports.common_host Ports.native] in *.
      destruct enabled; [done|]. by rewrite andb_false_r in Hon.
    + rewrite bool_decide_eq_false_2; [done|]. intros Hin. by apply Hiff in Hin.
Qed.

End SamePortFacts.

(** With the challenge server in use and the port not yet checked,
    [stopAdaptersOnSamePort] disables exactly the adapters its filter
    keeps and changes nothing else in the store: every other object, and
    every other field of a disabled adapter, is as before.  Our own
    instance is never disabled, and the port counts as checked. *)
Theorem stopAdaptersOnSamePort_disables_conflicting
    loose_eq namespace host bind port a :
  keyed_by_id (Ports.objects a) →
  Ports.donePortCheck a = false →
  let stopped := Ports.stopAdaptersOnSamePort loose_eq namespace host true bind port a in
  Ports.objects stopped
  = (λ instance, if Ports.on_same_port loose_eq namespace host bind port instance
                 then Ports.set_enabled false instance else instance)
    <$> Ports.objects a
  ∧ Ports.objects stopped !! Ports.us namespace = Ports.objects a !! Ports.us namespace
  ∧ Ports.donePortCheck stopped = true.
Proof.
  intros Hkeyed Hdone stopped.
  destruct (stop_run loose_eq namespace host true bind port a Hkeyed eq_refl Hdone)
    as (Hobjects & _ & Hchecked).
  split; [exact Hobjects|]. split; [|exact Hchecked].
  unfold stopped. rewrite Hobjects, lookup_fmap.
  destruct (Ports.objects a !! Ports.us namespace) as [instance|] eqn:Hus; [|done].
  cbn [fmap option_fmap option_map]. f_equal.
  unfold Ports.on_same_port. rewrite (Hkeyed _ _ Hus), String.eqb_refl. done.
Qed.

(** A run of [stopAdaptersOnSamePort] followed by
    [restoreAdaptersOnSamePort] leaves the object store as it was: every
    adapter that was disabled is enabled again, and no adapter is recorded
    as stopped any more. *)
Theorem restore_after_stop_gives_store_back
    loose_eq namespace host http01Active bind port a :
  keyed_by_id (Ports.objects a) →
  Ports.stoppedAdapters a = None →
  Ports.donePortCheck a = false →
  let stopped :=
    Ports.stopAdaptersOnSamePort loose_eq namespace host http01Active bind port a in
  Ports.objects (Ports.restoreAdaptersOnSamePort stopped) = Ports.objects a
  ∧ Ports.stoppedAdapters (Ports.restoreAdaptersOnSamePort stopped) = None.
Proof.
  intros Hkeyed Hnone Hdone stopped.
  by apply restore_stop_run.
Qed.

(** [stopAdaptersOnSamePort] can be called many times: a second call
    changes nothing, not even the log. *)
Theorem stopAdaptersOnSamePort_once loose_eq namespace host http01Active bind port a :
  let stop := Ports.stopAdaptersOnSamePort loose_eq namespace host http01Active bind port in
  stop (stop a) = stop a.
Proof.
  intros stop. unfold stop, Ports.stopAdaptersOnSamePort.
  destruct (http01Active && negb (Ports.donePortCheck a)) eqn:Hfirst.
  - cbn [Ports.donePortCheck negb]. by rewrite andb_false_r.
  - by rewrite Hfirst.
Qed.

Lemma keyed_by_id_empty : keyed_by_id ∅.
Proof. intros id instance. by rewrite lookup_empty. Qed.

Lemma keyed_by_id_insert instance store :
  keyed_by_id store → keyed_by_id (<[Ports._id instance := instance]> store).
Proof.
  intros Hkeyed id other. rewrite lookup_insert.
  case_decide as Hid; [|apply Hkeyed]. by intros [= <-].
Qed.

Lemma stopAdaptersOnSamePort_disables_conflicting_witness :
  let loose_eq := λ (v : Json.value) (port : Z),
                    match v with Json.Num n => (n =? port)%Z | _ => false end in
  let web := Ports.mkNative (Json.Str "0.0.0.0") (Json.Num 80) (Json.Bool false)
               (Json.Bool false) (Json.Bool false) Json.Undefined in
  let acme := Ports.mkInstance "system.adapter.acme.0" true "pi" (Some web) in
  let web0 := Ports.mkInstance "system.adapter.web.0" true "pi" (Some web) in
  let a := Ports.mkAdapter (<[Ports._id acme := acme]> (<[Ports._id web0 := web0]> ∅))
             None false [] in
  let stopped := Ports.stopAdaptersOnSamePort loose_eq "acme.0" "pi" true "192.168.1.5" 80 a in
  Ports.objects stopped
  = (λ instance, if Ports.on_same_port loose_eq "acme.0" "pi" "192.168.1.5" 80 instance
                 then Ports.set_enabled false instance else instance)
    <$> Ports.objects a
  ∧ Ports.objects stopped !! Ports.us "acme.0" = Ports.objects a !! Ports.us "acme.0"
  ∧ Ports.donePortCheck stopped = true.
Proof.
  intros loose_eq web acme web0 a stopped.
  apply (stopAdaptersOnSamePort_disables_conflicting loose_eq "acme.0" "pi"
           "192.168.1.5" 80 a).
  - apply keyed_by_id_insert, keyed_by_id_insert, keyed_by_id_empty.
  - reflexivity.
Defined.

Lemma restore_after_stop_gives_store_back_witness :
  let loose_eq := λ (v : Json.value) (port : Z),
                    match v with Json.Num n => (n =? port)%Z | _ => false end in
  let web := Ports.mkNative (Json.Str "0.0.0.0") (Json.Num 80) (Json.Bool false)
               (Json.Bool false) (Json.Bool false) Json.Undefined in
  let acme := Ports.mkInstance "system.adapter.acme.0" true "pi" (Some web) in
  let web0 := Ports.mkInstance "system.adapter.web.0" true "pi" (Some web) in
  let a := Ports.mkAdapter (<[Ports._id acme := acme]> (<[Ports._id web0 := web0]> ∅))
             None false [] in
  let stopped := Ports.stopAdaptersOnSamePort loose_eq "acme.0" "pi" true "192.168.1.5" 80 a in
  Ports.objects (Ports.restoreAdaptersOnSamePort stopped) = Ports.objects a
  ∧ Ports.stoppedAdapters (Ports.restoreAdaptersOnSamePort stopped) = None.
Proof.
  intros loose_eq web acme web0 a stopped.
  apply (restore_after_stop_gives_store_back loose_eq "acme.0" "pi" true
           "192.168.1.5" 80 a).
  - apply keyed_by_id_insert, keyed_by_id_insert, keyed_by_id_empty.
  - reflexivity.
  - reflexivity.
Defined.

(** On this store the adapter [web.0], which listens on all IPv4
    interfaces at our port, is the one that is stopped. *)
Example stopAdaptersOnSamePort_stops_web :
  let loose_eq := λ (v : Json.value) (port : Z),
                    match v with Json.Num n => (n =? port)%Z | _ => false end in
  let web := Ports.mkNative (Json.Str "0.0.0.0") (Json.Num 80) (Json.Bool false)
               (Json.Bool false) (Json.Bool false) Json.Undefined in
  let acme := Ports.mkInstance "system.adapter.acme.0" true "pi" (Some web) in
  let web0 := Ports.mkInstance "system.adapter.web.0" true "pi" (Some web) in
  let a := Ports.mkAdapter (<[Ports._id acme := acme]> (<[Ports._id web0 := web0]> ∅))
             None false [] in
  Ports.stoppedAdapters
    (Ports.stopAdaptersOnSamePort loose_eq "acme.0" "pi" true "192.168.1.5" 80 a)
  = Some ["system.adapter.web.0"].
Proof. vm_compute. reflexivity. Qed.

(** *** The list of domains of a collection *)

Lemma split_all_chars p sep s :
  all_chars p s = true → Forall (λ label, all_chars p label = true) (Js.split sep s).
Proof.
  induction s as [|c rest IH]; cbn [Js.split all_chars].
  - intros _. by repeat constructor.
  - intros [Hc Hrest%IH]%andb_true_iff.
    destruct (Ascii.eqb c sep); [by constructor|].
    destruct (Js.split sep rest) as [|label labels].
    + repeat constructor. cbn [all_chars]. by rewrite Hc.
    + apply Forall_cons in Hrest as [Hlabel Hlabels].
      constructor; [|done]. cbn [all_chars]. by rewrite Hc, Hlabel.
Qed.

Lemma split_no_separator sep s :
  Forall (λ label, all_chars (λ c, negb (Ascii.eqb c sep)) label = true)
         (Js.split sep s).
Proof.
  induction s as [|c rest IH]; cbn [Js.split]; [by repeat constructor|].
  destruct (Ascii.eqb c sep) eqn:Hc; [by constructor|].
  destruct (Js.split sep rest) as [|label labels].
  - repeat constructor. cbn [all_chars]. by rewrite Hc.
  - apply Forall_cons in IH as [Hlabel Hlabels].
    constructor; [|done]. cbn [all_chars]. by rewrite Hc, Hlabel.
Qed.

Lemma contains_char_false c s :
  all_chars (λ d, negb (Ascii.eqb d c)) s = true →
  Js.contains (String c EmptyString) s = false.
Proof.
  induction s as [|d rest IH]; cbn [all_chars Js.contains String.prefix]; [done|].
  intros [Hd Hrest%IH]%andb_true_iff. rewrite Hrest, orb_false_r.
  destruct (ascii_dec c d) as [->|]; [|done].
  by rewrite Ascii.eqb_refl in Hd.
Qed.

Lemma trim_start_all_chars p s :
  all_chars p s = true → all_chars p (Domains.trim_start s) = true.
Proof.
  induction s as [|c rest IH]; [done|]. cbn [Domains.trim_start].
  destruct (Domains.is_space c); [|done].
  cbn [all_chars]. intros [_ Hrest]%andb_true_iff. by apply IH.
Qed.

Lemma trim_end_all_chars p s :
  all_chars p s = true → all_chars p (Domains.trim_end s) = true.
Proof.
  induction s as [|c rest IH]; [done|]. cbn [Domains.trim_end all_chars].
  intros [Hc Hrest%IH]%andb_true_iff.
  destruct (Domains.is_space c && String.eqb (Domains.trim_end rest) ""); [done|].
  cbn [all_chars]. by rewrite Hc, Hrest.
Qed.

Lemma trim_end_idempotent s :
  Domains.trim_end (Domains.trim_end s) = Domains.trim_end s.
Proof.
  induction s as [|c rest IH]; [done|]. cbn [Domains.trim_end].
  destruct (Domains.is_space c && String.eqb (Domains.trim_end rest) "") eqn:Hdrop;
    [done|].
  cbn [Domains.trim_end]. by rewrite IH, Hdrop.
Qed.

Lemma trim_start_clean s :
  match s with String c _ => Domains.is_space c = false | EmptyString => True end →
  Domains.trim_start s = s.
Proof. destruct s as [|c rest]; [done|]. cbn [Domains.trim_start]. by intros ->. Qed.

Lemma trim_start_starts_clean s :
  match Domains.trim_start s with
  | String c _ => Domains.is_space c = false
  | EmptyString => True
  end.
Proof.
  induction s as [|c rest IH]; [done|]. cbn [Domains.trim_start].
  by destruct (Domains.is_space c) eqn:Hc.
Qed.

Lemma trim_end_starts_clean s :
  match s with String c _ => Domains.is_space c = false | EmptyString => True end →
  match Domains.trim_end s with
  | String c _ => Domains.is_space c = false
  | EmptyString => True
  end.
Proof.
  destruct s as [|c rest]; [done|]. cbn [Domains.trim_end]. intros Hc.
  by rewrite Hc.
Qed.

Lemma trim_idempotent s : Domains.trim (Domains.trim s) = Domains.trim s.
Proof.
  unfold Domains.trim.
  rewrite (trim_start_clean (Domains.trim_end (Domains.trim_start s))).
  - apply trim_end_idempotent.
  - apply trim_end_starts_clean, trim_start_starts_clean.
Qed.

Lemma strip_spaces_no_space s :
  all_chars (λ c, negb (Domains.is_space c)) (Domains.strip_spaces s) = true.
Proof.
  induction s as [|c rest IH]; [done|]. cbn [Domains.strip_spaces].
  destruct (Domains.is_space c) eqn:Hc; [done|]. cbn [all_chars]. by rewrite Hc.
Qed.

Lemma trim_no_space s :
  all_chars (λ c, negb (Domains.is_space c)) s = true → Domains.trim s = s.
Proof.
  intros Hclean. unfold Domains.trim. rewrite trim_start_clean.
  - induction s as [|c rest IH]; [done|]. cbn [all_chars] in Hclean.
    apply andb_true_iff in Hclean as [Hc Hrest]. cbn [Domains.trim_end].
    rewrite IH by done. apply negb_true_iff in Hc. by rewrite Hc.
  - destruct s as [|c rest]; [done|]. cbn [all_chars] in Hclean.
    apply andb_true_iff in Hclean as [Hc _]. by apply negb_true_iff in Hc.
Qed.

(** Every entry of the list of domains of a collection is a non-empty
    name without a comma and without white space at its ends, whatever the
    two texts of the configuration are. *)
Theorem domains_entries_are_clean commonName altNames :
  Forall (λ domain, domain ≠ ""
                    ∧ Js.contains "," domain = false
                    ∧ Domains.trim domain = domain)
         (Domains.domains commonName altNames).
Proof.
  assert (Forall (λ domain, domain ≠ "" ∧ Js.contains "," domain = false
                            ∧ Domains.trim domain = domain)
            (List.filter Domains.nonempty
               (map Domains.trim (Js.split "," commonName)))) as Hcommon.
  { apply Forall_forall. intros domain [Hin Hnonempty]%list_elem_of_In%filter_In.
    apply list_elem_of_In, list_elem_of_fmap in Hin as (label & -> & Hin).
    split; [|split].
    - unfold Domains.nonempty in Hnonempty. apply negb_true_iff in Hnonempty.
      by apply String.eqb_neq in Hnonempty.
    - apply contains_char_false. unfold Domains.trim.
      apply trim_end_all_chars, trim_start_all_chars.
      pose proof (split_no_separator "," commonName) as Hlabels.
      rewrite Forall_forall in Hlabels. by apply Hlabels.
    - apply trim_idempotent. }
  unfold Domains.domains. destruct (Domains.nonempty altNames); [|exact Hcommon].
  apply Forall_app. split; [exact Hcommon|].
  apply Forall_forall. intros domain [Hin Hnonempty]%list_elem_of_In%filter_In.
  apply list_elem_of_In in Hin. split; [|split].
  - unfold Domains.nonempty in Hnonempty. apply negb_true_iff in Hnonempty.
    by apply String.eqb_neq in Hnonempty.
  - apply contains_char_false.
    pose proof (split_no_separator "," (Domains.strip_spaces altNames)) as Hlabels.
    rewrite Forall_forall in Hlabels. by apply Hlabels.
  - apply trim_no_space.
    pose proof (split_all_chars _ "," _ (strip_spaces_no_space altNames)) as Hlabels.
    rewrite Forall_forall in Hlabels. by apply Hlabels.
Qed.

(** The common name and the alternative names of a configuration, with
    blanks and empty entries, give the list of the four names. *)
Example domains_of_a_collection :
  Domains.domains " a.com ,b.com," "c.com, ,d.com" = ["a.com"; "b.com"; "c.com"; "d.com"].
Proof. reflexivity. Qed.
